(** * render-runtime: extension-tree resolution and hydration control

    A shallow embedding of the parts of the runtime that decide tree
    paths, child resolution, prop merging, slot materialisation, the
    hydration gate and the activation of uncritical styles:

    - [react/components/ExtensionPoint/index.tsx]
    - [react/utils/slots.tsx]
    - [react/components/Hydration/PreventHydration.tsx]
    - [react/utils/uncritical.ts]

    JavaScript strings are modelled as [string]; every string operation
    used by the sources (indexOf, includes, substring, substr, template
    concatenation) works position by position, so the alphabet plays no
    role.  JavaScript values are an inductive type; objects are
    association lists in key-insertion order. *)

From Stdlib Require Import ZArith List Bool Lia String Ascii DecimalString.
From Stdlib Require Import DecimalNat.
Import ListNotations.
Set Warnings "-register-all".
Open Scope string_scope.

(* ================================================================== *)
(** * JavaScript values and string primitives *)
(* ================================================================== *)

Module JS.

(** [s.indexOf(needle)]: position of the first occurrence, or -1. *)
Definition indexOf (s needle : string) : Z :=
  match String.index 0 needle s with
  | Some n => Z.of_nat n
  | None => (-1)%Z
  end.

(** [s.includes(needle)]. *)
Definition includes (s needle : string) : bool :=
  match String.index 0 needle s with
  | Some _ => true
  | None => false
  end.

Definition clamp (lo hi x : Z) : Z := Z.max lo (Z.min hi x).

(** [s.substring(a, b)]: both ends are clamped to [0, length] and
    swapped when out of order. *)
Definition substring (s : string) (a b : Z) : string :=
  let len := Z.of_nat (String.length s) in
  let a' := clamp 0 len a in
  let b' := clamp 0 len b in
  let from := Z.min a' b' in
  let to := Z.max a' b' in
  String.substring (Z.to_nat from) (Z.to_nat (to - from)) s.

(** [s.substr(start, count)]: a negative start counts from the end, a
    non-positive count gives the empty string. *)
Definition substr (s : string) (start count : Z) : string :=
  let len := Z.of_nat (String.length s) in
  let from := if (start <? 0)%Z then Z.max 0 (len + start) else Z.min start len in
  let n := clamp 0 (len - from) count in
  String.substring (Z.to_nat from) (Z.to_nat n) s.

(** A string in a boolean position: only the empty string is falsy. *)
Definition nonEmpty (s : string) : bool :=
  match s with
  | EmptyString => false
  | String _ _ => true
  end.

(** Decimal rendering of an array index inside a template string. *)
Definition showNat (n : nat) : string :=
  NilEmpty.string_of_uint (Nat.to_uint n).

(** Values.  Numbers are kept integral: no source path modelled here
    computes with one, they are only carried around and tested for
    truthiness. *)
Inductive Val : Type :=
| VUndefined
| VNull
| VBool (b : bool)
| VNum (n : Z)
| VStr (s : string)
| VArr (items : list Val)
| VObj (fields : list (string * Val)).

(** A plain object: its own enumerable keys in insertion order. *)
Definition Obj : Type := list (string * Val).

Fixpoint lookup (k : string) (o : Obj) : option Val :=
  match o with
  | [] => None
  | (k', v) :: rest => if String.eqb k k' then Some v else lookup k rest
  end.

(** [Object.prototype.hasOwnProperty.call(o, k)]. *)
Definition has (k : string) (o : Obj) : bool :=
  match lookup k o with
  | Some _ => true
  | None => false
  end.

(** [o[k]]: a missing key reads as [undefined]. *)
Definition get (k : string) (o : Obj) : Val :=
  match lookup k o with
  | Some v => v
  | None => VUndefined
  end.

Definition showZ (n : Z) : string :=
  NilEmpty.string_of_int (Z.to_int n).

(** ToString, as a template literal applies it. *)
Fixpoint toStr (v : Val) : string :=
  match v with
  | VUndefined => "undefined"
  | VNull => "null"
  | VBool true => "true"
  | VBool false => "false"
  | VNum n => showZ n
  | VStr s => s
  | VArr items =>
      (fix join (first : bool) (l : list Val) : string :=
         match l with
         | [] => ""
         | x :: rest =>
             (if first then "" else ",")
             ++ match x with
                | VUndefined | VNull => ""
                | _ => toStr x
                end
             ++ join false rest
         end) true items
  | VObj _ => "[object Object]"
  end.

(** ToBoolean. *)
Definition truthy (v : Val) : bool :=
  match v with
  | VUndefined | VNull => false
  | VBool b => b
  | VNum n => negb (n =? 0)%Z
  | VStr s => nonEmpty s
  | VArr _ | VObj _ => true
  end.

(** [v === null || v === undefined], the test behind [??]. *)
Definition nullish (v : Val) : bool :=
  match v with
  | VUndefined | VNull => true
  | _ => false
  end.

Fixpoint indexed (i : nat) (items : list Val) : Obj :=
  match items with
  | [] => []
  | v :: rest => (showNat i, v) :: indexed (S i) rest
  end.

Fixpoint indexedChars (i : nat) (s : string) : Obj :=
  match s with
  | EmptyString => []
  | String c rest => (showNat i, VStr (String c EmptyString)) :: indexedChars (S i) rest
  end.

(** Own enumerable properties copied by an object spread [{...v}]. *)
Definition ownProps (v : Val) : Obj :=
  match v with
  | VObj o => o
  | VArr items => indexed 0 items
  | VStr s => indexedChars 0 s
  | _ => []
  end.

(** [{...a, ...b}]: keys of [a] keep their position, values of [b] win. *)
Definition spread (a b : Obj) : Obj :=
  (map (fun kv => (fst kv, match lookup (fst kv) b with
                           | Some v => v
                           | None => snd kv
                           end)) a
   ++ filter (fun kv => negb (has (fst kv) a)) b)%list.

End JS.

(* ================================================================== *)
(** * Ramda: [mergeWithKey], [mergeDeepWithKey], [mergeDeepRight], [reduce] *)
(* ================================================================== *)

Module Ramda.
Import JS.

(** [_isObject]: the [[object Object]] tag, so arrays and null are not
    objects here. *)
Definition isObject (v : Val) : bool :=
  match v with
  | VObj _ => true
  | _ => false
  end.

(** [mergeWithKey(fn, l, r)]: the keys of [l] first, combined through
    [fn] where [r] has the key too, then the keys only [r] has. *)
Definition mergeWithKey (fn : string -> Val -> Val -> Val) (l r : Obj) : Obj :=
  (map (fun kv => (fst kv, match lookup (fst kv) r with
                           | Some rv => fn (fst kv) (snd kv) rv
                           | None => snd kv
                           end)) l
   ++ filter (fun kv => negb (has (fst kv) l)) r)%list.

(** The callback [mergeDeepWithKey] hands to [mergeWithKey]: recurse
    when both sides are plain objects, else ask [fn]. *)
Fixpoint mergeDeepAt (fn : string -> Val -> Val -> Val)
         (k : string) (lVal rVal : Val) {struct lVal} : Val :=
  match lVal, rVal with
  | VObj lo, VObj ro => VObj (mergeWithKey (mergeDeepAt fn) lo ro)
  | _, _ => fn k lVal rVal
  end.

Definition mergeDeepWithKey (fn : string -> Val -> Val -> Val) (l r : Obj) : Obj :=
  mergeWithKey (mergeDeepAt fn) l r.

Definition mergeDeepRight (l r : Obj) : Obj :=
  mergeDeepWithKey (fun _ _ rVal => rVal) l r.

(** [reduce(f, acc, list)]. *)
Definition reduce {A B : Type} (f : A -> B -> A) (acc : A) (xs : list B) : A :=
  fold_left f xs acc.

End Ramda.

(* ================================================================== *)
(** * react/components/ExtensionPoint/index.tsx *)
(* ================================================================== *)

Module ExtensionPoint.
Import JS Ramda.

Definition mountTreePath (currentId parentTreePath : string) : string :=
  if String.eqb parentTreePath currentId then parentTreePath
  else if nonEmpty parentTreePath && nonEmpty currentId
       then parentTreePath ++ "/" ++ currentId
       else if nonEmpty parentTreePath then parentTreePath else currentId.

(** Modelled from the spec: the typings of block descriptors and
    extensions (react/typings) are not among the sources; the fields
    are the ones the data model lists and the code reads.  An optional
    field is an [option], [None] standing for [undefined]. *)
Inductive BlockRole : Type :=
| RoleChildren | RoleAround | RoleBefore | RoleAfter | RoleSlot.

Record Block : Type := mkBlock {
  extensionPointId : string;
  blockRole : option BlockRole;
  children : option bool
}.

Record Extension : Type := mkExtension {
  component : option string;       (* [None]: null or undefined *)
  props : option Obj;
  content : option Val;
  blocks : option (list Block);
  composition : option string;
  blockId : option string
}.

(** A slot of [runtime.extensions]: no key, an explicit [null], or an
    extension. *)
Inductive Entry : Type :=
| Absent
| Null
| Present (e : Extension).

Definition Extensions : Type := string -> Entry.

(** [extensions[k] = v]. *)
Definition assign (exts : Extensions) (k : string) (v : Entry) : Extensions :=
  fun k' => if String.eqb k' k then v else exts k'.

(** [entry?.props ?? {}]. *)
Definition propsOrEmpty (e : Entry) : Obj :=
  match e with
  | Present ext => match props ext with Some o => o | None => [] end
  | _ => []
  end.

(** The filter callback of [getChildExtensions]. *)
Definition isChildBlock (block : Block) : bool :=
  let isChild :=
    match children block with None => true | Some _ => false end
    || match children block with Some true => true | _ => false end
    || match blockRole block with Some RoleChildren => true | _ => false end in
  let isNotSlot :=
    negb match blockRole block with Some RoleSlot => true | _ => false end in
  isChild && isNotSlot.

(** The [<ExtensionPoint key id blockProps treePath />] element built
    for each child. *)
Record ChildElement : Type := mkChild {
  child_key : string;
  child_id : string;
  child_blockProps : Obj;
  child_treePath : string
}.

Fixpoint mapi {A B : Type} (f : A -> nat -> B) (i : nat) (xs : list A) : list B :=
  match xs with
  | [] => []
  | x :: rest => f x i :: mapi f (S i) rest
  end.

(** [None] is the bare [return] (undefined). *)
Definition getChildExtensions (exts : Extensions) (treePath : string)
  : option (list ChildElement) :=
  match exts treePath with
  | Present extension =>
      match blocks extension with
      | Some bs =>
          let childBlocks := filter isChildBlock bs in
          Some (mapi (fun child i =>
                  let childTreePath := mountTreePath (extensionPointId child) treePath in
                  let childExtension := exts childTreePath in
                  let childProps := propsOrEmpty childExtension in
                  mkChild ("around-" ++ treePath ++ "-" ++ showNat i)
                          (extensionPointId child) childProps treePath)
                0 childBlocks)
      | None => None
      end
  | _ => None
  end.

(** The tree path an [ExtensionPoint] element resolves for itself:
    [mountTreePath(id, props.treePath || treePathFromHook.treePath)]. *)
Definition elementTreePath (hookTreePath : string) (c : ChildElement) : string :=
  mountTreePath (child_id c)
    (if nonEmpty (child_treePath c) then child_treePath c else hookTreePath).

(** The props of [ExtensionPoint] after the destructuring
    [{ children, params, query, id, blockProps, ...parentProps }]. *)
Record Props : Type := mkProps {
  id : string;
  params : Val;
  query : Val;
  blockProps : option Obj;     (* [None]: a falsy blockProps *)
  parentProps : Obj            (* the rest, treePath included *)
}.

Section WithSettings.
(** The [getSettings] collaborator of the runtime. *)
Variable getSettings : string -> Val.

(** [component?.substr(0, component.indexOf('@'))]. *)
Definition appNameOf (comp : option string) : option string :=
  match comp with
  | Some c => Some (substr c 0 (indexOf c "@"))
  | None => None
  end.

(** [appName ? getSettings(appName) : {}]. *)
Definition appSettingsOf (comp : option string) : Val :=
  match appNameOf comp with
  | Some appName => if nonEmpty appName then getSettings appName else VObj []
  | None => VObj []
  end.

(** The array handed to [reduce(mergeDeepRight, {}, ...)]. *)
Definition propLayers (appSettings : Val) (parentProps extensionProps : Obj)
           (blockProps : option Obj) (content : Val) (params query : Val)
  : list Obj :=
  [ if truthy appSettings then [("appSettings", appSettings)] else [];
    parentProps;
    extensionProps;
    match blockProps with Some o => o | None => [] end;
    ownProps content;
    [("params", params); ("query", query)] ].

Definition mergeLayers (layers : list Obj) : Obj :=
  reduce mergeDeepRight [] layers.

Definition mergedProps (comp : option string) (parentProps extensionProps : Obj)
           (blockProps : option Obj) (content : Val) (params query : Val) : Obj :=
  mergeLayers (propLayers (appSettingsOf comp) parentProps extensionProps
                          blockProps content params query).

(** [props.treePath || treePathFromHook.treePath]. *)
Definition parentTreePathOf (hookTreePath : string) (p : Props) : string :=
  match get "treePath" (parentProps p) with
  | VStr s => if nonEmpty s then s else hookTreePath
  | _ => hookTreePath
  end.

(** What [ExtensionPoint] hands to its [ComponentLoader]: the tree
    path, the component and the merged props; [None] when the
    extension is not found and nothing is rendered. *)
Definition extensionPoint (exts : Extensions) (hookTreePath : string) (p : Props)
  : option (string * option string * Obj) :=
  let newTreePath := mountTreePath (id p) (parentTreePathOf hookTreePath p) in
  match exts newTreePath with
  | Present extension =>
      let extensionProps := match props extension with Some o => o | None => [] end in
      let content' := match content extension with Some v => v | None => VObj [] end in
      Some (newTreePath, component extension,
            mergedProps (component extension) (parentProps p) extensionProps
                        (blockProps p) content' (params p) (query p))
  | _ => None
  end.
End WithSettings.

End ExtensionPoint.

(* ================================================================== *)
(** * react/utils/slots.tsx *)
(* ================================================================== *)

Module Slots.
Import JS ExtensionPoint.

(** [newTreePath] of [generateSlot]. *)
Definition slotTreePath (treePath slotValue : string) : string :=
  let hasSlotMarker := (indexOf treePath "slot" >? -1)%Z in
  let treePathWithoutSlotMarker :=
    if hasSlotMarker
    then substring treePath 0 (indexOf treePath "-slot")
    else treePath in
  treePathWithoutSlotMarker ++ "/" ++ slotValue.

(** [dynamicTreePath] of [SlotComponent], for a truthy [props.id]. *)
Definition dynamicTreePath (newTreePath slotValue : string) (idProp : Val) : string :=
  let hasLabel := includes slotValue "#" in
  newTreePath ++ (if hasLabel then "-" else "#") ++ "slot" ++ toStr idProp.

Definition componentOf (e : Entry) : option string :=
  match e with
  | Present ext => component ext
  | _ => None
  end.

Definition blockIdOf (e : Entry) : option string :=
  match e with
  | Present ext => blockId ext
  | _ => None
  end.

(** [entry?.content]. *)
Definition contentOf (e : Entry) : Val :=
  match e with
  | Present ext => match content ext with Some v => v | None => VUndefined end
  | _ => VUndefined
  end.

(** What a render of [SlotComponent] returns. *)
Inductive SlotRender : Type :=
| RenderDynamicSlot (treePath : string) (comp : option string) (props : Obj)
                    (blockId : option string) (baseTreePath : string)
                    (slotChildren : option (list ChildElement))
| RenderLoader (comp : option string) (props : Obj) (treePath : string)
               (slotChildren : option (list ChildElement)).

Definition loaderFor (extension : Entry) (props : Obj) (newTreePath : string)
           (slotChildren : option (list ChildElement)) : SlotRender :=
  let componentProps := propsOrEmpty extension in
  let extensionContent := contentOf extension in
  RenderLoader (componentOf extension)
               (spread (spread props componentProps) (ownProps extensionContent))
               newTreePath slotChildren.

Definition SlotComponent (treePath slotValue : string)
           (exts : Extensions) (props : Obj) : SlotRender :=
  let newTreePath := slotTreePath treePath slotValue in
  let extension := exts newTreePath in
  let slotChildren := getChildExtensions exts newTreePath in
  if truthy (get "id" props) then
    let dyn := dynamicTreePath newTreePath slotValue (get "id" props) in
    match exts dyn with
    | Present e' => loaderFor (Present e') props newTreePath slotChildren
    | _ =>
        let componentProps := propsOrEmpty extension in
        RenderDynamicSlot dyn (componentOf extension) (spread props componentProps)
                          (blockIdOf extension) newTreePath slotChildren
    end
  else loaderFor extension props newTreePath slotChildren.

(** One entry of [listContent]. *)
Record ContentEntry : Type := mkContent { contentJSON : string }.

(** The state of the [useQuery] call at the render. *)
Record QueryState : Type := mkQuery {
  data : option (list ContentEntry);   (* [data?.listContent] *)
  loading : bool;
  error : bool
}.

(** A render of [DynamicSlot]: it throws (a [JSON.parse] syntax error),
    or returns with the registry as it leaves it and the props of the
    [ComponentLoader] it renders, [None] for the [null] returns. *)
Inductive DynamicRender : Type :=
| Thrown
| Returned (exts : Extensions) (loaderProps : option Obj).

Section WithParser.
(** [JSON.parse]; [None] when it throws. *)
Variable JSON_parse : string -> option Val.

(** [listContent[i]?.contentJSON && JSON.parse(listContent[i]?.contentJSON)];
    the outer [option] is the throw. *)
Definition candidate (q : QueryState) (i : nat) : option Val :=
  match data q with
  | None => Some VUndefined
  | Some listContent =>
      match nth_error listContent i with
      | None => Some VUndefined
      | Some entry =>
          if nonEmpty (contentJSON entry)
          then JSON_parse (contentJSON entry)
          else Some (VStr (contentJSON entry))
      end
  end.

(** [candidate 1 ?? candidate 0]. *)
Definition extensionContentOf (q : QueryState) : option Val :=
  match candidate q 1 with
  | None => None
  | Some c1 => if nullish c1 then candidate q 0 else Some c1
  end.

Definition DynamicSlot (treePath baseTreePath : string) (exts : Extensions)
           (props : Obj) (q : QueryState) : DynamicRender :=
  match extensionContentOf q with
  | None => Thrown
  | Some extensionContent =>
      let componentLoaderPropsWithContent :=
        if truthy extensionContent
        then spread props (ownProps extensionContent)
        else props in
      if loading q then Returned exts None
      else if error q then Returned exts None
      else
        let exts' :=
          if negb (truthy extensionContent)
          then assign exts treePath (exts baseTreePath)
          else assign exts treePath
                 match exts baseTreePath with
                 | Present base =>
                     Present (mkExtension (component base) (ExtensionPoint.props base)
                                          (Some extensionContent) (blocks base)
                                          (composition base) (blockId base))
                 | _ => Null
                 end in
        Returned exts' (Some componentLoaderPropsWithContent)
  end.
End WithParser.

End Slots.

(* ================================================================== *)
(** * react/components/Hydration/PreventHydration.tsx *)
(* ================================================================== *)

Module PreventHydration.
Import JS.

(** How the promise of [verifyComponentImplementation] settles. *)
Inductive Settled : Type :=
| Resolved (value : bool)
| Rejected (message : string).

Section Verify.
(** Everything the check reads lives outside the function and may
    change while it sleeps: the registry entry of the tree path and
    the implementations the asset loader has registered. *)
Variable World : Type.
(** [runtime?.extensions?.[treePath]?.component]. *)
Variable componentAt : World -> Val.
(** Whether [getImplementation(component)] is truthy. *)
Variable getImplementation : World -> Val -> bool.
(** The world once a [setTimeout] of that many milliseconds fired. *)
Variable elapse : Z -> World -> World.

(** The timeouts awaited, in order, and how the promise settles. *)
Fixpoint verifyComponentImplementation (retries : nat) (w : World)
  : list Z * Settled :=
  let component := componentAt w in
  let componentImplementation :=
    truthy component && getImplementation w component in
  if componentImplementation then ([], Resolved true)
  else
    match retries with
    | S retries' =>
        let timeout := (1100 - Z.of_nat retries * 100)%Z in
        let '(waits, result) :=
          verifyComponentImplementation retries' (elapse timeout w) in
        (timeout :: waits, result)
    | O => ([], Rejected ("Unable to fetch component " ++ toStr component))
    end.

(** The implementation check at the head of the function. *)
Definition ready (w : World) : bool :=
  truthy (componentAt w) && getImplementation w (componentAt w).

(** The timeouts a call with that many retries left awaits when the
    implementation never shows up. *)
Fixpoint scheduleFrom (retries : nat) : list Z :=
  match retries with
  | O => []
  | S retries' => (1100 - Z.of_nat retries * 100)%Z :: scheduleFrom retries'
  end.

(** The world at the [k]-th check after the first. *)
Definition checkpoint (retries k : nat) (w : World) : World :=
  fold_left (fun w' timeout => elapse timeout w') (firstn k (scheduleFrom retries)) w.

(** The default of the [retries] parameter; [loadAssets] passes none. *)
Definition defaultRetries : nat := 10.

Definition verifyDefault (w : World) : list Z * Settled :=
  verifyComponentImplementation defaultRetries w.
End Verify.

(** What [PreventHydration] returns. *)
Inductive View : Type :=
| EmptyContainer   (* the bare container, nothing inside *)
| Live             (* the container with the children *)
| Frozen.          (* the container with the empty innerHTML *)

(** [shouldHydrate?: boolean]: [None] is undefined. *)
Definition Flag : Type := option bool.

Definition flagTruthy (f : Flag) : bool :=
  match f with
  | Some true => true
  | _ => false
  end.

(** [a === b] on flags. *)
Definition flagEq (a b : Flag) : bool :=
  match a, b with
  | None, None => true
  | Some x, Some y => Bool.eqb x y
  | _, _ => false
  end.

Section Gate.
(** [useDehydratedContent(treePath).hasRenderedOnServer]; the hook is
    not among the sources and is taken as given for the subtree. *)
Variable hasRenderedOnServer : bool.
(** [canUseDOM] of exenv. *)
Variable canUseDOM : bool.
Variable treePath : string.

(** The hooks of one mounted instance: the ref captured at the first
    render, the [isLoaded] state of [useAssetLoading], whether a
    [loadAssets] promise is outstanding, and the current prop. *)
Record Gate : Type := mkGate {
  initialShouldHydrate : Flag;
  isLoaded : bool;
  loadPending : bool;
  shouldHydrate : Flag
}.

Definition shouldRenderImmediately (g : Gate) : bool :=
  negb hasRenderedOnServer
  || (flagTruthy (shouldHydrate g)
      && flagEq (shouldHydrate g) (initialShouldHydrate g)).

(** The return value of the component body. *)
Definition render (g : Gate) : View :=
  if negb (isLoaded g) && negb hasRenderedOnServer then EmptyContainer
  else if shouldRenderImmediately g then Live
  else if flagTruthy (shouldHydrate g) && isLoaded g then Live
  else Frozen.

(** The effect of [useAssetLoading], run after a render: start
    loading when not loaded yet and loading is wanted. *)
Definition afterRender (g : Gate) : Gate :=
  let shouldLoad := shouldRenderImmediately g || flagTruthy (shouldHydrate g) in
  if negb (isLoaded g) && nonEmpty treePath && shouldLoad
  then mkGate (initialShouldHydrate g) (isLoaded g) (canUseDOM || loadPending g)
              (shouldHydrate g)
  else g.

(** First render: [useRef(shouldHydrate)] and [useState(isSSR)]. *)
Definition mount (sh : Flag) : Gate :=
  afterRender (mkGate sh (negb canUseDOM) false sh).

Inductive Event : Type :=
| NewProps (sh : Flag)    (* the parent re-renders with this prop *)
| AssetsLoaded.           (* an outstanding [loadAssets] promise resolves *)

Definition step (g : Gate) (e : Event) : Gate :=
  match e with
  | NewProps sh =>
      afterRender (mkGate (initialShouldHydrate g) (isLoaded g) (loadPending g) sh)
  | AssetsLoaded =>
      if loadPending g
      then afterRender (mkGate (initialShouldHydrate g) true false (shouldHydrate g))
      else g
  end.

Definition run (g : Gate) (events : list Event) : Gate :=
  fold_left step events g.

(** The views shown after each event. *)
Fixpoint views (g : Gate) (events : list Event) : list View :=
  match events with
  | [] => []
  | e :: rest => render (step g e) :: views (step g e) rest
  end.
End Gate.

(** [shouldMakeImagesEager]: whether this render pins the images that
    were already lazy-loaded to eager loading. *)
Definition shouldMakeImagesEager (hasRenderedOnServer : bool) (g : Gate) : bool :=
  flagTruthy (shouldHydrate g)
  && negb (shouldRenderImmediately hasRenderedOnServer g)
  && isLoaded g.

Section Loading.
Variable World : Type.
Variable componentAt : World -> Val.
Variable getImplementation : World -> Val -> bool.
Variable elapse : Z -> World -> World.
Variable canUseDOM : bool.
(** [fetchAssets(runtime, extensionAssets)]: the world at the moment
    its promise fulfils, [None] when it rejects or never settles. *)
Variable fetchAssets : World -> option World.

(** How the promise [loadAssets] returns ends; [None] is a promise that
    never settles.  The promise is made with a [resolve] only, called
    from the [then] of the verification inside the [then] of
    [fetchAssets]. *)
Definition loadAssets (w : World) : option Settled :=
  if canUseDOM then
    match fetchAssets w with
    | Some w' =>
        match snd (verifyDefault World componentAt getImplementation elapse w') with
        | Resolved value => Some (Resolved value)
        | Rejected _ => None
        end
    | None => None
    end
  else None.
End Loading.

End PreventHydration.

(* ================================================================== *)
(** * react/utils/uncritical.ts *)
(* ================================================================== *)

Module Uncritical.
Import JS.

Definition UNCRITICAL_ID : string := "uncritical_style".

(** Lines written with [console.log]. *)
Inductive LogLine : Type :=
| LogHydrating (id : string)
| LogLateHydration (id : option string)
| LogApplying (ids : list (option string))
| LogFinished (hydrated : nat).

(** The part of the document the module touches: the [rel] of each
    link appended to the head, and whether [style#critical] is there. *)
Record Dom : Type := mkDom {
  links : list (string * string);
  critical : bool
}.

(** The module-level variables, the document and the console. *)
Record State : Type := mkState {
  loadedStyles : list (option string);   (* a Set, in insertion order *)
  totalStylesCount : nat;
  stylesHydrated : bool;
  dom : Dom;
  console : list LogLine
}.

Definition initial (d : Dom) : State := mkState [] 0 false d [].

Definition optEqb (a b : option string) : bool :=
  match a, b with
  | None, None => true
  | Some x, Some y => String.eqb x y
  | _, _ => false
  end.

(** [loadedStyles.has(id)]. *)
Definition setHas (id : option string) (s : list (option string)) : bool :=
  existsb (optEqb id) s.

Definition hasLink (id : string) (d : Dom) : bool :=
  existsb (fun l => String.eqb (fst l) id) (links d).

(** [document.getElementById(id).setAttribute('rel', rel)]: the first
    element with that id. *)
Fixpoint setRelIn (id rel : string) (ls : list (string * string))
  : list (string * string) :=
  match ls with
  | [] => []
  | l :: rest =>
      if String.eqb (fst l) id then (fst l, rel) :: rest
      else l :: setRelIn id rel rest
  end.

(** [document.getElementById(id)?.getAttribute('rel')]. *)
Fixpoint relOf (id : string) (ls : list (string * string)) : option string :=
  match ls with
  | [] => None
  | l :: rest => if String.eqb (fst l) id then Some (snd l) else relOf id rest
  end.

Definition setRel (id rel : string) (d : Dom) : Dom :=
  mkDom (setRelIn id rel (links d)) (critical d).

Definition log (line : LogLine) (s : State) : State :=
  mkState (loadedStyles s) (totalStylesCount s) (stylesHydrated s) (dom s)
          (console s ++ [line]).

Definition hydrateStyle (id : option string) (s : State) : State :=
  match id with
  | Some i =>
      if nonEmpty i && hasLink i (dom s)
      then let s' := log (LogHydrating i) s in
           mkState (loadedStyles s') (totalStylesCount s') (stylesHydrated s')
                   (setRel i "stylesheet" (dom s')) (console s')
      else s
  | None => s
  end.

Definition clearCritical (s : State) : State :=
  mkState (loadedStyles s) (totalStylesCount s) (stylesHydrated s)
          (mkDom (links (dom s)) false) (console s).

Definition applyUncritical (s : State) : State :=
  let s1 := fold_left (fun acc id => hydrateStyle id acc) (loadedStyles s) s in
  let s2 := clearCritical s1 in
  let s3 := mkState (loadedStyles s2) (totalStylesCount s2) true (dom s2) (console s2) in
  log (LogFinished (totalStylesCount s3)) s3.

Inductive Status : Type := Loaded | Errored.

Section WithQuery.
(** [window.__RUNTIME__.query?.__debugCriticalCSS]. *)
Variable debugCriticalCSS : option string.
(** [matchMedia(media).matches]. *)
Variable matchMedia : string -> bool.

Definition isManual : bool :=
  match debugCriticalCSS with
  | Some m => String.eqb m "manual"
  | None => false
  end.

(** The listener [registerLoadedStyle(styleId, status)]. *)
Definition registerLoadedStyle (styleId : string) (status : Status) (s : State)
  : State :=
  let id := match status with Loaded => Some styleId | Errored => None end in
  if setHas id (loadedStyles s) then s
  else
    let s1 := mkState (loadedStyles s ++ [id]) (totalStylesCount s)
                      (stylesHydrated s) (dom s) (console s) in
    if stylesHydrated s1 then hydrateStyle id (log (LogLateHydration id) s1)
    else if Nat.eqb (List.length (loadedStyles s1)) (totalStylesCount s1) && negb isManual
         then applyUncritical (log (LogApplying (loadedStyles s1)) s1)
         else s1.

Record StyleRef : Type := mkRef {
  path : string;
  media : option string
}.

Definition linkId (index : nat) : string :=
  UNCRITICAL_ID ++ "_" ++ showNat index.

(** Whether the link of a ref is appended to the head. *)
Definition shouldAppend (ref : StyleRef) : bool :=
  match media ref with
  | Some m => negb (nonEmpty m) || matchMedia m
  | None => true
  end.

(** A ref whose link is appended to the head, and so counted. *)
Definition registered (ref : option StyleRef) : bool :=
  match ref with
  | Some r => shouldAppend r
  | None => false
  end.

Definition createUncriticalLink (ref : option StyleRef) (index : nat) (s : State)
  : State :=
  match ref with
  | None => s
  | Some r =>
      if shouldAppend r
      then mkState (loadedStyles s) (totalStylesCount s + 1) (stylesHydrated s)
                   (mkDom (links (dom s) ++ [(linkId index, "preload")])
                          (critical (dom s)))
                   (console s)
      else s
  end.

(** [uncriticalStyles.forEach(createUncriticalLink)]. *)
Fixpoint createLinks (refs : list (option StyleRef)) (index : nat) (s : State)
  : State :=
  match refs with
  | [] => s
  | r :: rest => createLinks rest (S index) (createUncriticalLink r index s)
  end.

(** A [load] or [error] event on the link with that id. *)
Inductive Event : Type :=
| OnLoad (id : string)
| OnError (id : string).

Definition handle (s : State) (e : Event) : State :=
  match e with
  | OnLoad i => registerLoadedStyle i Loaded s
  | OnError i => registerLoadedStyle i Errored s
  end.

Definition run (s : State) (events : list Event) : State :=
  fold_left handle events s.

(** The id an event records. *)
Definition resolved (e : Event) : option string :=
  match e with
  | OnLoad i => Some i
  | OnError _ => None
  end.
End WithQuery.

Definition id_dec (a b : option string) : {a = b} + {a <> b}.
Proof. decide equality. apply string_dec. Defined.

(** How many different ids a list of recorded resolutions holds. *)
Definition distinct (ids : list (option string)) : nat :=
  List.length (nodup id_dec ids).

(** How many times [applyUncritical] ran to its end. *)
Definition activations (s : State) : nat :=
  List.length (filter (fun l => match l with LogFinished _ => true | _ => false end)
                 (console s)).

(** What a helper leaves alone: the recorded ids, the counter, the
    hydrated flag, the critical block and the number of activations. *)
Definition sameCore (s s' : State) : Prop :=
  loadedStyles s' = loadedStyles s
  /\ totalStylesCount s' = totalStylesCount s
  /\ stylesHydrated s' = stylesHydrated s
  /\ critical (dom s') = critical (dom s)
  /\ activations s' = activations s.

(** The state between events, for [N] registered styles: the recorded
    ids are a set, the flag is up exactly when [N] or more of them are
    recorded (and [N] is not zero), activation ran once if the flag is
    up and never otherwise, and it took the critical block away. *)
Definition settled (N : nat) (s : State) : Prop :=
  totalStylesCount s = N
  /\ NoDup (loadedStyles s)
  /\ stylesHydrated s = (Nat.leb 1 N && Nat.leb N (List.length (loadedStyles s)))
  /\ activations s = (if stylesHydrated s then 1 else 0)
  /\ (stylesHydrated s = true -> critical (dom s) = false).

(** ** The manual controls and the registration entry point *)

(** What one call of the function made by [createStepUncritical] says
    on the console.  The lines are returned instead of being appended
    to [console], whose type lists the lines of the automatic path. *)
Inductive StepReport : Type :=
| StepFinished              (* 'Uncritical has finished being applied.' *)
| StepCleaning              (* 'All uncritical styles applied. Cleaning critical styles.' *)
| StepApplying (id : string).

(** One call of the closure: [it] is its captured counter. *)
Definition stepUncritical (it : nat) (s : State) : nat * State * StepReport :=
  if Nat.eqb it (totalStylesCount s) then (it, s, StepFinished)
  else
    match nth_error (loadedStyles s) it with
    | Some (Some uncritical) =>
        if nonEmpty uncritical
        then (S it, hydrateStyle (Some uncritical) s, StepApplying uncritical)
        else (it, clearCritical s, StepCleaning)
    | _ => (it, clearCritical s, StepCleaning)
    end.

(** [n] calls in a row. *)
Fixpoint stepsUncritical (n it : nat) (s : State) : nat * State :=
  match n with
  | O => (it, s)
  | S n' =>
      let '(it', s', _) := stepUncritical it s in
      stepsUncritical n' it' s'
  end.

(** [window.__RUNTIME__.uncriticalStyleRefs]: [{ base = [], overrides = [] }]. *)
Record StyleRefs : Type := mkRefs {
  base : option (list (option StyleRef));
  overrides : option (list (option StyleRef))
}.

Definition orEmpty {A : Type} (l : option (list A)) : list A :=
  match l with
  | Some xs => xs
  | None => []
  end.

(** The body of the promise of [resolveUncriticalPromise], as far as it
    touches the module state and the document. *)
Definition resolveUncriticalPromise (matchMedia : string -> bool)
           (uncriticalStyleRefs : option StyleRefs) (s : State) : State :=
  match uncriticalStyleRefs with
  | None => s
  | Some refs =>
      if critical (dom s)
      then createLinks matchMedia (orEmpty (base refs) ++ orEmpty (overrides refs)) 0 s
      else s
  end.

(** The ids of the links [createLinks] appends, in order. *)
Fixpoint appendedIds (matchMedia : string -> bool)
         (refs : list (option StyleRef)) (index : nat) : list string :=
  match refs with
  | [] => []
  | r :: rest =>
      if registered matchMedia r
      then linkId index :: appendedIds matchMedia rest (S index)
      else appendedIds matchMedia rest (S index)
  end.

(** Whether a recorded id is the id of a loaded style. *)
Definition isSome (x : option string) : bool :=
  match x with
  | Some _ => true
  | None => false
  end.

(** Whether an event is a [load]. *)
Definition isLoad (e : Event) : bool :=
  match e with
  | OnLoad _ => true
  | OnError _ => false
  end.

End Uncritical.

(* ================================================================== *)
(** * Concrete runtimes used in the scenarios below *)
(* ================================================================== *)

Module Scenario.
Import JS ExtensionPoint.

(** [{ "a": {component:"X", blocks:[{extensionPointId:"b"}]},
       "a/b": {component:"Y"} }]. *)
Definition registryAB : Extensions :=
  fun k =>
    if String.eqb k "a"
    then Present (mkExtension (Some "X") None None
                              (Some [mkBlock "b" None None]) None None)
    else if String.eqb k "a/b"
         then Present (mkExtension (Some "Y") None None None None None)
         else Absent.

(** Joining two paths with a slash, the empty path being neutral:
    [mountTreePath] without its self-reference guard. *)
Definition joinPath (parent child : string) : string :=
  if nonEmpty parent
  then if nonEmpty child then parent ++ "/" ++ child else parent
  else child.

(** A product shelf declared by the app vtex.store: the settings of
    the app, the props given at the call site, the props declared in
    the blocks file and the content authored for the block. *)
Definition storeSettings (appName : string) : Val :=
  if String.eqb appName "vtex.store"
  then VObj [("enableLazyFooter", VBool true)]
  else VUndefined.

Definition shelfParentProps : Obj :=
  [("treePath", VStr "store.home");
   ("title", VStr "from the call site");
   ("layout", VObj [("cols", VNum 2); ("gap", VNum 1)])].

Definition shelfDeclaredProps : Obj :=
  [("title", VStr "from the blocks file");
   ("layout", VObj [("cols", VNum 3)]);
   ("items", VArr [VNum 1; VNum 2; VNum 3])].

Definition shelfContent : Val :=
  VObj [("title", VStr "from the editor"); ("items", VArr [VNum 9])].

(** The same shelf with every source contending: each of them binds
    a key that the source of the next rank binds too. *)
Definition rivalParentProps : Obj :=
  [("treePath", VStr "store.home");
   ("appSettings", VObj [("enableLazyFooter", VBool false)]);
   ("layout", VObj [("cols", VNum 2); ("gap", VNum 1)]);
   ("size", VStr "from the call site");
   ("title", VStr "from the call site");
   ("params", VStr "from the call site")].

Definition rivalDeclaredProps : Obj :=
  [("layout", VObj [("cols", VNum 3)]);
   ("size", VNum 3);
   ("title", VStr "from the blocks file");
   ("params", VObj [("slug", VStr "declared")])].

Definition rivalBlockProps : Obj :=
  [("size", VArr [VNum 4]);
   ("title", VStr "from the parent block");
   ("params", VNull)].

Definition rivalContent : Obj :=
  [("title", VStr "from the editor");
   ("params", VStr "from the editor");
   ("query", VObj [("page", VNum 2)])].

(** The two texts a content fetch returns in the scenarios, and
    [JSON.parse] on them (and on the texts "null" and "{}"). *)
Definition quote : string := String (ascii_of_nat 34) "".

Definition titleJSON (title : string) : string :=
  "{" ++ quote ++ "title" ++ quote ++ ":" ++ quote ++ title ++ quote ++ "}".

Definition parseContent (text : string) : option Val :=
  if String.eqb text (titleJSON "override") then Some (VObj [("title", VStr "override")])
  else if String.eqb text (titleJSON "default") then Some (VObj [("title", VStr "default")])
  else if String.eqb text "{}" then Some (VObj [])
  else if String.eqb text "null" then Some VNull
  else None.

(** A registry holding the base entry of a banner slot. *)
Definition bannerBase : Extension :=
  mkExtension (Some "vtex.store@2.x/Banner") (Some [("height", VNum 200)])
              (Some (VObj [("title", VStr "base")])) None None (Some "banner-1").

Definition registryBanner : Extensions :=
  fun k => if String.eqb k "store.home/banner" then Present bannerBase else Absent.

End Scenario.

(* ================================================================== *)
(** * react/components/ExtensionPoint/index.tsx: [withOuterExtensions] *)
(* ================================================================== *)

Module OuterExtensions.
Import JS ExtensionPoint.

(** The elements [withOuterExtensions] builds.  [GivenEl] stands for an
    element built elsewhere and handed in (the [ComponentLoader] of the
    extension point). *)
Inductive Element : Type :=
| ExtensionPointEl (key id treePath : string) (rest : Obj)
                   (beforeElements afterElements : option (list Element))
                   (child : option Element)
| FragmentEl (key : string) (items : list Element)
| LazyImagesEl (items : list Element)
| LazyRenderEl (item : Element)
| SpacerEl                    (* [<div className="flex flex-grow-1" />] *)
| GivenEl (label : string).

(** The props left of a spread once the attributes written after it
    (and the names React keeps out of the props) are taken out. *)
Definition omit (keys : list string) (o : Obj) : Obj :=
  filter (fun kv => negb (existsb (String.eqb (fst kv)) keys)) o.

(** [<ExtensionPoint id key treePath params={props.params} query={props.query} />]. *)
Definition outerPoint (treePath : string) (props : Obj) (pointId : string) : Element :=
  ExtensionPointEl pointId pointId treePath
                   [("params", get "params" props); ("query", get "query" props)]
                   None None None.

Definition withOuterExtensions (after around before : list string) (treePath : string)
           (props : Obj) (element : Element) (lazyFooter : bool) : Element :=
  if Nat.eqb (List.length before) 0 && Nat.eqb (List.length after) 0
     && Nat.eqb (List.length around) 0
  then element
  else
    let beforeElements := map (outerPoint treePath props) before in
    let afterElements := map (outerPoint treePath props) after in
    let isRootTreePath := (indexOf treePath "/" =? -1)%Z in
    let wrappedFooter := LazyImagesEl afterElements in
    let wrapped :=
      FragmentEl ("wrapped-" ++ treePath)
                 ([LazyImagesEl beforeElements; element]
                  ++ (if isRootTreePath then [SpacerEl] else [])
                  ++ [if lazyFooter then LazyRenderEl wrappedFooter else wrappedFooter]) in
    fold_left
      (fun acc aroundId =>
         ExtensionPointEl aroundId aroundId treePath
                          (omit ["id"; "key"; "ref"; "__self"; "__source"; "treePath";
                                 "beforeElements"; "afterElements"; "children"] props)
                          (Some beforeElements) (Some afterElements) (Some acc))
      around wrapped.

(** The ids of the extension points wrapped around an element, from the
    outside in, and the element they wrap. *)
Fixpoint wrappers (e : Element) : list string :=
  match e with
  | ExtensionPointEl _ id _ _ _ _ (Some child) => id :: wrappers child
  | _ => []
  end.

Fixpoint wrapped (e : Element) : Element :=
  match e with
  | ExtensionPointEl _ _ _ _ _ _ (Some child) => wrapped child
  | _ => e
  end.

End OuterExtensions.

(* ================================================================== *)
(** * The error page: [handleImageClick] *)
(* ================================================================== *)

Module ErrorPage.

(** One click on the image: the [splunk] counter after it, and whether
    the click opened the Splunk search of the request. *)
Definition handleImageClick (splunk : nat) : nat * bool :=
  if Nat.ltb splunk 2 then (splunk + 1, false) else (0, true).

(** [n] clicks in a row: the counter at the end and how many of the
    clicks opened the search. *)
Fixpoint clicks (n : nat) (splunk : nat) : nat * nat :=
  match n with
  | O => (splunk, 0)
  | S n' =>
      let '(splunk', opened) := handleImageClick splunk in
      let '(final, count) := clicks n' splunk' in
      (final, (if opened then 1 else 0) + count)
  end.

End ErrorPage.

(* ================================================================== *)
(** * The layout container: [Container] and [LayoutContainer] *)
(* ================================================================== *)

Module LayoutContainer.
Import JS ExtensionPoint.

(** [type Element = string | ElementArray]. *)
Inductive Element : Type :=
| EStr (s : string)
| EArr (items : list Element).

(** [element.toString()], the key of each rendered item. *)
Fixpoint elementToString (e : Element) : string :=
  match e with
  | EStr s => s
  | EArr items =>
      (fix join (first : bool) (l : list Element) : string :=
         match l with
         | [] => ""
         | x :: rest =>
             (if first then "" else ",") ++ elementToString x ++ join false rest
         end) true items
  end.

(** What [Container] renders.  The items of a box carry their key. *)
Inductive Node : Type :=
| ChildrenNode                                   (* [<>{children}</>] *)
| PointNode (className id : string) (props : Obj)
                                                 (* a div around [<ExtensionPoint id {...props} />] *)
| BoxNode (className : string) (items : list (string * Node))
| LazyImagesNode (item : Node)
| LazyRenderNode (item : Node).

(** [elements.indexOf(needle)] for a string needle: nested arrays are
    never strictly equal to it. *)
Fixpoint indexOfFrom (needle : string) (i : nat) (items : list Element) : Z :=
  match items with
  | [] => (-1)%Z
  | EStr s :: rest =>
      if String.eqb s needle then Z.of_nat i else indexOfFrom needle (S i) rest
  | EArr _ :: rest => indexOfFrom needle (S i) rest
  end.

Definition indexOfElement (needle : string) (items : list Element) : Z :=
  indexOfFrom needle 0 items.

(** The end of [elements.slice(0, n)] inside an array of that length. *)
Definition sliceEnd (len : nat) (n : Z) : nat :=
  if (n <? 0)%Z then Z.to_nat (Z.max 0 (Z.of_nat len + n))
  else Z.to_nat (Z.min n (Z.of_nat len)).

Fixpoint Container (aboveTheFold : option Z) (elements : Element)
         (isRow isMobile preview : bool) (props : Obj) {struct elements} : Node :=
  let className :=
    "flex flex-grow-1 w-100 " ++ (if isRow then "flex-row" else "flex-column") in
  match elements with
  | EStr s =>
      if String.eqb s "__children__" then ChildrenNode
      else PointNode (if isRow then "" else className) s props
  | EArr items =>
      let foldIndex :=
        if (indexOfElement "__fold__" items =? -1)%Z
        then indexOfElement ("__fold__." ++ (if isMobile then "mobile" else "desktop")) items
        else indexOfElement "__fold__" items in
      let hasFold := (foldIndex >? -1)%Z in
      let lazyImagesFoldPosition :=
        indexOfElement "__fold__.experimentalLazyImages" items in
      let hasLazyImagesFold := (lazyImagesFoldPosition >? -1)%Z in
      let elementsToRender :=
        if preview
        then match aboveTheFold with
             | Some n => sliceEnd (List.length items) n
             | None => List.length items
             end
        else List.length items in
      BoxNode className
        ((fix each (i : nat) (l : list Element) : list (string * Node) :=
            match l with
            | [] => []
            | element :: rest =>
                if Nat.ltb i elementsToRender
                then
                  let container :=
                    Container None element (negb isRow) isMobile false props in
                  let container :=
                    if hasLazyImagesFold && (Z.of_nat i >? lazyImagesFoldPosition)%Z
                    then LazyImagesNode container else container in
                  let container :=
                    if hasFold && (Z.of_nat i >? foldIndex)%Z
                    then LazyRenderNode container else container in
                  (elementToString element, container) :: each (S i) rest
                else []
            end) 0 items)
  end.



(** The [id] given to each extension point of a rendered container, in
    order (the rest props are spread after it). *)
Fixpoint pointIds (n : Node) : list string :=
  match n with
  | ChildrenNode => []
  | PointNode _ id _ => [id]
  | BoxNode _ items =>
      (fix all (l : list (string * Node)) : list string :=
         match l with
         | [] => []
         | (_, item) :: rest => pointIds item ++ all rest
         end)%list items
  | LazyImagesNode item => pointIds item
  | LazyRenderNode item => pointIds item
  end.

(** The strings of an element, in order, the children marker left out. *)
Fixpoint leaves (e : Element) : list string :=
  match e with
  | EStr s => if String.eqb s "__children__" then [] else [s]
  | EArr items =>
      (fix all (l : list Element) : list string :=
         match l with
         | [] => []
         | x :: rest => leaves x ++ all rest
         end)%list items
  end.

End LayoutContainer.

(* ================================================================== *)
(** * The prefetch hook: [getCacheValidData], [attemptPrefetch] *)
(* ================================================================== *)

Module Prefetch.
Import JS.

(** An entry of [pathsState]: [{ fetching?, page? }]. *)
Record PathState : Type := mkPath {
  fetching : option bool;
  page : option string
}.

(** The caches the hook consults: [getCacheForPage(page).has(path)] and
    [routesCache.has(page)]. *)
Record Caches : Type := mkCaches {
  pageCacheHas : string -> string -> bool;
  routesCacheHas : string -> bool
}.

Record ValidCache : Type := mkValid {
  pathValid : bool;
  routeValid : bool
}.

Definition getCacheValidData (path : string)
           (pathsState : string -> option PathState) (caches : Caches) : ValidCache :=
  match pathsState path with
  | Some state =>
      match page state with
      | Some p =>
          if nonEmpty p
          then mkValid (pageCacheHas caches p path) (routesCacheHas caches p)
          else mkValid false false
      | None => mkValid false false
      end
  | None => mkValid false false
  end.

Definition getPriorityForPage (page : option string) : nat :=
  match page with
  | Some p => if String.eqb p "store.product" then 1 else 0
  | None => 0
  end.

(** What is handed to [queue.add]: the request [prefetchRequests] will
    make and its priority. *)
Record Task : Type := mkTask {
  task_path : string;
  task_page : option string;
  task_validCache : ValidCache;
  task_priority : nat
}.

(** The prefetch state shared by all links. *)
Record Shared : Type := mkShared {
  pathsState : string -> option PathState;
  queue : list Task
}.

(** The refs of one hook instance. *)
Record Hook : Type := mkHook {
  hasTried : bool;
  canPrefetch : bool
}.

(** What one call of [attemptPrefetch] sees: whether prefetch is active
    in the store settings, the href and page of the link, the path
    [getNavigationRouteToNavigate] gives, and the caches. *)
Record Attempt : Type := mkAttempt {
  active : bool;
  href : string;
  linkPage : option string;
  navigationPath : string;
  caches : Caches
}.

(** [href && href[0] !== '/']. *)
Definition notRelative (href : string) : bool :=
  match href with
  | EmptyString => false
  | String c _ => negb (Ascii.eqb c "/")
  end.

Definition setPath (pathsState : string -> option PathState)
           (path : string) (state : PathState) : string -> option PathState :=
  fun p => if String.eqb p path then Some state else pathsState p.

Definition isFetching (state : option PathState) : bool :=
  match state with
  | Some s => match fetching s with Some true => true | _ => false end
  | None => false
  end.

Definition attemptPrefetch (a : Attempt) (h : Hook) (w : Shared) : Hook * Shared :=
  if hasTried h || negb (active a) || negb (canPrefetch h) then (h, w)
  else if notRelative (href a) then (h, w)
  else
    let path := navigationPath a in
    if isFetching (pathsState w path) then (mkHook true (canPrefetch h), w)
    else
      let validCache := getCacheValidData path (pathsState w) (caches a) in
      if pathValid validCache && routeValid validCache
      then (mkHook true (canPrefetch h), w)
      else
        let pathsState' :=
          if negb (pathValid validCache)
          then setPath (pathsState w) path (mkPath (Some true) None)
          else pathsState w in
        let priority := getPriorityForPage (linkPage a) in
        (mkHook true (canPrefetch h),
         mkShared pathsState'
                  (queue w ++ [mkTask path (linkPage a) validCache priority])).

(** The tasks one hook instance enqueues over several attempts, the
    shared state being whatever it is at each attempt. *)
Fixpoint enqueuedBy (h : Hook) (attempts : list (Attempt * Shared)) : nat :=
  match attempts with
  | [] => 0
  | (a, w) :: rest =>
      let '(h', w') := attemptPrefetch a h w in
      (List.length (queue w') - List.length (queue w)) + enqueuedBy h' rest
  end.


(** What [getPageToNavigate] settles to: it rejects, or fulfils with
    the navigation data (null here is [None]), of which only [page] is
    read; the other fields are copied into the cache entry. *)
Record NavigationData : Type := mkNavigation {
  navigation_page : option string
}.

Inductive PageFetch : Type :=
| FetchRejected
| FetchFulfilled (navigationData : option NavigationData).

(** The part of the prefetch state a task writes: [pathsState], and
    the entries it sets in the page caches, as (page, path). *)
Record Store : Type := mkStore {
  paths : string -> option PathState;
  cacheSets : list (string * string)
}.

(** [maybeUpdatePathCache]: [None] when its promise rejects, else the
    page it resolves to ([None] for null or undefined) and the store
    as it leaves it. *)
Definition maybeUpdatePathCache (t : Task) (fetched : PageFetch) (st : Store)
  : option (option string * Store) :=
  let path := task_path t in
  if pathValid (task_validCache t)
  then match paths st path with
       | Some state => Some (page state, st)
       | None => None
       end
  else match fetched with
       | FetchRejected => None
       | FetchFulfilled navigationData =>
           let navigationPage :=
             match task_page t with
             | Some p => Some p
             | None => match navigationData with
                       | Some d => navigation_page d
                       | None => None
                       end
             end in
           let paths' := setPath (paths st) path (mkPath (Some false) navigationPage) in
           match navigationData, navigationPage with
           | Some _, Some p =>
               Some (Some p, mkStore paths' (cacheSets st ++ [(p, path)]))
           | _, _ => Some (None, mkStore paths' (cacheSets st))
           end
       end.

(** What a run of [prefetchRequests] on its own does to the store.  The
    steps after the page is known (route data, components) write
    neither [pathsState] nor the page caches. *)
Definition prefetchRequests (isPrefetchActive : bool) (t : Task) (fetched : PageFetch)
           (st : Store) : Store :=
  if negb isPrefetchActive then st
  else match maybeUpdatePathCache t fetched st with
       | None => st
       | Some (navigationPage, st') =>
           mkStore (setPath (paths st') (task_path t)
                            (mkPath (Some false) navigationPage))
                   (cacheSets st')
       end.

End Prefetch.

(* ================================================================== *)
(** * react/utils/client/links/uriSwitchLink.ts *)
(* ================================================================== *)

Module UriSwitchLink.
Import JS.

(** [toLowerCase] on the letters A to Z.  Every other character is left
    as it is, which is enough to decide the two comparisons made here:
    no character outside A-Z lowers to a letter of "public" or "query". *)
Definition lowerChar (c : ascii) : ascii :=
  let n := nat_of_ascii c in
  if Nat.leb 65 n && Nat.leb n 90 then ascii_of_nat (n + 32) else c.

Fixpoint toLowerCase (s : string) : string :=
  match s with
  | EmptyString => EmptyString
  | String c rest => String (lowerChar c) (toLowerCase rest)
  end.

(** The definitions of a GraphQL document. *)
Inductive DefinitionNode : Type :=
| OperationDefinition (operation : string)
| OtherDefinition.

(** [assetsFromQuery(query).operationType]: the operation of the first
    operation definition the visit meets, 'mutation' when there is none. *)
Fixpoint assetsFromQuery (query : list DefinitionNode) : string :=
  match query with
  | [] => "mutation"
  | OperationDefinition operation :: _ => operation
  | OtherDefinition :: rest => assetsFromQuery rest
  end.

(** [v[name]] for a name that is no index and no built-in property. *)
Definition prop (name : string) (v : Val) : Val :=
  match v with
  | VObj o => get name o
  | _ => VUndefined
  end.

(** [ext && ext.persistedQuery && ext.persistedQuery.sha256Hash]. *)
Definition hashFromExtensions (ext : Val) : Val :=
  if truthy ext
  then if truthy (prop "persistedQuery" ext)
       then prop "sha256Hash" (prop "persistedQuery" ext)
       else prop "persistedQuery" ext
  else ext.

Definition defaultAssets : Val :=
  VObj [("maxAge", VStr "LONG"); ("scope", VStr "public"); ("version", VNum 1)].

(** The names a plain object inherits from [Object.prototype]. *)
Definition objectPrototypeNames : list string :=
  ["constructor"; "hasOwnProperty"; "isPrototypeOf"; "propertyIsEnumerable";
   "toLocaleString"; "toString"; "valueOf"; "__proto__";
   "__defineGetter__"; "__defineSetter__"; "__lookupGetter__"; "__lookupSetter__"].

(** [o[key]] on a plain object: its own property of that name; else
    what the name inherits from [Object.prototype], a function (the
    prototype itself for "__proto__"), which is truthy and has no
    [maxAge], [scope] or [version], shown here as an object without
    properties; else undefined. *)
Definition member (o : Obj) (key : string) : Val :=
  match lookup key o with
  | Some v => v
  | None =>
      if existsb (String.eqb key) objectPrototypeNames then VObj [] else VUndefined
  end.

(** [cacheHints[hash] || defaultAssets], [cacheHints] being a plain
    object. *)
Definition hintsFor (cacheHints : Obj) (hash : Val) : Val :=
  let hint := member cacheHints (toStr hash) in
  if truthy hint then hint else defaultAssets.

(** The context the link sets on the operation; [None] when the
    callback throws (no [runtime] in the context, or a [scope] that is
    not a string). *)
Definition switchContext (baseURI : string) (canUseDOM : bool)
           (workspace : Val) (cacheHints : Obj)
           (extensions : Val) (query : list DefinitionNode) (context : Obj)
  : option Obj :=
  let hash := hashFromExtensions extensions in
  let hints := hintsFor cacheHints hash in
  let maxAge := prop "maxAge" hints in
  let scope := prop "scope" hints in
  let version := prop "version" hints in
  let operationType := assetsFromQuery query in
  let protocol := if canUseDOM then "https:" else "http:" in
  let fetchOptions :=
    match get "fetchOptions" context with
    | VUndefined => VObj []
    | v => v
    end in
  match get "runtime" context with
  | VUndefined | VNull => None
  | runtime =>
      let appsEtag := match runtime with
                      | VObj o => get "appsEtag" o
                      | _ => VUndefined
                      end in
      match scope with
      | VStr scopeText =>
          let method :=
            if String.eqb (toLowerCase scopeText) "public"
               && String.eqb (toLowerCase operationType) "query"
            then "GET" else "POST" in
          Some (spread context
                  [("fetchOptions",
                    VObj (spread (ownProps fetchOptions) [("method", VStr method)]));
                   ("uri",
                    VStr (protocol ++ "//" ++ baseURI ++ "/_v/graphql/" ++ scopeText
                          ++ "/v" ++ toStr version
                          ++ "?workspace=" ++ toStr workspace
                          ++ "&maxAge=" ++ toStr maxAge
                          ++ "&appsEtag=" ++ toStr appsEtag))])
      | _ => None
      end
  end.

End UriSwitchLink.

(* ================================================================== *)
(** * Path algebra: [mountTreePath] *)
(* ================================================================== *)

Section PathAlgebra.
Import JS ExtensionPoint Scenario.

Lemma nonEmpty_true (s : string) : nonEmpty s = true <-> s <> "".
Proof. destruct s; simpl; split; congruence. Qed.

Lemma nonEmpty_false (s : string) : nonEmpty s = false <-> s = "".
Proof. destruct s; simpl; split; congruence. Qed.

Lemma string_app_assoc (a b c : string) : (a ++ b) ++ c = a ++ (b ++ c).
Proof. induction a as [|x a IH]; simpl; [reflexivity | now rewrite IH]. Qed.

Lemma nonEmpty_slash (a b : string) : nonEmpty (a ++ "/" ++ b) = true.
Proof. destruct a; reflexivity. Qed.

Lemma mountTreePath_join (child parent : string) :
  (parent = child -> parent = "") ->
  mountTreePath child parent = joinPath parent child.
Proof.
  intros Hguard. unfold mountTreePath, joinPath.
  destruct (String.eqb_spec parent child) as [Heq | Hne].
  - pose proof (Hguard Heq) as E. rewrite E in Heq. subst. reflexivity.
  - destruct (nonEmpty parent), (nonEmpty child); reflexivity.
Qed.

Lemma joinPath_assoc (a b c : string) :
  joinPath (joinPath a b) c = joinPath a (joinPath b c).
Proof.
  unfold joinPath.
  destruct a as [|xa a], b as [|xb b], c as [|xc c]; simpl; try reflexivity.
  f_equal. change (String "/" (String xb b)) with ("/" ++ String xb b).
  rewrite string_app_assoc. reflexivity.
Qed.

(** C8 (as amended).  [mountTreePath] returns the parent path when it
    equals the child id; joins the two with a slash when they differ
    and both are non-empty; returns the non-empty one when they differ
    and one is empty; and mounting twice is associative for every
    triple in which no application meets the self-reference guard on a
    non-empty path. *)
Theorem mountTreePath_laws (a b c : string) :
  mountTreePath a a = a
  /\ (a <> b -> a <> "" -> b <> "" -> mountTreePath b a = a ++ "/" ++ b)
  /\ (a <> b -> b = "" -> mountTreePath b a = a)
  /\ (a <> b -> a = "" -> mountTreePath b a = b)
  /\ ((a = b -> a = "") ->
      (b = c -> b = "") ->
      (mountTreePath b a = c -> c = "") ->
      (a = mountTreePath c b -> a = "") ->
      mountTreePath c (mountTreePath b a) = mountTreePath (mountTreePath c b) a).
Proof.
  repeat split.
  - unfold mountTreePath. now rewrite String.eqb_refl.
  - intros Hne Ha Hb. unfold mountTreePath.
    apply String.eqb_neq in Hne. rewrite Hne.
    apply nonEmpty_true in Ha. apply nonEmpty_true in Hb.
    now rewrite Ha, Hb.
  - intros Hne Hb. subst b. unfold mountTreePath.
    apply String.eqb_neq in Hne. rewrite Hne.
    destruct (nonEmpty a) eqn:E; simpl; [reflexivity|].
    apply nonEmpty_false in E. now subst a.
  - intros Hne Ha. subst a. unfold mountTreePath.
    apply String.eqb_neq in Hne. now rewrite Hne.
  - intros Hab Hbc Habc Ha_bc.
    rewrite (mountTreePath_join c (mountTreePath b a)) by
      (intro E; rewrite (Habc E) in E; exact E).
    rewrite (mountTreePath_join b a Hab).
    rewrite (mountTreePath_join (mountTreePath c b) a Ha_bc).
    rewrite (mountTreePath_join c b Hbc).
    apply joinPath_assoc.
Qed.

Lemma mountTreePath_laws_witness :
  mountTreePath "store.home" "store.home" = "store.home"
  /\ mountTreePath "shelf" "store.home" = "store.home/shelf"
  /\ mountTreePath "" "store.home" = "store.home"
  /\ mountTreePath "shelf" "" = "shelf"
  /\ mountTreePath "c" (mountTreePath "b" "a") = mountTreePath (mountTreePath "c" "b") "a".
Proof.
  destruct (mountTreePath_laws "store.home" "shelf" "") as (H1 & H2 & _).
  destruct (mountTreePath_laws "store.home" "" "") as (_ & _ & H3 & _).
  destruct (mountTreePath_laws "" "shelf" "") as (_ & _ & _ & H4 & _).
  destruct (mountTreePath_laws "a" "b" "c") as (_ & _ & _ & _ & H5).
  split; [exact H1 |].
  split; [apply H2; discriminate |].
  split; [apply H3; [discriminate | reflexivity] |].
  split; [apply H4; [discriminate | reflexivity] |].
  apply H5; vm_compute; discriminate.
Defined.

(** C8, counterexample: with parent "x" and ids "x" then "y" the two
    groupings differ, because the guard collapses "x" under "x". *)
Lemma mountTreePath_not_associative :
  ~ (forall a b c : string,
        mountTreePath c (mountTreePath b a) = mountTreePath (mountTreePath c b) a).
Proof.
  intros H. specialize (H "x" "x" "y"). vm_compute in H. discriminate H.
Qed.

End PathAlgebra.

(* ================================================================== *)
(** * Tree resolver: [getChildExtensions] *)
(* ================================================================== *)

Section TreeResolver.
Import JS ExtensionPoint Scenario.

(** The filter callback says what the role rule says. *)
Lemma isChildBlock_spec (b : Block) :
  isChildBlock b = true <->
  (children b = None \/ children b = Some true \/ blockRole b = Some RoleChildren)
  /\ blockRole b <> Some RoleSlot.
Proof.
  unfold isChildBlock.
  destruct (children b) as [[|]|]; destruct (blockRole b) as [[| | | |]|]; simpl;
    split; intros H;
    try discriminate;
    try (split; [auto | discriminate]);
    try (destruct H as [[H | [H | H]] H']; congruence).
Qed.

Lemma mapi_ids (exts : Extensions) (treePath : string) (bs : list Block) (i : nat) :
  map (fun c => (child_id c, child_treePath c))
      (mapi (fun child j =>
               mkChild ("around-" ++ treePath ++ "-" ++ showNat j)
                       (extensionPointId child)
                       (propsOrEmpty (exts (mountTreePath (extensionPointId child) treePath)))
                       treePath) i bs)
  = map (fun b => (extensionPointId b, treePath)) bs.
Proof.
  revert i. induction bs as [|b bs IH]; intros i; simpl; [reflexivity|].
  now rewrite IH.
Qed.

(** C7.  The children resolved for a tree path are, in declaration
    order, exactly the blocks of its extension for which ([children]
    is undefined, or [children === true], or [blockRole === 'children'])
    and [blockRole !== 'slot']; a block with role slot is never among
    them; each child is mounted under the resolved path.  For the
    registry of the scenario, resolving "a" yields exactly the child
    whose tree path is "a/b". *)
Theorem getChildExtensions_children :
  (forall (exts : Extensions) (treePath : string) (ext : Extension) (bs : list Block),
      exts treePath = Present ext ->
      blocks ext = Some bs ->
      exists kids,
        getChildExtensions exts treePath = Some kids
        /\ map (fun c => (child_id c, child_treePath c)) kids
           = map (fun b => (extensionPointId b, treePath)) (filter isChildBlock bs)
        /\ (forall b, In b (filter isChildBlock bs) <->
                      In b bs
                      /\ (children b = None \/ children b = Some true
                          \/ blockRole b = Some RoleChildren)
                      /\ blockRole b <> Some RoleSlot)
        /\ (forall b, In b bs -> blockRole b = Some RoleSlot ->
                      ~ In b (filter isChildBlock bs)))
  /\ (exists kid,
        getChildExtensions registryAB "a" = Some [kid]
        /\ child_id kid = "b"
        /\ elementTreePath "" kid = "a/b"
        /\ registryAB (elementTreePath "" kid)
           = Present (mkExtension (Some "Y") None None None None None)).
Proof.
  split.
  - intros exts treePath ext bs Hext Hbs.
    unfold getChildExtensions. rewrite Hext, Hbs.
    eexists. split; [reflexivity|].
    split; [apply mapi_ids|].
    split.
    + intros b. rewrite filter_In, isChildBlock_spec. tauto.
    + intros b _ Hslot Hin. apply filter_In in Hin.
      destruct Hin as [_ Hin]. apply isChildBlock_spec in Hin.
      destruct Hin as [_ Hin]. contradiction.
  - eexists. vm_compute. repeat split.
Qed.

Lemma getChildExtensions_children_witness :
  exists kids,
    getChildExtensions registryAB "a" = Some kids
    /\ map (fun c => (child_id c, child_treePath c)) kids = [("b", "a")].
Proof.
  destruct (proj1 getChildExtensions_children registryAB "a"
              (mkExtension (Some "X") None None (Some [mkBlock "b" None None]) None None)
              [mkBlock "b" None None] eq_refl eq_refl)
    as (kids & Hk & Hids & _).
  exists kids. split; [exact Hk | exact Hids].
Defined.

End TreeResolver.

(* ================================================================== *)
(** * Slot paths: [generateSlot] and [SlotComponent] *)
(* ================================================================== *)

Section SlotPaths.
Import JS ExtensionPoint Slots.

(** C2 (as amended).  For a labeled instance (a truthy [props.id]) with
    no registry entry yet at the dynamic path, [SlotComponent] renders
    a [DynamicSlot] whose tree path is the base slot path followed by
    "-slot{id}" when the slot value contains '#', and by "#slot{id}"
    when it does not. *)
Theorem dynamicTreePath_separator
        (treePath slotValue : string) (exts : Extensions) (slotProps : Obj) :
  truthy (get "id" slotProps) = true ->
  (forall e, exts (dynamicTreePath (slotTreePath treePath slotValue) slotValue
                                   (get "id" slotProps)) <> Present e) ->
  exists comp props' blockId' kids,
    SlotComponent treePath slotValue exts slotProps
    = RenderDynamicSlot
        (slotTreePath treePath slotValue
           ++ (if includes slotValue "#" then "-slot" else "#slot")
           ++ toStr (get "id" slotProps))
        comp props' blockId' (slotTreePath treePath slotValue) kids.
Proof.
  intros Hid Hfresh. unfold SlotComponent. rewrite Hid.
  assert (Hpath :
    dynamicTreePath (slotTreePath treePath slotValue) slotValue (get "id" slotProps)
    = slotTreePath treePath slotValue
        ++ (if includes slotValue "#" then "-slot" else "#slot")
        ++ toStr (get "id" slotProps)).
  { unfold dynamicTreePath. destruct (includes slotValue "#"); reflexivity. }
  destruct (exts (dynamicTreePath (slotTreePath treePath slotValue) slotValue
                                  (get "id" slotProps))) as [| |e] eqn:E.
  - rewrite Hpath. repeat eexists.
  - rewrite Hpath. repeat eexists.
  - exfalso. exact (Hfresh e eq_refl).
Qed.

Lemma dynamicTreePath_separator_witness :
  exists comp props' blockId' kids,
    SlotComponent "store.home" "banner#promo" (fun _ => Absent) [("id", VStr "7")]
    = RenderDynamicSlot "store.home/banner#promo-slot7" comp props' blockId'
                        "store.home/banner#promo" kids.
Proof.
  apply (dynamicTreePath_separator "store.home" "banner#promo" (fun _ => Absent)
           [("id", VStr "7")]).
  - reflexivity.
  - intros e H. discriminate H.
Defined.

(** C2, counterexample: the slot value "banner#promo" contains '#' and
    gets "-slot7", the slot value "banner" does not and gets "#slot7",
    the reverse of what the claim states. *)
Lemma dynamicTreePath_not_as_claimed :
  ~ (forall (base slotValue id : string),
        dynamicTreePath base slotValue (VStr id)
        = base ++ (if includes slotValue "#" then "#slot" else "-slot") ++ id).
Proof.
  intros H. specialize (H "store.home/banner#promo" "banner#promo" "7").
  vm_compute in H. discriminate H.
Qed.

Lemma substring_shift (s : string) :
  forall (n m : nat) (c : ascii) (r : string),
    String.substring n (S m) s = String c r ->
    String.substring (S n) m s = r.
Proof.
  induction s as [|a s IH]; intros n m c r H.
  - destruct n; simpl in H; discriminate H.
  - destruct n as [|n].
    + simpl in H. injection H as _ Hr. subst r. destruct m; reflexivity.
    + simpl in H. apply IH in H. destruct m; exact H.
Qed.

Lemma substring_clamped (s : string) :
  forall n : nat,
    String.substring 0 (Nat.min n (String.length s)) s = String.substring 0 n s.
Proof.
  induction s as [|a s IH]; intros n.
  - destruct n; reflexivity.
  - destruct n as [|n]; simpl; [reflexivity | now rewrite IH].
Qed.

(** A path that holds "-slot" holds "slot". *)
Lemma marker_found (s : string) (n : nat) :
  String.index 0 "-slot" s = Some n -> String.index 0 "slot" s <> None.
Proof.
  intros Hn Hnone.
  apply String.index_correct1 in Hn. simpl String.length in Hn.
  apply substring_shift in Hn.
  refine (String.index_correct3 0 (S n) "slot" s Hnone _ _ Hn).
  - discriminate.
  - lia.
Qed.

(** The part of the path computation that works: a path without "slot"
    is passed through, and a path with "-slot" is cut at the first
    "-slot". *)
Lemma slotTreePath_unmarked (treePath slotValue : string) :
  includes treePath "slot" = false ->
  slotTreePath treePath slotValue = treePath ++ "/" ++ slotValue.
Proof.
  unfold includes, slotTreePath, indexOf.
  destruct (String.index 0 "slot" treePath); [discriminate | reflexivity].
Qed.

Lemma slotTreePath_marked (treePath slotValue : string) (n : nat) :
  String.index 0 "-slot" treePath = Some n ->
  slotTreePath treePath slotValue
  = String.substring 0 n treePath ++ "/" ++ slotValue.
Proof.
  intros Hn. pose proof (marker_found treePath n Hn) as Hslot.
  unfold slotTreePath, indexOf. rewrite Hn.
  destruct (String.index 0 "slot" treePath) as [k|]; [|congruence].
  replace (Z.of_nat k >? -1)%Z with true by (symmetry; apply Z.gtb_lt; lia).
  f_equal. unfold JS.substring, clamp.
  rewrite <- (substring_clamped treePath n).
  f_equal; lia.
Qed.

(** C9, at the failing input: a base path that holds "slot" but no
    "-slot" (here a labeled dynamic path ending in "#slot7") is cut
    down to the empty string instead of being passed through. *)
Theorem slotTreePath_drops_base :
  slotTreePath "store.home/banner#slot7" "shelf" = "/shelf"
  /\ slotTreePath "store.home/slots" "shelf" = "/shelf"
  /\ slotTreePath "store.home/banner-slot7" "shelf" = "store.home/banner/shelf"
  /\ slotTreePath "store.home/banner" "shelf" = "store.home/banner/shelf".
Proof. vm_compute. repeat split. Qed.

End SlotPaths.

(* ================================================================== *)
(** * Prop merger: [mergeDeepRight] folded over the six layers *)
(* ================================================================== *)

Section PropMerger.
Import JS Ramda ExtensionPoint.

Lemma lookup_app (k : string) (l r : Obj) :
  lookup k (l ++ r)%list
  = match lookup k l with Some v => Some v | None => lookup k r end.
Proof.
  induction l as [|[k' v] l IH]; simpl; [reflexivity|].
  destruct (String.eqb k k'); [reflexivity | exact IH].
Qed.

Lemma lookup_map_values (F : string -> Val -> Val) (k : string) (l : Obj) :
  lookup k (map (fun kv => (fst kv, F (fst kv) (snd kv))) l)
  = match lookup k l with Some v => Some (F k v) | None => None end.
Proof.
  induction l as [|[k' v] l IH]; simpl; [reflexivity|].
  destruct (String.eqb_spec k k') as [-> | _]; [reflexivity | exact IH].
Qed.

Lemma lookup_filter_fresh (k : string) (l r : Obj) :
  lookup k l = None ->
  lookup k (filter (fun kv => negb (has (fst kv) l)) r) = lookup k r.
Proof.
  intros Hl. induction r as [|[k' v] r IH]; simpl; [reflexivity|].
  destruct (String.eqb_spec k k') as [<- | Hne].
  - unfold has. rewrite Hl. simpl. now rewrite String.eqb_refl.
  - destruct (negb (has k' l)); simpl; [|exact IH].
    apply String.eqb_neq in Hne. now rewrite Hne.
Qed.

Lemma lookup_mergeWithKey (fn : string -> Val -> Val -> Val) (k : string) (l r : Obj) :
  lookup k (mergeWithKey fn l r)
  = match lookup k l with
    | Some lv => Some match lookup k r with
                      | Some rv => fn k lv rv
                      | None => lv
                      end
    | None => lookup k r
    end.
Proof.
  unfold mergeWithKey. rewrite lookup_app.
  rewrite (lookup_map_values
             (fun key lv => match lookup key r with
                            | Some rv => fn key lv rv
                            | None => lv
                            end)).
  destruct (lookup k l) eqn:E; [reflexivity|].
  now apply lookup_filter_fresh.
Qed.

(** One level of [mergeDeepRight]: two plain objects under the same
    key are merged recursively, anything else on the right replaces
    what the left had, and keys of one side only are kept. *)
Lemma lookup_mergeDeepRight (k : string) (l r : Obj) :
  lookup k (mergeDeepRight l r)
  = match lookup k l, lookup k r with
    | Some (VObj a), Some (VObj b) => Some (VObj (mergeDeepRight a b))
    | _, Some rv => Some rv
    | lv, None => lv
    end.
Proof.
  unfold mergeDeepRight, mergeDeepWithKey. rewrite lookup_mergeWithKey.
  destruct (lookup k l) as [lv|], (lookup k r) as [rv|];
    try destruct lv; try destruct rv; reflexivity.
Qed.

Lemma mergeLayers_snoc (lower : list Obj) (layer : Obj) :
  mergeLayers (lower ++ [layer]) = mergeDeepRight (mergeLayers lower) layer.
Proof. unfold mergeLayers, reduce. now rewrite fold_left_app. Qed.

Lemma lookup_fold_unbound (k : string) (higher : list Obj) :
  (forall h, In h higher -> lookup k h = None) ->
  forall acc, lookup k (fold_left mergeDeepRight higher acc) = lookup k acc.
Proof.
  induction higher as [|h higher IH]; intros Hnone acc; simpl; [reflexivity|].
  rewrite IH by (intros h' Hh'; apply Hnone; now right).
  rewrite lookup_mergeDeepRight, (Hnone h (or_introl eq_refl)).
  destruct (lookup k acc) as [[]|]; reflexivity.
Qed.

Lemma lookup_fold_bound (k : string) (higher : list Obj) :
  forall acc, lookup k acc <> None ->
              lookup k (fold_left mergeDeepRight higher acc) <> None.
Proof.
  induction higher as [|h higher IH]; intros acc Hacc; simpl; [exact Hacc|].
  apply IH. rewrite lookup_mergeDeepRight.
  destruct (lookup k acc) as [lv|]; [|congruence].
  destruct lv, (lookup k h) as [[]|]; discriminate.
Qed.

(** The value a key has after folding [lower ++ layer :: higher] when
    [layer] is the last layer that binds it. *)
Lemma lookup_mergeLayers_split (k : string) (lower higher : list Obj)
      (layer : Obj) (v : Val) :
  lookup k layer = Some v ->
  (forall h, In h higher -> lookup k h = None) ->
  lookup k (mergeLayers (lower ++ layer :: higher))
  = Some match lookup k (mergeLayers lower), v with
         | Some (VObj a), VObj b => VObj (mergeDeepRight a b)
         | _, _ => v
         end.
Proof.
  intros Hv Hnone. unfold mergeLayers, reduce.
  rewrite fold_left_app. simpl.
  rewrite (lookup_fold_unbound k higher Hnone).
  rewrite lookup_mergeDeepRight, Hv.
  destruct (lookup k (fold_left mergeDeepRight lower [])) as [[]|], v; reflexivity.
Qed.

Variable getSettings : string -> Val.

(** C1.  The six sources, in the order of their rank: (1)
    [{ appSettings }], (2) the parent props, (3) the props the
    extension declares, (4) [blockProps], (5) [content] (an object, as
    an extension holds it), (6) [{ params, query }].  For every key,
    the source of highest rank that binds it decides, whatever the
    sources of lower rank hold: a value that is not a plain object (a
    scalar, an array, null, undefined) replaces wholesale what they
    produced, and a plain object is merged recursively, by the same
    rule, over the plain object they produced for that key (and
    replaces anything else).  [lower] are the sources of lower rank
    than [layer] and [higher] those of higher rank. *)
Theorem mergedProps_precedence
        (comp : option string) (parentProps extensionProps : Obj)
        (blockProps : option Obj) (content : Obj) (params query : Val)
        (lower higher : list Obj) (layer : Obj) (k : string) (v : Val) :
  [ if truthy (appSettingsOf getSettings comp)
    then [("appSettings", appSettingsOf getSettings comp)] else [];
    parentProps;
    extensionProps;
    match blockProps with Some o => o | None => [] end;
    content;
    [("params", params); ("query", query)] ]
  = (lower ++ layer :: higher)%list ->
  lookup k layer = Some v ->
  (forall h, In h higher -> lookup k h = None) ->
  lookup k (mergedProps getSettings comp parentProps extensionProps
                        blockProps (VObj content) params query)
  = Some match lookup k (mergeLayers lower), v with
         | Some (VObj below), VObj above => VObj (mergeDeepRight below above)
         | _, _ => v
         end
  /\ (isObject v = false ->
      lookup k (mergedProps getSettings comp parentProps extensionProps
                            blockProps (VObj content) params query) = Some v)
  /\ (forall below above k',
         lookup k' (mergeDeepRight below above)
         = match lookup k' below, lookup k' above with
           | Some (VObj a), Some (VObj b) => Some (VObj (mergeDeepRight a b))
           | _, Some rv => Some rv
           | lv, None => lv
           end).
Proof.
  intros Hsplit Hv Hnone.
  assert (Hmerged : lookup k (mergedProps getSettings comp parentProps extensionProps
                                          blockProps (VObj content) params query)
                    = Some match lookup k (mergeLayers lower), v with
                           | Some (VObj below), VObj above =>
                               VObj (mergeDeepRight below above)
                           | _, _ => v
                           end).
  { unfold mergedProps, propLayers. cbn [ownProps]. rewrite Hsplit.
    now apply lookup_mergeLayers_split. }
  split; [exact Hmerged | split].
  - intros Hplain. rewrite Hmerged.
    destruct (lookup k (mergeLayers lower)) as [[]|], v;
      try reflexivity; discriminate Hplain.
  - intros. apply lookup_mergeDeepRight.
Qed.

Lemma substring_none (s : string) : String.substring 0 0 s = "".
Proof. destruct s; reflexivity. Qed.

Lemma substr_prefix (c : string) (count : Z) :
  substr c 0 count = String.substring 0 (Z.to_nat (Z.max 0 count)) c.
Proof.
  unfold substr, clamp. change (0 <? 0)%Z with false. cbv iota.
  rewrite <- (substring_clamped c (Z.to_nat (Z.max 0 count))).
  f_equal; lia.
Qed.

(** What [appName] is: empty when the component id has no '@', else
    the part of the id before its first '@'. *)
Lemma appNameOf_spec (c : string) :
  (includes c "@" = false -> appNameOf (Some c) = Some "")
  /\ (forall n, String.index 0 "@" c = Some n ->
                appNameOf (Some c) = Some (String.substring 0 n c)).
Proof.
  unfold includes, appNameOf, indexOf. split.
  - destruct (String.index 0 "@" c); [discriminate|]. intros _.
    rewrite substr_prefix. simpl Z.to_nat. now rewrite substring_none.
  - intros n Hn. rewrite Hn, substr_prefix. do 2 f_equal. lia.
Qed.

(** C10 (as amended).  When no other layer binds the key, the merged
    props carry under "appSettings": the settings of the app when an
    app name could be parsed (a non-empty part before '@') and the
    settings collaborator returns something truthy; nothing when it
    returns something falsy; and the empty object when no app name
    could be parsed, the collaborator not being consulted.  Whatever
    the other layers hold, without an app name the key is present. *)
Theorem appSettings_layer
        (comp : option string) (parentProps extensionProps : Obj)
        (blockProps : option Obj) (content params query : Val) :
  lookup "appSettings" parentProps = None ->
  lookup "appSettings" extensionProps = None ->
  lookup "appSettings" (match blockProps with Some o => o | None => [] end) = None ->
  lookup "appSettings" (ownProps content) = None ->
  lookup "appSettings"
         (mergedProps getSettings comp parentProps extensionProps
                      blockProps content params query)
  = match appNameOf comp with
    | Some appName =>
        if nonEmpty appName
        then if truthy (getSettings appName) then Some (getSettings appName) else None
        else Some (VObj [])
    | None => Some (VObj [])
    end
  /\ (forall parentProps' extensionProps' blockProps' content' params' query',
         match appNameOf comp with
         | Some appName => nonEmpty appName = false
         | None => True
         end ->
         lookup "appSettings"
                (mergedProps getSettings comp parentProps' extensionProps'
                             blockProps' content' params' query') <> None).
Proof.
  intros Hp He Hb Hc.
  assert (Hrest : forall h,
             In h [parentProps; extensionProps;
                   match blockProps with Some o => o | None => [] end;
                   ownProps content; [("params", params); ("query", query)]] ->
             lookup "appSettings" h = None).
  { intros h [<- | [<- | [<- | [<- | [<- | []]]]]]; auto. }
  assert (Hbound : forall s : Val,
             lookup "appSettings"
               (mergeLayers ([("appSettings", s)] :: parentProps :: extensionProps
                   :: match blockProps with Some o => o | None => [] end
                   :: ownProps content :: [[("params", params); ("query", query)]]))
             = Some s).
  { intros s.
    pose proof (lookup_mergeLayers_split "appSettings" [] _ [("appSettings", s)] s
                  eq_refl Hrest) as H.
    destruct s; exact H. }
  assert (Hunbound :
             lookup "appSettings"
               (mergeLayers ([] :: parentProps :: extensionProps
                   :: match blockProps with Some o => o | None => [] end
                   :: ownProps content :: [[("params", params); ("query", query)]]))
             = None).
  { unfold mergeLayers, reduce. rewrite lookup_fold_unbound; [reflexivity|].
    intros h [<- | Hin]; [reflexivity | now apply Hrest]. }
  split.
  - unfold mergedProps, propLayers, appSettingsOf.
    destruct (appNameOf comp) as [appName|]; [|apply Hbound].
    destruct (nonEmpty appName); [|apply Hbound].
    destruct (truthy (getSettings appName)); [apply Hbound | apply Hunbound].
  - intros pp ep bp ct pa qu Hname.
    unfold mergedProps, propLayers, appSettingsOf, mergeLayers, reduce.
    destruct (appNameOf comp) as [appName|]; [rewrite Hname|];
      apply (lookup_fold_bound "appSettings"
               [pp; ep; match bp with Some o => o | None => [] end;
                ownProps ct; [("params", pa); ("query", qu)]]
               (mergeDeepRight [] [("appSettings", VObj [])]));
      discriminate.
Qed.

End PropMerger.

Section PropMergerScenarios.
Import JS Ramda ExtensionPoint Scenario.

(** Every source binds a key that a source of the next rank binds
    too: "appSettings" (1, 2), "layout" (2, 3), "size" (2, 3, 4),
    "title" (2, 3, 4, 5), "params" (2 to 6) and "query" (5, 6). *)
Lemma mergedProps_precedence_witness :
  let merged := mergedProps storeSettings (Some "vtex.store@2.x/Shelf")
                            rivalParentProps rivalDeclaredProps (Some rivalBlockProps)
                            (VObj rivalContent) (VObj [("slug", VStr "shoes")])
                            VUndefined in
  lookup "params" merged = Some (VObj [("slug", VStr "shoes")])
  /\ lookup "query" merged = Some VUndefined
  /\ lookup "title" merged = Some (VStr "from the editor")
  /\ lookup "size" merged = Some (VArr [VNum 4])
  /\ lookup "layout" merged = Some (VObj [("cols", VNum 3); ("gap", VNum 1)])
  /\ lookup "appSettings" merged = Some (VObj [("enableLazyFooter", VBool false)]).
Proof.
  set (settings := [("appSettings", VObj [("enableLazyFooter", VBool true)])]).
  set (routing := [("params", VObj [("slug", VStr "shoes")]); ("query", VUndefined)]).
  intros merged. split; [| split; [| split; [| split; [| split]]]].
  - refine (proj1 (mergedProps_precedence storeSettings (Some "vtex.store@2.x/Shelf")
             rivalParentProps rivalDeclaredProps (Some rivalBlockProps) rivalContent
             (VObj [("slug", VStr "shoes")]) VUndefined
             [settings; rivalParentProps; rivalDeclaredProps; rivalBlockProps;
              rivalContent]
             [] routing "params" (VObj [("slug", VStr "shoes")])
             eq_refl eq_refl _)).
    intros h [].
  - refine (proj1 (proj2 (mergedProps_precedence storeSettings
             (Some "vtex.store@2.x/Shelf")
             rivalParentProps rivalDeclaredProps (Some rivalBlockProps) rivalContent
             (VObj [("slug", VStr "shoes")]) VUndefined
             [settings; rivalParentProps; rivalDeclaredProps; rivalBlockProps;
              rivalContent]
             [] routing "query" VUndefined
             eq_refl eq_refl _)) eq_refl).
    intros h [].
  - refine (proj1 (proj2 (mergedProps_precedence storeSettings
             (Some "vtex.store@2.x/Shelf")
             rivalParentProps rivalDeclaredProps (Some rivalBlockProps) rivalContent
             (VObj [("slug", VStr "shoes")]) VUndefined
             [settings; rivalParentProps; rivalDeclaredProps; rivalBlockProps] [routing]
             (rivalContent) "title" (VStr "from the editor")
             eq_refl eq_refl _)) eq_refl).
    intros h [<- | []]; reflexivity.
  - refine (proj1 (proj2 (mergedProps_precedence storeSettings
             (Some "vtex.store@2.x/Shelf")
             rivalParentProps rivalDeclaredProps (Some rivalBlockProps) rivalContent
             (VObj [("slug", VStr "shoes")]) VUndefined
             [settings; rivalParentProps; rivalDeclaredProps]
             [rivalContent; routing]
             rivalBlockProps "size" (VArr [VNum 4])
             eq_refl eq_refl _)) eq_refl).
    intros h [<- | [<- | []]]; reflexivity.
  - refine (proj1 (mergedProps_precedence storeSettings (Some "vtex.store@2.x/Shelf")
             rivalParentProps rivalDeclaredProps (Some rivalBlockProps) rivalContent
             (VObj [("slug", VStr "shoes")]) VUndefined
             [settings; rivalParentProps]
             [rivalBlockProps; rivalContent; routing]
             rivalDeclaredProps "layout" (VObj [("cols", VNum 3)])
             eq_refl eq_refl _)).
    intros h [<- | [<- | [<- | []]]]; reflexivity.
  - refine (proj1 (mergedProps_precedence storeSettings (Some "vtex.store@2.x/Shelf")
             rivalParentProps rivalDeclaredProps (Some rivalBlockProps) rivalContent
             (VObj [("slug", VStr "shoes")]) VUndefined
             [settings]
             [rivalDeclaredProps; rivalBlockProps; rivalContent; routing]
             rivalParentProps "appSettings" (VObj [("enableLazyFooter", VBool false)])
             eq_refl eq_refl _)).
    intros h [<- | [<- | [<- | [<- | []]]]]; reflexivity.
Defined.

Lemma appSettings_layer_witness :
  lookup "appSettings"
         (mergedProps storeSettings (Some "Shelf") shelfParentProps shelfDeclaredProps
                      None shelfContent VUndefined VUndefined)
  = Some (VObj [])
  /\ lookup "appSettings"
            (mergedProps storeSettings (Some "vtex.store@2.x/Shelf") shelfParentProps
                         shelfDeclaredProps None shelfContent VUndefined VUndefined)
     = Some (VObj [("enableLazyFooter", VBool true)])
  /\ lookup "appSettings"
            (mergedProps storeSettings (Some "vtex.menu@2.x/Menu") shelfParentProps
                         shelfDeclaredProps None shelfContent VUndefined VUndefined)
     = None.
Proof.
  split; [| split].
  - exact (proj1 (appSettings_layer storeSettings (Some "Shelf") shelfParentProps
                    shelfDeclaredProps None shelfContent VUndefined VUndefined
                    eq_refl eq_refl eq_refl eq_refl)).
  - exact (proj1 (appSettings_layer storeSettings (Some "vtex.store@2.x/Shelf")
                    shelfParentProps shelfDeclaredProps None shelfContent
                    VUndefined VUndefined eq_refl eq_refl eq_refl eq_refl)).
  - exact (proj1 (appSettings_layer storeSettings (Some "vtex.menu@2.x/Menu")
                    shelfParentProps shelfDeclaredProps None shelfContent
                    VUndefined VUndefined eq_refl eq_refl eq_refl eq_refl)).
Defined.

(** C10, counterexample: for the component id "Shelf", which has no
    '@', the merged props hold the key "appSettings" although no other
    layer binds it, so they are not what the five remaining layers
    alone would give. *)
Lemma appSettings_present_without_app_name :
  ~ (forall (getSettings : string -> Val) (c : string)
            (parentProps extensionProps : Obj) (blockProps : option Obj)
            (content params query : Val),
        includes c "@" = false ->
        lookup "appSettings"
               (mergedProps getSettings (Some c) parentProps extensionProps
                            blockProps content params query)
        = lookup "appSettings"
                 (mergeLayers [parentProps; extensionProps;
                               match blockProps with Some o => o | None => [] end;
                               ownProps content;
                               [("params", params); ("query", query)]])).
Proof.
  intros H.
  specialize (H storeSettings "Shelf" [] [] None (VObj []) VUndefined VUndefined eq_refl).
  vm_compute in H. discriminate H.
Qed.

End PropMergerScenarios.

(* ================================================================== *)
(** * Slot materializer: [DynamicSlot] *)
(* ================================================================== *)

Section SlotMaterializer.
Import JS ExtensionPoint Slots.

Variable JSON_parse : string -> option Val.

(** C6 (as amended).  Once the fetch has settled without error: the
    entry at index 1 decides the content when its [contentJSON] is
    non-empty and parses to something that is not null; with no entry
    at index 1, the entry at index 0 does when its [contentJSON] is
    non-empty; with no entry at all the content is undefined.  A
    truthy content is stored on a copy of the base entry under the
    dynamic path; a falsy one leaves the base entry aliased, unchanged,
    under the dynamic path.  No other key of the registry changes. *)
Theorem DynamicSlot_content
        (treePath baseTreePath : string) (exts : Extensions) (slotProps : Obj)
        (q : QueryState) :
  loading q = false ->
  error q = false ->
  (forall entries e1 v,
      data q = Some entries -> nth_error entries 1 = Some e1 ->
      nonEmpty (contentJSON e1) = true -> JSON_parse (contentJSON e1) = Some v ->
      nullish v = false ->
      extensionContentOf JSON_parse q = Some v)
  /\ (forall entries e0 v,
         data q = Some entries -> nth_error entries 1 = None ->
         nth_error entries 0 = Some e0 ->
         nonEmpty (contentJSON e0) = true -> JSON_parse (contentJSON e0) = Some v ->
         extensionContentOf JSON_parse q = Some v)
  /\ ((data q = None \/ data q = Some []) ->
      extensionContentOf JSON_parse q = Some VUndefined)
  /\ (forall v,
         extensionContentOf JSON_parse q = Some v -> truthy v = false ->
         DynamicSlot JSON_parse treePath baseTreePath exts slotProps q
         = Returned (assign exts treePath (exts baseTreePath)) (Some slotProps))
  /\ (forall v,
         extensionContentOf JSON_parse q = Some v -> truthy v = true ->
         DynamicSlot JSON_parse treePath baseTreePath exts slotProps q
         = Returned
             (assign exts treePath
                match exts baseTreePath with
                | Present base =>
                    Present (mkExtension (component base) (ExtensionPoint.props base)
                                         (Some v) (blocks base)
                                         (composition base) (blockId base))
                | _ => Null
                end)
             (Some (spread slotProps (ownProps v))))
  /\ (forall exts' out k,
         DynamicSlot JSON_parse treePath baseTreePath exts slotProps q
         = Returned exts' out ->
         k <> treePath -> exts' k = exts k).
Proof.
  intros Hload Herr. repeat split.
  - intros entries e1 v Hd H1 Hne Hp Hn.
    unfold extensionContentOf, candidate. rewrite Hd, H1, Hne, Hp, Hn. reflexivity.
  - intros entries e0 v Hd H1 H0 Hne Hp.
    unfold extensionContentOf, candidate. rewrite Hd, H1. cbn [nullish].
    rewrite H0, Hne. exact Hp.
  - intros [Hd | Hd]; unfold extensionContentOf, candidate; rewrite Hd; reflexivity.
  - intros v Hv Hf. unfold DynamicSlot. rewrite Hv, Hf, Hload, Herr. reflexivity.
  - intros v Hv Ht. unfold DynamicSlot. rewrite Hv, Ht, Hload, Herr. reflexivity.
  - intros exts' out k. unfold DynamicSlot.
    destruct (extensionContentOf JSON_parse q) as [v|]; [|discriminate].
    rewrite Hload, Herr. intros [= <- _] Hk.
    apply String.eqb_neq in Hk.
    destruct (truthy v); unfold assign; simpl; now rewrite Hk.
Qed.

End SlotMaterializer.

Section SlotMaterializerScenarios.
Import JS ExtensionPoint Slots Scenario.

Lemma DynamicSlot_content_witness :
  extensionContentOf parseContent
    (mkQuery (Some [mkContent (titleJSON "override"); mkContent (titleJSON "default")])
             false false)
  = Some (VObj [("title", VStr "default")])
  /\ DynamicSlot parseContent "store.home/banner#slot7" "store.home/banner"
                 registryBanner [("id", VStr "7")]
                 (mkQuery (Some [mkContent ""]) false false)
     = Returned (assign registryBanner "store.home/banner#slot7" (Present bannerBase))
                (Some [("id", VStr "7")]).
Proof.
  split.
  - refine (proj1 (DynamicSlot_content parseContent "store.home/banner#slot7"
             "store.home/banner" registryBanner [("id", VStr "7")]
             (mkQuery (Some [mkContent (titleJSON "override");
                             mkContent (titleJSON "default")]) false false)
             eq_refl eq_refl) _ (mkContent (titleJSON "default")) _
             eq_refl eq_refl eq_refl eq_refl eq_refl).
  - refine (proj1 (proj2 (proj2 (proj2
             (DynamicSlot_content parseContent "store.home/banner#slot7"
                "store.home/banner" registryBanner [("id", VStr "7")]
                (mkQuery (Some [mkContent ""]) false false) eq_refl eq_refl))))
             (VStr "") eq_refl eq_refl).
Defined.

(** C6, counterexample: the fetch returns two entries, both with a
    non-empty [contentJSON]; the content taken is the one of the entry
    at index 1, which the order [override, default] makes the default,
    and not the one of the override at index 0. *)
Lemma DynamicSlot_prefers_second_entry :
  ~ (forall (JSON_parse : string -> option Val) (override default : ContentEntry)
            (v : Val),
        nonEmpty (contentJSON override) = true ->
        JSON_parse (contentJSON override) = Some v ->
        extensionContentOf JSON_parse (mkQuery (Some [override; default]) false false)
        = Some v).
Proof.
  intros H.
  specialize (H parseContent (mkContent (titleJSON "override"))
                (mkContent (titleJSON "default"))
                (VObj [("title", VStr "override")]) eq_refl eq_refl).
  vm_compute in H. discriminate H.
Qed.

End SlotMaterializerScenarios.

(* ================================================================== *)
(** * Hydration gate: readiness verification *)
(* ================================================================== *)

Section Readiness.
Import JS PreventHydration.

Variable World : Type.
Variable componentAt : World -> Val.
Variable getImplementation : World -> Val -> bool.
Variable elapse : Z -> World -> World.

Local Abbreviation verify := (verifyComponentImplementation World componentAt getImplementation elapse).
Local Abbreviation isReady := (ready World componentAt getImplementation).
Local Abbreviation at_check := (checkpoint World elapse).

Lemma verify_ready_now (retries : nat) (w : World) :
  isReady w = true -> verify retries w = ([], Resolved true).
Proof.
  unfold ready. intros H. destruct retries; simpl; now rewrite H.
Qed.

Lemma verify_retry (retries : nat) (w : World) :
  isReady w = false ->
  verify (S retries) w
  = let timeout := (1100 - Z.of_nat (S retries) * 100)%Z in
    (timeout :: fst (verify retries (elapse timeout w)),
     snd (verify retries (elapse timeout w))).
Proof.
  unfold ready. intros H. cbn [verifyComponentImplementation]. rewrite H.
  destruct (verify retries _); reflexivity.
Qed.

(** The implementation shows up at the [k]-th re-check. *)
Lemma verify_ready_at (retries : nat) :
  forall (k : nat) (w : World),
    k <= retries ->
    isReady (at_check retries k w) = true ->
    (forall j, j < k -> isReady (at_check retries j w) = false) ->
    verify retries w = (firstn k (scheduleFrom retries), Resolved true).
Proof.
  induction retries as [|r IH]; intros k w Hk Hready Hbefore.
  - assert (k = 0) by lia. subst k. now apply verify_ready_now.
  - destruct k as [|k].
    + now apply verify_ready_now.
    + rewrite verify_retry by (apply (Hbefore 0); lia).
      cbv zeta. rewrite (IH k).
      * reflexivity.
      * lia.
      * exact Hready.
      * intros j Hj. apply (Hbefore (S j)). lia.
Qed.

(** The implementation never shows up. *)
Lemma verify_never_ready (retries : nat) :
  forall w : World,
    (forall j, j <= retries -> isReady (at_check retries j w) = false) ->
    verify retries w
    = (scheduleFrom retries,
       Rejected ("Unable to fetch component "
                   ++ toStr (componentAt (at_check retries retries w)))).
Proof.
  induction retries as [|r IH]; intros w Hnever.
  - pose proof (Hnever 0 (le_n 0)) as H0. unfold ready, checkpoint in H0.
    simpl in H0. simpl. now rewrite H0.
  - rewrite verify_retry by (apply (Hnever 0); lia).
    cbv zeta. rewrite IH.
    + reflexivity.
    + intros j Hj. apply (Hnever (S j)). lia.
Qed.

Lemma verify_waits_bounded (retries : nat) :
  forall w : World, List.length (fst (verify retries w)) <= retries.
Proof.
  induction retries as [|r IH]; intros w.
  - simpl. destruct (truthy (componentAt w) && getImplementation w (componentAt w));
      simpl; lia.
  - destruct (isReady w) eqn:E.
    + rewrite verify_ready_now by exact E. simpl. lia.
    + rewrite verify_retry by exact E. cbv zeta. cbn [fst List.length].
      specialize (IH (elapse (1100 - Z.of_nat (S r) * 100)%Z w)). lia.
Qed.

(** C3 (as amended).  The verification checks once and then retries at
    most 10 times.  The wait before a retry is 1100 - retries*100 ms
    with [retries] the number of retries still left, so the waits are
    100, 200, ..., 1000 ms: they grow, the first retry waits 100 ms
    and the last 1000 ms, 5500 ms in all.  It resolves true at the
    first check that finds the implementation, and when all eleven
    checks fail it rejects with "Unable to fetch component ...". *)
Theorem verify_bounded_backoff (w : World) :
  scheduleFrom defaultRetries = [100; 200; 300; 400; 500; 600; 700; 800; 900; 1000]%Z
  /\ fold_right Z.add 0%Z (scheduleFrom defaultRetries) = 5500%Z
  /\ List.length
       (fst (verifyDefault World componentAt getImplementation elapse w)) <= 10
  /\ (forall k,
         k <= 10 ->
         isReady (at_check defaultRetries k w) = true ->
         (forall j, j < k -> isReady (at_check defaultRetries j w) = false) ->
         verifyDefault World componentAt getImplementation elapse w
         = (firstn k (scheduleFrom defaultRetries), Resolved true))
  /\ ((forall j, j <= 10 -> isReady (at_check defaultRetries j w) = false) ->
      verifyDefault World componentAt getImplementation elapse w
      = (scheduleFrom defaultRetries,
         Rejected ("Unable to fetch component "
                     ++ toStr (componentAt (at_check defaultRetries 10 w))))).
Proof.
  split; [reflexivity|]. split; [reflexivity|].
  split; [apply verify_waits_bounded|].
  split.
  - intros k Hk. apply verify_ready_at. exact Hk.
  - apply verify_never_ready.
Qed.

End Readiness.

Section ReadinessScenarios.
Import JS PreventHydration.

(** A world in which time passes and nothing else happens: the
    component "vtex.store@2.x/Shelf" never gets an implementation. *)
Lemma verify_bounded_backoff_witness :
  verifyDefault Z (fun _ => VStr "vtex.store@2.x/Shelf") (fun _ _ => false)
                (fun timeout now => (now + timeout)%Z) 0%Z
  = ([100; 200; 300; 400; 500; 600; 700; 800; 900; 1000]%Z,
     Rejected "Unable to fetch component vtex.store@2.x/Shelf")
  /\ verifyDefault Z (fun _ => VStr "vtex.store@2.x/Shelf")
                   (fun now _ => (300 <=? now)%Z)
                   (fun timeout now => (now + timeout)%Z) 0%Z
     = ([100; 200]%Z, Resolved true).
Proof.
  split.
  - refine (proj2 (proj2 (proj2 (proj2
             (verify_bounded_backoff Z (fun _ => VStr "vtex.store@2.x/Shelf")
                (fun _ _ => false) (fun timeout now => (now + timeout)%Z) 0%Z)))) _).
    intros j _. reflexivity.
  - refine (proj1 (proj2 (proj2 (proj2
             (verify_bounded_backoff Z (fun _ => VStr "vtex.store@2.x/Shelf")
                (fun now _ => (300 <=? now)%Z)
                (fun timeout now => (now + timeout)%Z) 0%Z)))) 2 _ eq_refl _).
    + lia.
    + intros j Hj. destruct j as [|[|j]]; [reflexivity | reflexivity | lia].
Defined.

(** C3, counterexample: when the implementation never shows up the
    waits are 100, 200, ..., 1000 ms; the first retry waits 100 ms,
    not 1000 ms, and the last one 1000 ms, not 100 ms. *)
Lemma verify_waits_grow :
  let waits := fst (verifyDefault Z (fun _ => VStr "vtex.store@2.x/Shelf")
                                  (fun _ _ => false)
                                  (fun timeout now => (now + timeout)%Z) 0%Z) in
  waits = [100; 200; 300; 400; 500; 600; 700; 800; 900; 1000]%Z
  /\ waits <> map (fun attempt => (1100 - Z.of_nat attempt * 100)%Z) (seq 1 10)
  /\ nth 0 waits 0%Z <> 1000%Z
  /\ nth 9 waits 0%Z <> 100%Z.
Proof. vm_compute. repeat split; discriminate. Qed.

End ReadinessScenarios.

(* ================================================================== *)
(** * Hydration gate: frozen and live views *)
(* ================================================================== *)

Section HydrationGate.
Import JS PreventHydration.

Variable canUseDOM : bool.
Variable treePath : string.

(** The gate of a subtree that was rendered on the server. *)
Local Abbreviation view := (render true).
Local Abbreviation next := (step true canUseDOM treePath).
Local Abbreviation exec := (run true canUseDOM treePath).

(** When a server-rendered subtree shows its live children. *)
Lemma view_live (g : Gate) :
  view g = Live <->
  flagTruthy (shouldHydrate g) = true
  /\ (initialShouldHydrate g = Some true \/ isLoaded g = true).
Proof.
  unfold render, shouldRenderImmediately.
  destruct g as [[[|]|] [|] pending [[|]|]]; simpl; split;
    intros H; try discriminate; try reflexivity; try tauto;
    try (destruct H as [H1 [H2 | H2]]; discriminate).
Qed.

Lemma afterRender_keeps (g : Gate) :
  initialShouldHydrate (afterRender true canUseDOM treePath g) = initialShouldHydrate g
  /\ isLoaded (afterRender true canUseDOM treePath g) = isLoaded g
  /\ shouldHydrate (afterRender true canUseDOM treePath g) = shouldHydrate g.
Proof.
  unfold afterRender.
  destruct (negb (isLoaded g) && nonEmpty treePath
            && (shouldRenderImmediately true g || flagTruthy (shouldHydrate g)));
    simpl; auto.
Qed.

(** The captured flag never changes and [isLoaded] never goes back. *)
Lemma step_keeps (g : Gate) (e : Event) :
  initialShouldHydrate (next g e) = initialShouldHydrate g
  /\ (isLoaded g = true -> isLoaded (next g e) = true).
Proof.
  destruct e as [sh|]; unfold step.
  - destruct (afterRender_keeps (mkGate (initialShouldHydrate g) (isLoaded g)
                                        (loadPending g) sh)) as (Hi & Hl & _).
    split; [exact Hi | intros H; rewrite Hl; exact H].
  - destruct (loadPending g); [|auto].
    destruct (afterRender_keeps (mkGate (initialShouldHydrate g) true false
                                        (shouldHydrate g))) as (Hi & Hl & _).
    split; [exact Hi | intros _; exact Hl].
Qed.

Lemma run_keeps (events : list Event) :
  forall g : Gate,
    initialShouldHydrate (exec g events) = initialShouldHydrate g
    /\ (isLoaded g = true -> isLoaded (exec g events) = true).
Proof.
  induction events as [|e events IH]; intros g; simpl; [auto|].
  destruct (IH (next g e)) as [Hi Hl].
  destruct (step_keeps g e) as [Hi' Hl'].
  unfold run in *. simpl. rewrite Hi, Hi'. auto.
Qed.

(** C5 (as amended).  For a server-rendered subtree the gate shows the
    frozen branch at every render whose [shouldHydrate] is falsy, also
    after it has been live; what cannot happen is that a gate that has
    been live shows the frozen branch at a later render whose
    [shouldHydrate] is true. *)
Theorem gate_live_while_hydrating (g : Gate) (events : list Event) :
  view g = Live ->
  (flagTruthy (shouldHydrate (exec g events)) = true ->
   view (exec g events) = Live)
  /\ (flagTruthy (shouldHydrate (exec g events)) = false ->
      view (exec g events) = Frozen).
Proof.
  intros Hlive. apply view_live in Hlive. destruct Hlive as [_ Hwas].
  destruct (run_keeps events g) as [Hi Hl].
  split.
  - intros Hsh. apply view_live. split; [exact Hsh|].
    destruct Hwas as [H | H]; [left; now rewrite Hi | right; now apply Hl].
  - intros Hsh. unfold render, shouldRenderImmediately. rewrite Hsh. simpl.
    now rewrite andb_false_r.
Qed.

End HydrationGate.

Section HydrationGateScenarios.
Import JS PreventHydration.

Lemma gate_live_while_hydrating_witness :
  let g := mount true true "store.home/shelf" (Some true) in
  render true g = Live
  /\ render true (run true true "store.home/shelf" g
                      [NewProps (Some false); AssetsLoaded; NewProps (Some true)])
     = Live
  /\ render true (run true true "store.home/shelf" g [NewProps (Some false)]) = Frozen.
Proof.
  intros g. split; [reflexivity | split].
  - exact (proj1 (gate_live_while_hydrating true "store.home/shelf" g
                    [NewProps (Some false); AssetsLoaded; NewProps (Some true)]
                    eq_refl) eq_refl).
  - exact (proj2 (gate_live_while_hydrating true "store.home/shelf" g
                    [NewProps (Some false)] eq_refl) eq_refl).
Defined.

(** C5, counterexample: a server-rendered subtree mounted with
    [shouldHydrate] true is live at once; a re-render with
    [shouldHydrate] false then returns the frozen branch. *)
Lemma gate_freezes_again :
  render true (mount true true "store.home/shelf" (Some true)) = Live
  /\ views true true "store.home/shelf" (mount true true "store.home/shelf" (Some true))
           [NewProps (Some false)]
     = [Frozen].
Proof. split; reflexivity. Qed.

End HydrationGateScenarios.

(* ================================================================== *)
(** * Critical-style activation *)
(* ================================================================== *)

Section CriticalStyles.
Import JS Uncritical.

Variable debugCriticalCSS : option string.
Variable matchMedia : string -> bool.

Local Abbreviation register := (registerLoadedStyle debugCriticalCSS).
Local Abbreviation on := (handle debugCriticalCSS).
Local Abbreviation exec := (run debugCriticalCSS).
Local Abbreviation registered := (Uncritical.registered matchMedia).

Lemma optEqb_eq (a b : option string) : optEqb a b = true <-> a = b.
Proof.
  destruct a as [a|], b as [b|]; simpl; try (split; congruence).
  rewrite String.eqb_eq. split; congruence.
Qed.

Lemma setHas_In (id : option string) (l : list (option string)) :
  setHas id l = true <-> In id l.
Proof.
  unfold setHas. rewrite existsb_exists. split.
  - intros (x & Hx & E). apply optEqb_eq in E. now subst.
  - intros H. exists id. split; [exact H | now apply optEqb_eq].
Qed.

Lemma setHas_not_In (id : option string) (l : list (option string)) :
  setHas id l = false <-> ~ In id l.
Proof.
  rewrite <- setHas_In. destruct (setHas id l); split; congruence.
Qed.

Lemma sameCore_refl (s : State) : sameCore s s.
Proof. repeat split. Qed.

Lemma sameCore_trans (a b c : State) : sameCore a b -> sameCore b c -> sameCore a c.
Proof.
  unfold sameCore. intros (H1 & H2 & H3 & H4 & H5) (K1 & K2 & K3 & K4 & K5).
  repeat split; congruence.
Qed.

Lemma activations_log (line : LogLine) (s : State) :
  activations (log line s)
  = activations s + match line with LogFinished _ => 1 | _ => 0 end.
Proof.
  unfold activations, log. simpl. rewrite filter_app, length_app.
  destruct line; reflexivity.
Qed.

Lemma hydrateStyle_core (id : option string) (s : State) :
  sameCore s (hydrateStyle id s).
Proof.
  unfold hydrateStyle. destruct id as [i|]; [|apply sameCore_refl].
  destruct (nonEmpty i && hasLink i (dom s)); [|apply sameCore_refl].
  unfold sameCore. simpl. repeat split.
  change (activations (log (LogHydrating i) s) = activations s).
  rewrite activations_log. lia.
Qed.

Lemma hydrateAll_core (ids : list (option string)) :
  forall s, sameCore s (fold_left (fun acc id => hydrateStyle id acc) ids s).
Proof.
  induction ids as [|id ids IH]; intros s; simpl; [apply sameCore_refl|].
  eapply sameCore_trans; [apply hydrateStyle_core | apply IH].
Qed.

(** [applyUncritical] is the activation: it keeps the recorded ids and
    the counter, sets the flag, removes the critical block and is
    counted once. *)
Lemma applyUncritical_effect (s : State) :
  let s' := applyUncritical s in
  loadedStyles s' = loadedStyles s
  /\ totalStylesCount s' = totalStylesCount s
  /\ stylesHydrated s' = true
  /\ critical (dom s') = false
  /\ activations s' = S (activations s).
Proof.
  cbv zeta. unfold applyUncritical.
  destruct (hydrateAll_core (loadedStyles s) s) as (H1 & H2 & H3 & H4 & H5).
  set (s1 := fold_left (fun acc id => hydrateStyle id acc) (loadedStyles s) s) in *.
  rewrite activations_log. unfold activations in *. simpl.
  repeat split; try assumption. lia.
Qed.

(** One event, seen through the recorded ids, the flag, the critical
    block and the number of activations.  [fires] says whether this
    event is the one that activates. *)
Lemma handle_core (e : Event) (s : State) :
  if setHas (resolved e) (loadedStyles s) then on s e = s
  else
    let fires := negb (stylesHydrated s)
                 && Nat.eqb (S (List.length (loadedStyles s))) (totalStylesCount s)
                 && negb (isManual debugCriticalCSS) in
    loadedStyles (on s e) = (loadedStyles s ++ [resolved e])%list
    /\ totalStylesCount (on s e) = totalStylesCount s
    /\ stylesHydrated (on s e) = (stylesHydrated s || fires)
    /\ activations (on s e) = activations s + (if fires then 1 else 0)
    /\ critical (dom (on s e)) = (critical (dom s) && negb fires).
Proof.
  assert (Hreg : forall styleId status,
    let id := match status with Loaded => Some styleId | Errored => None end in
    if setHas id (loadedStyles s) then register styleId status s = s
    else
      let fires := negb (stylesHydrated s)
                   && Nat.eqb (S (List.length (loadedStyles s))) (totalStylesCount s)
                   && negb (isManual debugCriticalCSS) in
      loadedStyles (register styleId status s) = (loadedStyles s ++ [id])%list
      /\ totalStylesCount (register styleId status s) = totalStylesCount s
      /\ stylesHydrated (register styleId status s) = (stylesHydrated s || fires)
      /\ activations (register styleId status s)
         = activations s + (if fires then 1 else 0)
      /\ critical (dom (register styleId status s)) = (critical (dom s) && negb fires)).
  { intros styleId status id. unfold registerLoadedStyle. fold id.
    destruct (setHas id (loadedStyles s)); [reflexivity|].
    cbv zeta. cbn [loadedStyles totalStylesCount stylesHydrated].
    rewrite length_app. cbn [List.length]. rewrite Nat.add_1_r.
    destruct (stylesHydrated s) eqn:Hh.
    - match goal with
      | |- context [hydrateStyle id ?x] =>
          destruct (hydrateStyle_core id x) as (H1 & H2 & H3 & H4 & H5)
      end.
      rewrite H1, H2, H3, H4, H5, activations_log. simpl.
      rewrite ?andb_true_r. unfold activations. simpl. repeat split; lia.
    - cbn [negb andb orb].
      destruct (Nat.eqb (S (List.length (loadedStyles s))) (totalStylesCount s)
                && negb (isManual debugCriticalCSS)).
      + match goal with
        | |- context [applyUncritical ?x] =>
            destruct (applyUncritical_effect x) as (H1 & H2 & H3 & H4 & H5)
        end.
        rewrite H1, H2, H3, H4, H5, activations_log. simpl.
        rewrite ?andb_false_r. unfold activations. simpl. repeat split; lia.
      + simpl. rewrite ?andb_true_r. unfold activations. simpl.
        repeat split; lia. }
  destruct e as [i | i]; [exact (Hreg i Loaded) | exact (Hreg i Errored)].
Qed.

Lemma hasLink_relOf (i : string) (d : Dom) :
  hasLink i d = true <-> relOf i (links d) <> None.
Proof.
  unfold hasLink. induction (links d) as [|l ls IH]; simpl.
  - split; [discriminate | congruence].
  - destruct (String.eqb (fst l) i); simpl; [split; [discriminate | reflexivity] | exact IH].
Qed.

Lemma relOf_setRelIn (i j rel : string) (ls : list (string * string)) :
  relOf i (setRelIn j rel ls)
  = if String.eqb i j
    then match relOf i ls with Some _ => Some rel | None => None end
    else relOf i ls.
Proof.
  induction ls as [|l ls IH]; simpl.
  - destruct (String.eqb i j); reflexivity.
  - destruct (String.eqb_spec (fst l) j) as [Hj | Hj]; simpl.
    + rewrite Hj. destruct (String.eqb_spec i j) as [-> | Hij].
      * now rewrite String.eqb_refl.
      * rewrite String.eqb_sym. apply String.eqb_neq in Hij. now rewrite Hij.
    + rewrite IH. destruct (String.eqb_spec i j) as [-> | Hij]; [|reflexivity].
      apply String.eqb_neq in Hj. now rewrite Hj.
Qed.

(** Promoting a style never takes a link away, never demotes a
    promoted link, and promotes the link of the style itself when the
    document has it. *)
Lemma hydrateStyle_rel (id : option string) (s : State) (i : string) :
  (relOf i (links (dom s)) <> None ->
   relOf i (links (dom (hydrateStyle id s))) <> None)
  /\ (relOf i (links (dom s)) = Some "stylesheet" ->
      relOf i (links (dom (hydrateStyle id s))) = Some "stylesheet")
  /\ (id = Some i -> nonEmpty i = true -> relOf i (links (dom s)) <> None ->
      relOf i (links (dom (hydrateStyle id s))) = Some "stylesheet").
Proof.
  unfold hydrateStyle. destruct id as [j|].
  - destruct (nonEmpty j && hasLink j (dom s)) eqn:E.
    + cbn [dom log setRel links]. rewrite relOf_setRelIn.
      destruct (String.eqb_spec i j) as [-> | Hij];
        destruct (relOf _ (links (dom s))); repeat split; congruence.
    + repeat split; try tauto.
      intros [= ->] Hne Hlink. apply hasLink_relOf in Hlink.
      rewrite Hne, Hlink in E. discriminate E.
  - repeat split; try tauto. discriminate.
Qed.

(** The activation promotes every recorded style whose link is in the
    document. *)
Lemma applyUncritical_promotes (s : State) (i : string) :
  In (Some i) (loadedStyles s) -> nonEmpty i = true -> hasLink i (dom s) = true ->
  relOf i (links (dom (applyUncritical s))) = Some "stylesheet".
Proof.
  intros Hin Hne Hlink. apply hasLink_relOf in Hlink.
  unfold applyUncritical. cbn [dom log clearCritical links].
  revert Hin Hlink. generalize (loadedStyles s) as ids. generalize s as st.
  intros st ids. revert st.
  induction ids as [|id ids IH]; intros st Hin Hlink; [destruct Hin|].
  simpl. destruct (hydrateStyle_rel id st i) as (Hkeep & Hstay & Hset).
  destruct Hin as [-> | Hin].
  - specialize (Hset eq_refl Hne Hlink).
    clear IH. revert Hset. generalize (hydrateStyle (Some i) st) as st'.
    induction ids as [|id' ids IH]; intros st' Hst'; [exact Hst'|].
    simpl. apply IH. exact (proj1 (proj2 (hydrateStyle_rel id' st' i)) Hst').
  - apply IH; [exact Hin | now apply Hkeep].
Qed.

(** Automatic activation is on: the query does not ask for the manual
    mode. *)
Hypothesis automatic : isManual debugCriticalCSS = false.

Lemma NoDup_snoc (l : list (option string)) (x : option string) :
  NoDup l -> ~ In x l -> NoDup (l ++ [x]).
Proof.
  intros Hl Hx. apply NoDup_app; [exact Hl | repeat constructor; intros [] |].
  intros a Ha [<- | []]. contradiction.
Qed.

Lemma settled_step (N : nat) (s : State) (e : Event) :
  settled N s -> settled N (on s e).
Proof.
  intros (Ht & Hnd & Hh & Ha & Hc).
  pose proof (handle_core e s) as H.
  destruct (setHas (resolved e) (loadedStyles s)) eqn:Hhas.
  - rewrite H. repeat split; assumption.
  - apply setHas_not_In in Hhas.
    cbv zeta in H. rewrite automatic, andb_true_r, Ht in H.
    destruct H as (H1 & H2 & H3 & H4 & H5).
    unfold settled. rewrite H1, H2, H3, H4, H5, length_app. cbn [List.length].
    rewrite Nat.add_1_r.
    split; [reflexivity|]. split; [now apply NoDup_snoc|].
    rewrite Hh in *.
    destruct (Nat.leb_spec 1 N), (Nat.leb_spec N (List.length (loadedStyles s))),
      (Nat.leb_spec N (S (List.length (loadedStyles s)))),
      (Nat.eqb_spec (S (List.length (loadedStyles s))) N);
      cbn [andb orb negb] in *; try lia;
      repeat split; try reflexivity; try lia; try congruence;
      try (intros _; rewrite ?andb_false_r, ?andb_true_r; auto).
Qed.

Lemma settled_run (N : nat) (events : list Event) :
  forall s, settled N s -> settled N (exec s events).
Proof.
  induction events as [|e events IH]; intros s Hs; [exact Hs|].
  apply (IH (on s e)). now apply settled_step.
Qed.

(** An event activates exactly when it records an id that was not
    recorded before and is the [N]-th one. *)
Lemma fires_iff (N : nat) (s : State) (e : Event) :
  settled N s ->
  activations (on s e) = S (activations s)
  <-> ~ In (resolved e) (loadedStyles s) /\ S (List.length (loadedStyles s)) = N.
Proof.
  intros (Ht & Hnd & Hh & Ha & Hc).
  pose proof (handle_core e s) as H.
  destruct (setHas (resolved e) (loadedStyles s)) eqn:Hhas.
  - rewrite H. apply setHas_In in Hhas. split; [lia | tauto].
  - apply setHas_not_In in Hhas.
    cbv zeta in H. rewrite automatic, andb_true_r, Ht in H.
    destruct H as (_ & _ & _ & H4 & _). rewrite H4, Hh.
    destruct (Nat.leb_spec 1 N), (Nat.leb_spec N (List.length (loadedStyles s))),
      (Nat.eqb_spec (S (List.length (loadedStyles s))) N);
      cbn [andb orb negb]; split; intros; try split; try assumption; try lia.
Qed.

Lemma loadedStyles_step (s : State) (e : Event) (x : option string) :
  In x (loadedStyles (on s e)) <-> In x (loadedStyles s) \/ x = resolved e.
Proof.
  pose proof (handle_core e s) as H.
  destruct (setHas (resolved e) (loadedStyles s)) eqn:Hhas.
  - rewrite H. apply setHas_In in Hhas. split; [tauto|].
    intros [Hx | ->]; assumption.
  - destruct H as (H1 & _). rewrite H1, in_app_iff. simpl. intuition congruence.
Qed.

Lemma loadedStyles_run (events : list Event) :
  forall (s : State) (x : option string),
    In x (loadedStyles (exec s events))
    <-> In x (loadedStyles s) \/ In x (map (resolved) events).
Proof.
  induction events as [|e events IH]; intros s x; simpl.
  - tauto.
  - unfold run in *. simpl. rewrite IH, loadedStyles_step. intuition congruence.
Qed.

(** From an empty set on, as many ids are recorded as the events
    resolved different ones. *)
Lemma recorded_distinct (N : nat) (s : State) (events : list Event) :
  settled N s -> loadedStyles s = [] ->
  List.length (loadedStyles (exec s events)) = distinct (map resolved events).
Proof.
  intros Hs Hempty.
  destruct (settled_run N events s Hs) as (_ & Hnd & _).
  unfold distinct. apply Nat.le_antisymm.
  - apply NoDup_incl_length; [exact Hnd|].
    intros x Hx. apply loadedStyles_run in Hx. rewrite Hempty in Hx.
    apply nodup_In. destruct Hx as [[] | Hx]. exact Hx.
  - apply NoDup_incl_length; [apply NoDup_nodup|].
    intros x Hx. apply nodup_In in Hx. apply loadedStyles_run. now right.
Qed.

Lemma createLinks_state (refs : list (option StyleRef)) :
  forall (index : nat) (s : State),
    let s' := createLinks matchMedia refs index s in
    loadedStyles s' = loadedStyles s
    /\ stylesHydrated s' = stylesHydrated s
    /\ console s' = console s
    /\ totalStylesCount s' = totalStylesCount s + List.length (filter registered refs).
Proof.
  induction refs as [|r refs IH]; intros index s; cbv zeta; simpl.
  - repeat split. lia.
  - destruct (IH (S index) (createUncriticalLink matchMedia r index s))
      as (H1 & H2 & H3 & H4).
    rewrite H1, H2, H3, H4. unfold createUncriticalLink, registered.
    destruct r as [r|]; [destruct (shouldAppend matchMedia r)|]; simpl;
      repeat split; lia.
Qed.

Lemma createLinks_settled (refs : list (option StyleRef)) (d : Dom) :
  settled (List.length (filter registered refs))
          (createLinks matchMedia refs 0 (initial d))
  /\ loadedStyles (createLinks matchMedia refs 0 (initial d)) = [].
Proof.
  destruct (createLinks_state refs 0 (initial d)) as (H1 & H2 & H3 & H4).
  simpl in H1, H2, H3, H4. split; [|exact H1].
  unfold settled, activations. rewrite H1, H2, H3, H4. simpl.
  repeat split; try constructor; try discriminate.
  destruct (List.length (filter registered refs)); reflexivity.
Qed.

(** The event that activates promotes every style recorded by then
    whose link is in the document. *)
Lemma activation_promotes (s : State) (e : Event) (i : string) :
  activations (on s e) = S (activations s) ->
  stylesHydrated s = false ->
  In (Some i) (loadedStyles (on s e)) -> nonEmpty i = true ->
  hasLink i (dom s) = true ->
  relOf i (links (dom (on s e))) = Some "stylesheet".
Proof.
  assert (Hreg : forall styleId status,
             activations (register styleId status s) = S (activations s) ->
             stylesHydrated s = false ->
             In (Some i) (loadedStyles (register styleId status s)) ->
             nonEmpty i = true -> hasLink i (dom s) = true ->
             relOf i (links (dom (register styleId status s))) = Some "stylesheet").
  { intros styleId status. unfold registerLoadedStyle.
    set (id := match status with Loaded => Some styleId | Errored => None end).
    destruct (setHas id (loadedStyles s)); [lia|].
    cbv zeta. cbn [loadedStyles totalStylesCount stylesHydrated].
    intros Hfires Hcold. rewrite Hcold in *.
    destruct (Nat.eqb (List.length (loadedStyles s ++ [id])) (totalStylesCount s)
              && negb (isManual debugCriticalCSS)).
    - intros Hin Hne Hlink.
      match goal with
      | |- context [applyUncritical ?x] =>
          destruct (applyUncritical_effect x) as (Hsame & _);
          rewrite Hsame in Hin;
          exact (applyUncritical_promotes x i Hin Hne Hlink)
      end.
    - unfold activations in Hfires. cbn [console] in Hfires. lia. }
  destruct e as [styleId | styleId];
    [exact (Hreg styleId Loaded) | exact (Hreg styleId Errored)].
Qed.

(** C4.  With automatic activation on, let N be the number of
    registered style refs whose media matches.  An event activates
    (promotes every recorded style whose link is in the document,
    removes the critical block) exactly when it records a resolved id
    not recorded before and that id is the N-th different one; over a
    run activation happens once if N is at least 1 and N different ids
    get recorded, and not at all otherwise, so never when N is 0.  A
    load resolves to the id of its style and every failure to the one
    id null.  With two styles, the first loaded and the second failed,
    activation happens at the second event, promotes the loaded one
    only and removes the critical block.  With three styles, the first
    loaded and the other two failed, every style has resolved and only
    two different ids are recorded: activation does not happen, the
    loaded style stays a preload link and the critical block stays. *)
Theorem activation_at_nth_distinct_id
        (refs : list (option StyleRef)) (d : Dom) (events : list Event) :
  let s0 := createLinks matchMedia refs 0 (initial d) in
  let N := List.length (filter registered refs) in
  totalStylesCount s0 = N
  /\ (forall before e,
         activations (exec s0 (before ++ [e])) = S (activations (exec s0 before))
         <-> ~ In (resolved e) (map resolved before)
             /\ S (distinct (map resolved before)) = N)
  /\ (forall before e i,
         activations (exec s0 (before ++ [e])) = S (activations (exec s0 before)) ->
         In (Some i) (map resolved (before ++ [e])) -> nonEmpty i = true ->
         hasLink i (dom (exec s0 before)) = true ->
         relOf i (links (dom (exec s0 (before ++ [e])))) = Some "stylesheet"
         /\ critical (dom (exec s0 (before ++ [e]))) = false)
  /\ activations (exec s0 events)
     = (if Nat.leb 1 N && Nat.leb N (distinct (map resolved events)) then 1 else 0)
  /\ (N = 0 -> activations (exec s0 events) = 0)
  /\ (activations (exec s0 events) = 1 ->
      stylesHydrated (exec s0 events) = true
      /\ critical (dom (exec s0 events)) = false)
  /\ (let two := [Some (mkRef "base.css" None); Some (mkRef "overrides.css" None)] in
      let start := createLinks matchMedia two 0 (initial (mkDom [] true)) in
      let first := on start (OnLoad (linkId 0)) in
      let second := on first (OnError (linkId 1)) in
      totalStylesCount start = 2
      /\ activations first = 0
      /\ critical (dom first) = true
      /\ activations second = 1
      /\ loadedStyles second = [Some (linkId 0); None]
      /\ links (dom second) = [(linkId 0, "stylesheet"); (linkId 1, "preload")]
      /\ critical (dom second) = false)
  /\ (let three := [Some (mkRef "base.css" None); Some (mkRef "theme.css" None);
                    Some (mkRef "overrides.css" None)] in
      let start := createLinks matchMedia three 0 (initial (mkDom [] true)) in
      let resolved_all :=
        exec start [OnLoad (linkId 0); OnError (linkId 1); OnError (linkId 2)] in
      totalStylesCount start = 3
      /\ loadedStyles resolved_all = [Some (linkId 0); None]
      /\ activations resolved_all = 0
      /\ stylesHydrated resolved_all = false
      /\ links (dom resolved_all)
         = [(linkId 0, "preload"); (linkId 1, "preload"); (linkId 2, "preload")]
      /\ critical (dom resolved_all) = true).
Proof.
  cbv zeta.
  destruct (createLinks_settled refs d) as [Hs Hempty].
  set (s0 := createLinks matchMedia refs 0 (initial d)) in *.
  set (N := List.length (filter registered refs)) in *.
  assert (Hcount : activations (exec s0 events)
                   = if Nat.leb 1 N && Nat.leb N (distinct (map resolved events))
                     then 1 else 0).
  { destruct (settled_run N events s0 Hs) as (_ & _ & Hh & Ha & _).
    rewrite Ha, Hh, (recorded_distinct N s0 events Hs Hempty). reflexivity. }
  split; [apply Hs|].
  split; [|split; [|split; [exact Hcount | split; [|split; [|split]]]]].
  - intros before e. unfold run. rewrite fold_left_app. simpl.
    pose proof (settled_run N before s0 Hs) as Hb.
    rewrite (fires_iff N _ e Hb).
    rewrite <- (recorded_distinct N s0 before Hs Hempty).
    split; intros [Hnew Hn]; (split; [|exact Hn]); intros Hin; apply Hnew.
    + apply loadedStyles_run. now right.
    + apply loadedStyles_run in Hin. rewrite Hempty in Hin.
      destruct Hin as [[] | Hin]. exact Hin.
  - intros before e i Hfires Hin Hne Hlink.
    pose proof (settled_run N before s0 Hs) as (_ & _ & _ & Ha & _).
    pose proof (settled_run N (before ++ [e]) s0 Hs) as (_ & _ & _ & Ha' & Hc').
    assert (Hcold : stylesHydrated (exec s0 before) = false).
    { destruct (stylesHydrated (exec s0 before)),
        (stylesHydrated (exec s0 (before ++ [e]))); try reflexivity; lia. }
    assert (Hhot : stylesHydrated (exec s0 (before ++ [e])) = true).
    { destruct (stylesHydrated (exec s0 (before ++ [e]))); [reflexivity|].
      rewrite Hcold in Ha. lia. }
    split; [|exact (Hc' Hhot)].
    assert (Hrec : In (Some i) (loadedStyles (exec s0 (before ++ [e])))).
    { apply loadedStyles_run. now right. }
    revert Hfires Hrec. unfold run. rewrite fold_left_app. cbn [fold_left].
    intros Hfires Hrec.
    exact (activation_promotes _ e i Hfires Hcold Hrec Hne Hlink).
  - intros HN. rewrite Hcount, HN. reflexivity.
  - intros Hone.
    destruct (settled_run N events s0 Hs) as (_ & _ & _ & Ha & Hc).
    destruct (stylesHydrated (exec s0 events)); [auto | lia].
  - unfold handle, registerLoadedStyle. cbn. rewrite automatic. cbn.
    repeat split.
  - unfold run, handle, registerLoadedStyle. cbn.
    repeat split.
Qed.

End CriticalStyles.

Section CriticalStylesScenarios.
Import JS Uncritical.

(** Three refs, the second for print only on a screen device: two
    links are appended.  The first loads (its event arriving twice),
    the third fails and a stray late load follows.  On any device,
    three refs without media of which two fail never activate. *)
Lemma activation_at_nth_distinct_id_witness :
  let matches := fun m => String.eqb m "screen" in
  let refs := [Some (mkRef "base.css" None);
               Some (mkRef "print.css" (Some "print"));
               Some (mkRef "wide.css" (Some "screen"))] in
  let s0 := createLinks matches refs 0 (initial (mkDom [] true)) in
  let three := [Some (mkRef "base.css" None); Some (mkRef "theme.css" None);
                Some (mkRef "overrides.css" None)] in
  let failed := run None (createLinks matches three 0 (initial (mkDom [] true)))
                    [OnLoad (linkId 0); OnError (linkId 1); OnError (linkId 2)] in
  totalStylesCount s0 = 2
  /\ activations (run None s0 [OnLoad (linkId 0); OnLoad (linkId 0)]) = 0
  /\ activations (run None s0 [OnLoad (linkId 0); OnLoad (linkId 0); OnError (linkId 2)]) = 1
  /\ activations (run None s0 [OnLoad (linkId 0); OnLoad (linkId 0); OnError (linkId 2);
                               OnLoad (linkId 2)]) = 1
  /\ activations failed = 0
  /\ critical (dom failed) = true.
Proof.
  intros matches refs s0 three failed.
  split; [| split; [| split; [| split; [| split]]]].
  - exact (proj1 (activation_at_nth_distinct_id None matches eq_refl refs
                    (mkDom [] true) [])).
  - exact (proj1 (proj2 (proj2 (proj2
             (activation_at_nth_distinct_id None matches eq_refl refs (mkDom [] true)
                [OnLoad (linkId 0); OnLoad (linkId 0)]))))).
  - exact (proj1 (proj2 (proj2 (proj2
             (activation_at_nth_distinct_id None matches eq_refl refs (mkDom [] true)
                [OnLoad (linkId 0); OnLoad (linkId 0); OnError (linkId 2)]))))).
  - exact (proj1 (proj2 (proj2 (proj2
             (activation_at_nth_distinct_id None matches eq_refl refs (mkDom [] true)
                [OnLoad (linkId 0); OnLoad (linkId 0); OnError (linkId 2);
                 OnLoad (linkId 2)]))))).
  - exact (proj1 (proj2 (proj2 (proj2
             (activation_at_nth_distinct_id None matches eq_refl three (mkDom [] true)
                [OnLoad (linkId 0); OnError (linkId 1); OnError (linkId 2)]))))).
  - exact (proj2 (proj2 (proj2 (proj2 (proj2 (proj2 (proj2 (proj2 (proj2 (proj2
             (proj2 (proj2
             (activation_at_nth_distinct_id None matches eq_refl refs (mkDom [] true)
                []))))))))))))).
Defined.

End CriticalStylesScenarios.

(* ================================================================== *)
(** * Critical-style activation: duplicates, manual mode, stragglers *)
(* ================================================================== *)

Section StyleEvents.
Import JS Uncritical.

Variable debugCriticalCSS : option string.

Local Abbreviation register := (registerLoadedStyle debugCriticalCSS).
Local Abbreviation on := (handle debugCriticalCSS).
Local Abbreviation exec := (run debugCriticalCSS).

Lemma state_eta (s : State) :
  mkState (loadedStyles s) (totalStylesCount s) (stylesHydrated s) (dom s) (console s) = s.
Proof. destruct s; reflexivity. Qed.

(** An event that does not activate and arrives before activation only
    records its id. *)
Lemma handle_idle (s : State) (e : Event) :
  stylesHydrated s = false ->
  Nat.eqb (S (List.length (loadedStyles s))) (totalStylesCount s)
  && negb (isManual debugCriticalCSS) = false ->
  on s e
  = mkState (if setHas (resolved e) (loadedStyles s)
             then loadedStyles s
             else loadedStyles s ++ [resolved e])
            (totalStylesCount s) false (dom s) (console s).
Proof.
  intros Hh Hq.
  assert (Hreg : forall styleId status,
    register styleId status s
    = mkState (if setHas match status with Loaded => Some styleId | Errored => None end
                         (loadedStyles s)
               then loadedStyles s
               else loadedStyles s
                    ++ [match status with Loaded => Some styleId | Errored => None end])
              (totalStylesCount s) false (dom s) (console s)).
  { intros styleId status. unfold registerLoadedStyle.
    destruct (setHas _ (loadedStyles s)).
    - rewrite <- Hh. symmetry. apply state_eta.
    - cbn [loadedStyles totalStylesCount stylesHydrated]. rewrite Hh.
      rewrite length_app. cbn [List.length]. rewrite Nat.add_1_r, Hq. reflexivity. }
  destruct e as [i | i]; [exact (Hreg i Loaded) | exact (Hreg i Errored)].
Qed.

Lemma loadedStyles_grow (events : list Event) :
  forall s, exists added, loadedStyles (exec s events) = (loadedStyles s ++ added)%list.
Proof.
  induction events as [|e events IH]; intros s.
  - exists []. simpl. now rewrite app_nil_r.
  - destruct (IH (on s e)) as [added Hadded].
    pose proof (handle_core debugCriticalCSS e s) as H.
    unfold run in *. simpl. rewrite Hadded.
    destruct (setHas (resolved e) (loadedStyles s)).
    + rewrite H. now exists added.
    + destruct H as (H1 & _). rewrite H1, <- app_assoc. now eexists.
Qed.

Lemma handle_records (s : State) (e : Event) :
  In (resolved e) (loadedStyles (on s e)).
Proof.
  pose proof (handle_core debugCriticalCSS e s) as H.
  destruct (setHas (resolved e) (loadedStyles s)) eqn:E.
  - rewrite H. now apply setHas_In.
  - destruct H as (H1 & _). rewrite H1. apply in_or_app. right. now left.
Qed.

Lemma handle_known (s : State) (e : Event) :
  In (resolved e) (loadedStyles s) -> on s e = s.
Proof.
  intros Hin. apply setHas_In in Hin.
  pose proof (handle_core debugCriticalCSS e s) as H. now rewrite Hin in H.
Qed.

Lemma NoDup_run (events : list Event) :
  forall s, NoDup (loadedStyles s) -> NoDup (loadedStyles (exec s events)).
Proof.
  induction events as [|e events IH]; intros s Hnd; [exact Hnd|].
  apply (IH (on s e)).
  pose proof (handle_core debugCriticalCSS e s) as H.
  destruct (setHas (resolved e) (loadedStyles s)) eqn:E.
  - now rewrite H.
  - destruct H as (H1 & _). rewrite H1. apply NoDup_snoc; [exact Hnd|].
    now apply setHas_not_In.
Qed.

(** X1.  The resolved ids are recorded once each, in the order of
    arrival.  An event whose resolved id is already recorded changes
    nothing at all, so the same event twice in a row is the event once;
    over any run the recorded ids only grow at the end (none is dropped
    or moved) and stay free of duplicates. *)
Theorem recorded_event_is_ignored (s : State) (e : Event) (events : list Event) :
  (In (resolved e) (loadedStyles s) -> on s e = s)
  /\ on (on s e) e = on s e
  /\ (exists added, loadedStyles (exec s events) = (loadedStyles s ++ added)%list)
  /\ (NoDup (loadedStyles s) -> NoDup (loadedStyles (exec s events))).
Proof.
  split; [apply handle_known|].
  split; [apply handle_known, handle_records|].
  split; [apply loadedStyles_grow | apply NoDup_run].
Qed.

(** X2.  In the manual mode ([__debugCriticalCSS] is 'manual') no load
    or error event activates: from a state that is not hydrated, any
    run of events leaves the document, the flag, the counter and the
    console as they were and only records ids. *)
Theorem manual_mode_never_activates (s : State) (events : list Event) :
  isManual debugCriticalCSS = true ->
  stylesHydrated s = false ->
  dom (exec s events) = dom s
  /\ stylesHydrated (exec s events) = false
  /\ totalStylesCount (exec s events) = totalStylesCount s
  /\ console (exec s events) = console s
  /\ activations (exec s events) = activations s.
Proof.
  intros Hmanual. revert s.
  induction events as [|e events IH]; intros s Hh; [repeat split; assumption|].
  assert (Hstep : on s e
                  = mkState (if setHas (resolved e) (loadedStyles s)
                             then loadedStyles s
                             else loadedStyles s ++ [resolved e])
                            (totalStylesCount s) false (dom s) (console s)).
  { apply handle_idle; [exact Hh|]. rewrite Hmanual. apply andb_false_r. }
  destruct (IH (on s e)) as (H1 & H2 & H3 & H4 & H5); [now rewrite Hstep|].
  unfold run in *. simpl.
  rewrite H1, H2, H3, H4, H5, Hstep. repeat split.
Qed.

(** X3.  Late hydration: once activation has happened, a style that
    loads afterwards is promoted at once when its link is in the
    document; no other link changes, the critical block is not touched
    and activation does not run again.  A style that fails afterwards
    changes nothing in the document. *)
Theorem late_style_is_promoted (s : State) (i : string) :
  stylesHydrated s = true ->
  ~ In (Some i) (loadedStyles s) ->
  nonEmpty i = true ->
  hasLink i (dom s) = true ->
  relOf i (links (dom (on s (OnLoad i)))) = Some "stylesheet"
  /\ (forall j, j <> i ->
                relOf j (links (dom (on s (OnLoad i)))) = relOf j (links (dom s)))
  /\ critical (dom (on s (OnLoad i))) = critical (dom s)
  /\ activations (on s (OnLoad i)) = activations s
  /\ dom (on s (OnError i)) = dom s.
Proof.
  intros Hh Hnew Hne Hlink.
  pose proof (handle_core debugCriticalCSS (OnLoad i) s) as Hcore.
  apply setHas_not_In in Hnew. cbn [resolved] in Hcore. rewrite Hnew, Hh in Hcore.
  cbn [negb andb] in Hcore. destruct Hcore as (_ & _ & _ & Ha & Hc).
  assert (Hdom : dom (on s (OnLoad i)) = setRel i "stylesheet" (dom s)).
  { unfold handle, registerLoadedStyle. rewrite Hnew.
    cbn [stylesHydrated]. rewrite Hh. unfold hydrateStyle.
    cbn [dom log]. rewrite Hne, Hlink. reflexivity. }
  split; [|split; [|split; [|split]]].
  - rewrite Hdom. cbn [links setRel]. rewrite relOf_setRelIn, String.eqb_refl.
    apply hasLink_relOf in Hlink. destruct (relOf i (links (dom s))); congruence.
  - intros j Hj. rewrite Hdom. cbn [links setRel]. rewrite relOf_setRelIn.
    apply String.eqb_neq in Hj. now rewrite Hj.
  - rewrite Hc. cbn [negb]. apply andb_true_r.
  - rewrite Ha. lia.
  - unfold handle, registerLoadedStyle.
    destruct (setHas None (loadedStyles s)); [reflexivity|].
    cbn [stylesHydrated]. rewrite Hh. reflexivity.
Qed.

End StyleEvents.

Section StyleCounting.
Import JS Uncritical.

Variable debugCriticalCSS : option string.
Variable matchMedia : string -> bool.

Local Abbreviation on := (handle debugCriticalCSS).
Local Abbreviation exec := (run debugCriticalCSS).

Lemma none_once (l : list (option string)) :
  NoDup l -> List.length l <= S (List.length (filter isSome l)).
Proof.
  induction 1 as [|x l Hx Hnd IH]; simpl; [lia|].
  destruct x as [i|]; simpl; [lia|].
  assert (Hall : filter isSome l = l).
  { clear IH Hnd. induction l as [|y l IHl]; [reflexivity|].
    destruct y as [j|]; simpl.
    - f_equal. apply IHl. intros Hin. apply Hx. now right.
    - exfalso. apply Hx. now left. }
  rewrite Hall. lia.
Qed.

Lemma loads_counted (events : list Event) :
  List.length (filter isSome (map (@resolved) events))
  = List.length (filter isLoad events).
Proof.
  induction events as [|[i|i] events IH]; simpl; [reflexivity | now rewrite IH | exact IH].
Qed.

(** At most one more id is recorded than styles have loaded. *)
Lemma recorded_bound (events : list Event) (s : State) :
  loadedStyles s = [] ->
  List.length (loadedStyles (exec s events)) <= S (List.length (filter isLoad events)).
Proof.
  intros Hempty.
  assert (Hnd : NoDup (loadedStyles (exec s events))).
  { apply NoDup_run. rewrite Hempty. constructor. }
  eapply Nat.le_trans; [apply none_once, Hnd|].
  apply le_n_S. rewrite <- loads_counted.
  apply NoDup_incl_length; [now apply NoDup_filter|].
  intros x Hx. apply filter_In in Hx. destruct Hx as [Hx Hsome].
  apply filter_In. split; [|exact Hsome].
  apply (loadedStyles_run debugCriticalCSS) in Hx. rewrite Hempty in Hx.
  destruct Hx as [[] | Hx]. exact Hx.
Qed.

Lemma hydrated_stays (events : list Event) :
  forall s, stylesHydrated s = true -> stylesHydrated (exec s events) = true.
Proof.
  induction events as [|e events IH]; intros s Hh; [exact Hh|].
  apply (IH (on s e)).
  pose proof (handle_core debugCriticalCSS e s) as H.
  destruct (setHas (resolved e) (loadedStyles s)).
  - now rewrite H.
  - destruct H as (_ & _ & H3 & _). now rewrite H3, Hh.
Qed.

(** Until activation the events leave the document and the console
    alone. *)
Lemma untouched_until_activation (events : list Event) :
  forall s, stylesHydrated (exec s events) = false ->
            dom (exec s events) = dom s /\ console (exec s events) = console s.
Proof.
  induction events as [|e events IH]; intros s Hfinal; [split; reflexivity|].
  change (exec s (e :: events)) with (exec (on s e) events) in *.
  destruct (IH (on s e) Hfinal) as [Hd Hc]. rewrite Hd, Hc.
  assert (Hstep : stylesHydrated (on s e) = false).
  { destruct (stylesHydrated (on s e)) eqn:E; [|reflexivity].
    rewrite (hydrated_stays events _ E) in Hfinal. discriminate. }
  pose proof (handle_core debugCriticalCSS e s) as H.
  destruct (setHas (resolved e) (loadedStyles s)) eqn:Hhas.
  - rewrite H. split; reflexivity.
  - destruct H as (_ & _ & H3 & _). rewrite Hstep in H3.
    symmetry in H3. apply orb_false_iff in H3. destruct H3 as [Hh Hfires].
    rewrite Hh in Hfires. cbn [negb andb] in Hfires.
    rewrite (handle_idle debugCriticalCSS s e Hh Hfires). split; reflexivity.
Qed.

(** X4.  A failed load is recorded as null whatever style it belongs
    to, so all failures together count once.  With automatic activation
    on and N registered styles, if fewer than N - 1 load events arrive
    (two or more styles never load), no run of events activates: the
    flag stays down and the document, critical block included, stays as
    registration left it. *)
Theorem too_few_loads_never_activate
        (refs : list (option StyleRef)) (d : Dom) (events : list Event) :
  isManual debugCriticalCSS = false ->
  S (List.length (filter isLoad events))
  < totalStylesCount (createLinks matchMedia refs 0 (initial d)) ->
  stylesHydrated (exec (createLinks matchMedia refs 0 (initial d)) events) = false
  /\ activations (exec (createLinks matchMedia refs 0 (initial d)) events) = 0
  /\ dom (exec (createLinks matchMedia refs 0 (initial d)) events)
     = dom (createLinks matchMedia refs 0 (initial d)).
Proof.
  intros Hauto Hfew.
  destruct (createLinks_settled matchMedia refs d) as [Hs Hempty].
  set (s0 := createLinks matchMedia refs 0 (initial d)) in *.
  pose proof (recorded_bound events s0 Hempty) as Hbound.
  destruct (settled_run debugCriticalCSS Hauto _ events s0 Hs) as (_ & _ & Hh & Ha & _).
  destruct Hs as (Ht & _). rewrite Ht in Hfew.
  assert (Hflag : stylesHydrated (exec s0 events) = false).
  { rewrite Hh. apply andb_false_iff. right. apply Nat.leb_gt. lia. }
  split; [exact Hflag|]. split; [now rewrite Ha, Hflag|].
  now apply untouched_until_activation.
Qed.

End StyleCounting.

(* ================================================================== *)
(** * Critical-style activation: registration and the manual controls *)
(* ================================================================== *)

Section StyleRegistration.
Import JS Uncritical.

Variable matchMedia : string -> bool.

Lemma string_app_inv_head (p a b : string) : p ++ a = p ++ b -> a = b.
Proof.
  induction p as [|c p IH]; simpl; intros H; [exact H|].
  injection H as H. now apply IH.
Qed.

Lemma showNat_inj (a b : nat) : showNat a = showNat b -> a = b.
Proof.
  unfold showNat. intros H.
  apply (f_equal NilEmpty.uint_of_string) in H.
  rewrite !NilEmpty.usu in H. injection H as H.
  apply (f_equal Nat.of_uint) in H.
  now rewrite !DecimalNat.Unsigned.of_to in H.
Qed.

Lemma linkId_inj (a b : nat) : linkId a = linkId b -> a = b.
Proof.
  unfold linkId. intros H.
  apply string_app_inv_head in H. apply string_app_inv_head in H.
  now apply showNat_inj.
Qed.

Lemma appendedIds_from (refs : list (option StyleRef)) :
  forall (index : nat) (x : string),
    In x (appendedIds matchMedia refs index) <->
    exists k r, nth_error refs k = Some (Some r)
                /\ shouldAppend matchMedia r = true
                /\ x = linkId (index + k).
Proof.
  induction refs as [|ref refs IH]; intros index x; simpl.
  - split; [intros [] | intros (k & r & H & _)]. destruct k; discriminate H.
  - assert (Hrest : In x (appendedIds matchMedia refs (S index)) <->
                    exists k r, nth_error (ref :: refs) (S k) = Some (Some r)
                                /\ shouldAppend matchMedia r = true
                                /\ x = linkId (index + S k)).
    { rewrite IH. split; intros (k & r & H1 & H2 & H3); exists k, r;
        (split; [exact H1 | split; [exact H2|]]);
        rewrite H3; f_equal; lia. }
    unfold registered. destruct ref as [r0|].
    + destruct (shouldAppend matchMedia r0) eqn:E; simpl.
      * split.
        -- intros [<- | Hin].
           ++ exists 0, r0. repeat split; [exact E | f_equal; lia].
           ++ apply Hrest in Hin. destruct Hin as (k & r & H). now exists (S k), r.
        -- intros (k & r & H1 & H2 & H3). destruct k as [|k].
           ++ left. rewrite H3. f_equal. lia.
           ++ right. apply Hrest. now exists k, r.
      * rewrite Hrest. split.
        -- intros (k & r & H). now exists (S k), r.
        -- intros (k & r & H1 & H2 & H3). destruct k as [|k].
           ++ simpl in H1. injection H1 as ->. congruence.
           ++ now exists k, r.
    + rewrite Hrest. split.
      * intros (k & r & H). now exists (S k), r.
      * intros (k & r & H1 & H2 & H3). destruct k as [|k]; [discriminate H1|].
        now exists k, r.
Qed.

Lemma appendedIds_NoDup (refs : list (option StyleRef)) :
  forall index, NoDup (appendedIds matchMedia refs index).
Proof.
  induction refs as [|ref refs IH]; intros index; simpl; [constructor|].
  destruct (registered matchMedia ref); [|apply IH].
  constructor; [|apply IH].
  intros Hin. apply appendedIds_from in Hin.
  destruct Hin as (k & r & _ & _ & H). apply linkId_inj in H. lia.
Qed.

Lemma createLinks_links (refs : list (option StyleRef)) :
  forall (index : nat) (s : State),
    links (dom (createLinks matchMedia refs index s))
    = (links (dom s)
       ++ map (fun id => (id, "preload")) (appendedIds matchMedia refs index))%list
    /\ critical (dom (createLinks matchMedia refs index s)) = critical (dom s)
    /\ totalStylesCount (createLinks matchMedia refs index s)
       = totalStylesCount s + List.length (appendedIds matchMedia refs index).
Proof.
  induction refs as [|ref refs IH]; intros index s; simpl.
  - rewrite app_nil_r. repeat split. lia.
  - destruct (IH (S index) (createUncriticalLink matchMedia ref index s))
      as (H1 & H2 & H3).
    rewrite H1, H2, H3. unfold createUncriticalLink, registered.
    destruct ref as [r|]; [destruct (shouldAppend matchMedia r)|]; simpl;
      rewrite <- ?app_assoc; repeat split; lia.
Qed.

(** X5.  Registration, when a critical block is present: the refs of
    [base] followed by those of [overrides] are numbered by their
    position in that one array; the ref at position k gets the link id
    uncritical_style_k, and its link is appended to the document, as a
    preload link and after the links already there, exactly when the
    ref has no media or a media that matches.  The appended ids are
    pairwise different and [totalStylesCount] grows by their number;
    the critical block and the recorded ids are left alone. *)
Theorem registration_appends_links (refs : StyleRefs) (s : State) :
  critical (dom s) = true ->
  let all := (orEmpty (base refs) ++ orEmpty (overrides refs))%list in
  let s' := resolveUncriticalPromise matchMedia (Some refs) s in
  links (dom s')
  = (links (dom s) ++ map (fun id => (id, "preload")) (appendedIds matchMedia all 0))%list
  /\ (forall x, In x (appendedIds matchMedia all 0) <->
                exists k r, nth_error all k = Some (Some r)
                            /\ shouldAppend matchMedia r = true
                            /\ x = linkId k)
  /\ NoDup (appendedIds matchMedia all 0)
  /\ totalStylesCount s'
     = totalStylesCount s + List.length (appendedIds matchMedia all 0)
  /\ critical (dom s') = true
  /\ loadedStyles s' = loadedStyles s.
Proof.
  intros Hcrit all s'. subst s'. unfold resolveUncriticalPromise. rewrite Hcrit.
  fold all.
  destruct (createLinks_links all 0 s) as (H1 & H2 & H3).
  destruct (createLinks_state matchMedia all 0 s) as (H4 & _).
  split; [exact H1|]. split; [apply appendedIds_from|].
  split; [apply appendedIds_NoDup|]. split; [exact H3|].
  split; [now rewrite H2 | exact H4].
Qed.

End StyleRegistration.

Section ManualControls.
Import JS Uncritical.

Local Abbreviation hydrateAll :=
  (fold_left (fun acc id => hydrateStyle id acc)).



Lemma steps_through (rest : list string) :
  forall (done : list string) (s : State),
    loadedStyles s = map Some (done ++ rest) ->
    totalStylesCount s = List.length (done ++ rest) ->
    Forall (fun i => nonEmpty i = true) rest ->
    stepsUncritical (List.length rest) (List.length done) s
    = (List.length (done ++ rest), hydrateAll (map Some rest) s).
Proof.
  induction rest as [|i rest IH]; intros done s Hl Ht Hne.
  - simpl. now rewrite app_nil_r.
  - inversion Hne as [|? ? Hi Hrest]; subst.
    cbn [List.length stepsUncritical]. unfold stepUncritical.
    replace (Nat.eqb (List.length done) (totalStylesCount s)) with false
      by (symmetry; apply Nat.eqb_neq; rewrite Ht, length_app; simpl; lia).
    rewrite Hl, nth_error_map, nth_error_app2 by lia.
    rewrite Nat.sub_diag. cbn [nth_error option_map]. rewrite Hi.
    destruct (hydrateStyle_core (Some i) s) as (H1 & H2 & _).
    assert (Hlen : List.length (done ++ [i]) = S (List.length done))
      by (rewrite length_app; simpl; lia).
    specialize (IH (done ++ [i])%list (hydrateStyle (Some i) s)).
    rewrite Hlen, <- app_assoc in IH. cbn [app] in IH.
    rewrite IH; [reflexivity | now rewrite H1 | now rewrite H2 | exact Hrest].
Qed.

(** X7.  When every registered style has loaded (all recorded ids are
    style ids and there are as many as registered), calling the step as
    many times as there are styles promotes them one by one, in the
    order recorded, and ends in the state the promoting loop of
    [applyUncritical] produces; the critical block and the hydrated
    flag are not touched, and every further call only reports that it
    has finished. *)
Theorem stepping_promotes_all (ids : list string) (s : State) :
  loadedStyles s = map Some ids ->
  totalStylesCount s = List.length ids ->
  Forall (fun i => nonEmpty i = true) ids ->
  let after := hydrateAll (loadedStyles s) s in
  stepsUncritical (List.length ids) 0 s = (List.length ids, after)
  /\ (forall i, In i ids -> hasLink i (dom s) = true ->
                relOf i (links (dom after)) = Some "stylesheet")
  /\ critical (dom after) = critical (dom s)
  /\ stylesHydrated after = stylesHydrated s
  /\ stepUncritical (List.length ids) after = (List.length ids, after, StepFinished).
Proof.
  intros Hl Ht Hne after.
  destruct (hydrateAll_core (loadedStyles s) s) as (H1 & H2 & H3 & H4 & _).
  fold after in H1, H2, H3, H4.
  split; [|split; [|split; [exact H4 | split; [exact H3|]]]].
  - subst after. rewrite Hl. exact (steps_through ids [] s Hl Ht Hne).
  - intros i Hin Hlink.
    assert (Hi : nonEmpty i = true) by (rewrite Forall_forall in Hne; now apply Hne).
    assert (Hrec : In (Some i) (loadedStyles s)) by (rewrite Hl; now apply in_map).
    exact (applyUncritical_promotes (fun _ => true) s i Hrec Hi Hlink).
  - unfold stepUncritical. rewrite H2, Ht, Nat.eqb_refl. reflexivity.
Qed.

Lemma setRelIn_same (i rel : string) (ls : list (string * string)) :
  relOf i ls = Some rel -> setRelIn i rel ls = ls.
Proof.
  induction ls as [|[k r] ls IH]; simpl; [reflexivity|].
  destruct (String.eqb k i); [intros [= ->]; reflexivity|].
  intros H. now rewrite IH.
Qed.

Lemma relOf_present (i j rel : string) (ls : list (string * string)) :
  relOf i (setRelIn j rel ls) = None <-> relOf i ls = None.
Proof.
  rewrite relOf_setRelIn.
  destruct (String.eqb i j); [|tauto].
  destruct (relOf i ls); split; congruence.
Qed.

Lemma hydrateStyle_present (id : option string) (s : State) (i : string) :
  relOf i (links (dom (hydrateStyle id s))) = None <-> relOf i (links (dom s)) = None.
Proof.
  unfold hydrateStyle. destruct id as [j|]; [|tauto].
  destruct (nonEmpty j && hasLink j (dom s)); [|tauto].
  cbn [dom log setRel links]. apply relOf_present.
Qed.

Lemma hydrateAll_present (ids : list (option string)) (i : string) :
  forall s, relOf i (links (dom (hydrateAll ids s))) = None
            <-> relOf i (links (dom s)) = None.
Proof.
  induction ids as [|id ids IH]; intros s; simpl; [tauto|].
  rewrite IH. apply hydrateStyle_present.
Qed.

(** Promoting styles that are all promoted already changes nothing in
    the document. *)
Lemma hydrateAll_fixed (ids : list (option string)) :
  forall s,
    (forall i, In (Some i) ids -> nonEmpty i = true ->
               relOf i (links (dom s)) <> None ->
               relOf i (links (dom s)) = Some "stylesheet") ->
    dom (hydrateAll ids s) = dom s.
Proof.
  induction ids as [|id ids IH]; intros s Hdone; simpl; [reflexivity|].
  assert (Hone : dom (hydrateStyle id s) = dom s).
  { unfold hydrateStyle. destruct id as [j|]; [|reflexivity].
    destruct (nonEmpty j && hasLink j (dom s)) eqn:E; [|reflexivity].
    apply andb_true_iff in E. destruct E as [Hj Hlink].
    apply hasLink_relOf in Hlink.
    cbn [dom log setRel]. unfold setRel.
    rewrite (setRelIn_same j "stylesheet" (links (dom s)));
      [destruct (dom s); reflexivity|].
    apply Hdone; [now left | exact Hj | exact Hlink]. }
  rewrite IH; [exact Hone|].
  intros i Hin. rewrite Hone. apply Hdone. now right.
Qed.

(** X8.  Running [applyUncritical] again (it is exposed on [window] in
    the manual mode) changes nothing in the document: every recorded
    style with a link is a stylesheet after the first run and the
    critical block is gone.  The recorded ids and the counter are the
    same after each run. *)
Theorem applyUncritical_twice (s : State) :
  dom (applyUncritical (applyUncritical s)) = dom (applyUncritical s)
  /\ loadedStyles (applyUncritical (applyUncritical s)) = loadedStyles s
  /\ totalStylesCount (applyUncritical (applyUncritical s)) = totalStylesCount s
  /\ critical (dom (applyUncritical s)) = false
  /\ (forall i, In (Some i) (loadedStyles s) -> nonEmpty i = true ->
                hasLink i (dom s) = true ->
                relOf i (links (dom (applyUncritical s))) = Some "stylesheet").
Proof.
  destruct (applyUncritical_effect s) as (H1 & H2 & _ & H4 & _).
  destruct (applyUncritical_effect (applyUncritical s)) as (K1 & K2 & _).
  cbv zeta in *.
  split; [|split; [congruence | split; [congruence | split; [exact H4|]]]].
  - set (s1 := applyUncritical s) in *.
    unfold applyUncritical at 1. cbn [dom log clearCritical].
    rewrite hydrateAll_fixed.
    + revert H4. destruct (dom s1) as [ls c]. simpl. now intros ->.
    + intros i Hin Hi Hpresent. rewrite H1 in Hin.
      assert (Hlink : relOf i (links (dom s)) <> None).
      { intros Hnone. apply Hpresent. subst s1. unfold applyUncritical.
        cbn [dom log clearCritical links]. now apply hydrateAll_present. }
      apply (applyUncritical_promotes (fun _ => true)); [exact Hin | exact Hi | now apply hasLink_relOf].
  - intros i Hin Hi Hlink. now apply (applyUncritical_promotes (fun _ => true)).
Qed.

End ManualControls.

(* ================================================================== *)
(** * Hydration gate: loading the assets, thawing, client-only subtrees *)
(* ================================================================== *)

Section AssetLoading.
Import JS PreventHydration.

Variable World : Type.
Variable componentAt : World -> Val.
Variable getImplementation : World -> Val -> bool.
Variable elapse : Z -> World -> World.
Variable canUseDOM : bool.
Variable fetchAssets : World -> option World.

Local Abbreviation load :=
  (loadAssets World componentAt getImplementation elapse canUseDOM fetchAssets).
Local Abbreviation verified :=
  (verifyDefault World componentAt getImplementation elapse).
Local Abbreviation isReady := (ready World componentAt getImplementation).
Local Abbreviation at_check := (checkpoint World elapse defaultRetries).

Lemma verify_resolves_true (retries : nat) :
  forall (w : World) (value : bool),
    snd (verifyComponentImplementation World componentAt getImplementation elapse
                                       retries w) = Resolved value ->
    value = true.
Proof.
  induction retries as [|r IH]; intros w value; cbn [verifyComponentImplementation].
  - destruct (truthy (componentAt w) && getImplementation w (componentAt w));
      simpl; congruence.
  - destruct (truthy (componentAt w) && getImplementation w (componentAt w));
      [simpl; congruence|].
    destruct (verifyComponentImplementation World componentAt getImplementation elapse
                r (elapse (1100 - Z.of_nat (S r) * 100)%Z w)) as [waits result] eqn:E.
    simpl. intros ->. apply (IH (elapse (1100 - Z.of_nat (S r) * 100)%Z w)).
    now rewrite E.
Qed.

(** X9.  [loadAssets] never rejects.  It resolves (with true) exactly
    when the DOM is available, [fetchAssets] fulfils and one of the
    eleven implementation checks that follow succeeds; when the
    verification gives up, its rejection is not passed on and the
    promise stays pending for ever, as it does without a DOM or when
    [fetchAssets] does not fulfil. *)
Theorem loadAssets_never_rejects (w : World) :
  (forall message,
      loadAssets World componentAt getImplementation elapse canUseDOM fetchAssets w
      <> Some (Rejected message))
  /\ (load w = Some (Resolved true) \/ load w = None)
  /\ (canUseDOM = false -> load w = None)
  /\ (fetchAssets w = None -> load w = None)
  /\ (forall w', fetchAssets w = Some w' ->
                 (forall j, j <= 10 -> isReady (at_check j w') = false) ->
                 load w = None)
  /\ (forall w' k, canUseDOM = true -> fetchAssets w = Some w' ->
                   k <= 10 -> isReady (at_check k w') = true ->
                   (forall j, j < k -> isReady (at_check j w') = false) ->
                   load w = Some (Resolved true)).
Proof.
  assert (Hshape : load w = Some (Resolved true) \/ load w = None).
  { unfold loadAssets. destruct canUseDOM; [|now right].
    destruct (fetchAssets w) as [w'|]; [|now right].
    destruct (snd (verified w')) as [value|message] eqn:E; [|now right].
    apply verify_resolves_true in E. subst value. now left. }
  split; [|split; [exact Hshape|]].
  { intros message. destruct Hshape as [-> | ->]; discriminate. }
  split; [intros Hdom; unfold loadAssets; now rewrite Hdom|].
  split; [intros Hfetch; unfold loadAssets; rewrite Hfetch; now destruct canUseDOM|].
  split.
  - intros w' Hfetch Hnever. unfold loadAssets, verifyDefault. rewrite Hfetch.
    rewrite (verify_never_ready World componentAt getImplementation elapse
               defaultRetries w' Hnever).
    now destruct canUseDOM.
  - intros w' k Hdom Hfetch Hk Hready Hbefore. unfold loadAssets, verifyDefault.
    rewrite Hdom, Hfetch.
    now rewrite (verify_ready_at World componentAt getImplementation elapse
                   defaultRetries k w' Hk Hready Hbefore).
Qed.

End AssetLoading.

Section GateDynamics.
Import JS PreventHydration.

Variable treePath : string.

(** X10.  Thawing a server-rendered subtree in the browser (non-empty
    tree path).  While the assets are not loaded and hydration was not
    wanted at the first render, every render keeps the server markup
    frozen, whatever [shouldHydrate] is.  A render with [shouldHydrate]
    true requests the assets and stays frozen; a render with a falsy
    [shouldHydrate] requests nothing.  When the outstanding request
    resolves the gate is loaded, and live exactly if [shouldHydrate] is
    true at that moment; with no request outstanding the resolution of
    a promise changes nothing. *)
Theorem gate_thaws_after_assets (g : Gate) (sh : Flag) :
  nonEmpty treePath = true ->
  isLoaded g = false ->
  initialShouldHydrate g <> Some true ->
  render true g = Frozen
  /\ render true (step true true treePath g (NewProps sh)) = Frozen
  /\ isLoaded (step true true treePath g (NewProps sh)) = false
  /\ loadPending (step true true treePath g (NewProps sh))
     = (flagTruthy sh || loadPending g)
  /\ (loadPending g = true ->
      isLoaded (step true true treePath g AssetsLoaded) = true
      /\ (render true (step true true treePath g AssetsLoaded) = Live
          <-> flagTruthy (shouldHydrate g) = true))
  /\ (loadPending g = false -> step true true treePath g AssetsLoaded = g).
Proof.
  intros Hpath Hloaded Hinit.
  destruct g as [init loaded pending current]. simpl in Hloaded, Hinit. subst loaded.
  unfold step, afterRender, render, shouldRenderImmediately. simpl.
  rewrite Hpath.
  split; [|split; [|split; [|split; [|split]]]].
  - destruct current as [[|]|], init as [[|]|]; simpl; congruence.
  - destruct sh as [[|]|], init as [[|]|]; simpl; congruence.
  - destruct sh as [[|]|], init as [[|]|]; simpl; congruence.
  - destruct sh as [[|]|], init as [[|]|]; simpl; congruence.
  - intros ->. split; [reflexivity|].
    destruct current as [[|]|], init as [[|]|]; simpl; split; congruence.
  - intros ->. reflexivity.
Qed.

(** X11.  A subtree that was not rendered on the server is never
    frozen: the gate shows the bare container until the assets are
    loaded and the children from then on, whatever [shouldHydrate] is.
    Under server-side rendering (no DOM) it is loaded from the first
    render; in the browser the first render shows the bare container
    and requests the assets when the tree path is not empty. *)
Theorem client_subtree_never_frozen (canUseDOM : bool) (g : Gate) (sh : Flag) :
  render false g <> Frozen
  /\ (render false g = Live <-> isLoaded g = true)
  /\ (render false g = EmptyContainer <-> isLoaded g = false)
  /\ render false (mount false false treePath sh) = Live
  /\ render false (mount false true treePath sh) = EmptyContainer
  /\ loadPending (mount false true treePath sh) = nonEmpty treePath
  /\ (loadPending g = true ->
      render false (step false canUseDOM treePath g AssetsLoaded) = Live).
Proof.
  unfold render, shouldRenderImmediately, mount, afterRender, step. simpl.
  destruct g as [init loaded pending current]. simpl.
  repeat split; try (destruct loaded; simpl; congruence).
  - destruct (nonEmpty treePath); reflexivity.
  - destruct (nonEmpty treePath); reflexivity.
  - intros ->. reflexivity.
Qed.

(** X12.  With an empty tree path the gate never requests assets: from
    the first render on, over any run of events, nothing is pending and
    [isLoaded] keeps its initial value.  In the browser a server-rendered
    subtree with an empty tree path is therefore live only in the
    renders where [shouldHydrate] is true and was true at the first
    render. *)
Theorem empty_tree_path_never_loads
        (hasRenderedOnServer canUseDOM : bool) (sh : Flag) (events : list Event) :
  nonEmpty treePath = false ->
  let g := run hasRenderedOnServer canUseDOM treePath
               (mount hasRenderedOnServer canUseDOM treePath sh) events in
  loadPending g = false
  /\ isLoaded g = negb canUseDOM
  /\ initialShouldHydrate g = sh
  /\ (hasRenderedOnServer = true -> canUseDOM = true ->
      (render true g = Live <-> flagTruthy (shouldHydrate g) = true /\ sh = Some true)).
Proof.
  intros Hpath.
  assert (Hinv : forall evs g0,
             loadPending g0 = false ->
             let g := run hasRenderedOnServer canUseDOM treePath g0 evs in
             loadPending g = false /\ isLoaded g = isLoaded g0
             /\ initialShouldHydrate g = initialShouldHydrate g0).
  { induction evs as [|e evs IH]; intros g0 Hp; [repeat split; assumption|].
    cbv zeta. unfold run. simpl.
    assert (Hstep : loadPending (step hasRenderedOnServer canUseDOM treePath g0 e) = false
                    /\ isLoaded (step hasRenderedOnServer canUseDOM treePath g0 e)
                       = isLoaded g0
                    /\ initialShouldHydrate (step hasRenderedOnServer canUseDOM treePath g0 e)
                       = initialShouldHydrate g0).
    { destruct e as [sh'|]; unfold step, afterRender;
        rewrite ?Hp, ?Hpath, ?andb_false_r; simpl; repeat split; assumption. }
    destruct Hstep as (S1 & S2 & S3).
    destruct (IH _ S1) as (I1 & I2 & I3). unfold run in *.
    rewrite I1, I2, I3, S2, S3. repeat split. }
  cbv zeta.
  assert (Hm : mount hasRenderedOnServer canUseDOM treePath sh
               = mkGate sh (negb canUseDOM) false sh).
  { unfold mount, afterRender. now rewrite Hpath, andb_false_r. }
  rewrite Hm.
  destruct (Hinv events (mkGate sh (negb canUseDOM) false sh) eq_refl) as (H1 & H2 & H3).
  simpl in H2, H3.
  split; [exact H1|]. split; [exact H2|]. split; [exact H3|].
  intros -> ->. rewrite view_live, H2, H3. simpl. split.
  - intros [Hsh [Hi | Hl]]; [now split | discriminate].
  - intros [Hsh ->]. split; [exact Hsh | now left].
Qed.

(** X13.  The images of a subtree are pinned to eager loading exactly
    in the renders of a server-rendered subtree that show the live
    children although hydration was not wanted at the first render:
    never in a render that shows the children immediately, never while
    frozen, never for a subtree that was not rendered on the server. *)
Theorem images_pinned_when_thawed (hasRenderedOnServer : bool) (g : Gate) :
  shouldMakeImagesEager hasRenderedOnServer g = true
  <-> hasRenderedOnServer = true
      /\ render hasRenderedOnServer g = Live
      /\ initialShouldHydrate g <> Some true.
Proof.
  unfold shouldMakeImagesEager, render, shouldRenderImmediately.
  destruct hasRenderedOnServer, g as [[[|]|] [|] pending [[|]|]]; simpl;
    split; intros H; try discriminate; try reflexivity;
    try (repeat split; congruence);
    try (destruct H as (H1 & H2 & H3); congruence).
Qed.

End GateDynamics.

(* ================================================================== *)
(** * Slots: reuse of a materialized entry, prop precedence, nesting *)
(* ================================================================== *)

Section SlotReuse.
Import JS ExtensionPoint Slots.

Lemma lookup_spread (k : string) (a b : Obj) :
  lookup k (spread a b)
  = match lookup k b with
    | Some v => Some v
    | None => lookup k a
    end.
Proof.
  unfold spread. rewrite lookup_app.
  rewrite (lookup_map_values
             (fun key lv => match lookup key b with Some v => v | None => lv end)).
  destruct (lookup k a) eqn:E.
  - destruct (lookup k b); reflexivity.
  - rewrite (lookup_filter_fresh k a b E). destruct (lookup k b); reflexivity.
Qed.

(** X14.  In a render through [ComponentLoader] (a static slot, or a
    labeled slot whose entry is already in the registry) the props are
    read key by key from the entry's content first, then from the props
    the entry declares, then from the props given to the slot; the
    loader is addressed by the base slot path. *)
Theorem slot_loader_props (extension : Entry) (slotProps : Obj) (newTreePath : string)
        (kids : option (list ChildElement)) :
  exists loaderProps,
    loaderFor extension slotProps newTreePath kids
    = RenderLoader (componentOf extension) loaderProps newTreePath kids
    /\ forall k,
        lookup k loaderProps
        = match lookup k (ownProps (contentOf extension)) with
          | Some v => Some v
          | None =>
              match lookup k (propsOrEmpty extension) with
              | Some v => Some v
              | None => lookup k slotProps
              end
          end.
Proof.
  eexists. split; [reflexivity|].
  intros k. now rewrite !lookup_spread.
Qed.

Variable JSON_parse : string -> option Val.

(** X15.  A labeled slot is fetched once when its base entry exists.
    After [DynamicSlot] has settled (no loading, no error, no throw) the
    registry holds under the dynamic path an entry with the component,
    props and blocks of the base entry and with the fetched content, or
    the base content when nothing was fetched; the next render of the
    slot with the same id finds it and renders the loader from it,
    without a [DynamicSlot] and so without a fetch.  When the base path
    has no entry, what is stored is falsy and the next render fetches
    again. *)
Theorem materialized_slot_is_reused
        (treePath slotValue : string) (exts exts' : Extensions)
        (slotProps fetchProps out : Obj) (q : QueryState) :
  let newTreePath := slotTreePath treePath slotValue in
  let dyn := dynamicTreePath newTreePath slotValue (get "id" slotProps) in
  truthy (get "id" slotProps) = true ->
  DynamicSlot JSON_parse dyn newTreePath exts fetchProps q = Returned exts' (Some out) ->
  (forall base,
      exts newTreePath = Present base ->
      exists entry,
        exts' dyn = Present entry
        /\ component entry = component base
        /\ ExtensionPoint.props entry = ExtensionPoint.props base
        /\ blocks entry = blocks base
        /\ (content entry = content base
            \/ exists v, truthy v = true
                         /\ extensionContentOf JSON_parse q = Some v
                         /\ content entry = Some v)
        /\ SlotComponent treePath slotValue exts' slotProps
           = loaderFor (Present entry) slotProps newTreePath
                       (getChildExtensions exts' newTreePath))
  /\ ((forall base, exts newTreePath <> Present base) ->
      exists comp props' blockId' kids,
        SlotComponent treePath slotValue exts' slotProps
        = RenderDynamicSlot dyn comp props' blockId' newTreePath kids).
Proof.
  intros newTreePath dyn Hid Hrun.
  assert (Hstored :
    exists v, extensionContentOf JSON_parse q = Some v
              /\ exts' dyn
                 = if negb (truthy v) then exts newTreePath
                   else match exts newTreePath with
                        | Present base =>
                            Present (mkExtension (component base)
                                       (ExtensionPoint.props base) (Some v)
                                       (blocks base) (composition base) (blockId base))
                        | _ => Null
                        end).
  { unfold DynamicSlot in Hrun.
    destruct (extensionContentOf JSON_parse q) as [v|]; [|discriminate Hrun].
    exists v. split; [reflexivity|].
    destruct (loading q); [discriminate Hrun|].
    destruct (error q); [discriminate Hrun|].
    injection Hrun as <- _.
    destruct (truthy v); simpl; unfold assign; now rewrite String.eqb_refl. }
  destruct Hstored as (v & Hv & Hdyn).
  split.
  - intros base Hbase. rewrite Hbase in Hdyn.
    unfold SlotComponent. fold newTreePath. rewrite Hid. fold dyn.
    destruct (truthy v) eqn:Hv'; simpl in Hdyn; rewrite Hdyn.
    + eexists. repeat split. right. exists v. now repeat split.
    + exists base. repeat split. now left.
  - intros Hnone. unfold SlotComponent. fold newTreePath. rewrite Hid. fold dyn.
    rewrite Hdyn.
    destruct (exts newTreePath) as [| |base] eqn:Hbase;
      [| | exfalso; exact (Hnone base eq_refl)];
      destruct (negb (truthy v)); repeat eexists.
Qed.

End SlotReuse.

Section SlotNesting.
Import JS ExtensionPoint Slots.

Lemma prefix_marker_app (c0 : ascii) (b rest : string) :
  String.prefix "-slot" (String c0 b) = false ->
  String.prefix "-slot" (String c0 b ++ "-slot" ++ rest) = false.
Proof.
  intros H.
  cbn [String.prefix String.append] in *. destruct (ascii_dec "-" c0); [|reflexivity].
  destruct b as [|c1 b]; [reflexivity|].
  cbn [String.prefix String.append] in *. destruct (ascii_dec "s" c1); [|reflexivity].
  destruct b as [|c2 b]; [reflexivity|].
  cbn [String.prefix String.append] in *. destruct (ascii_dec "l" c2); [|reflexivity].
  destruct b as [|c3 b]; [reflexivity|].
  cbn [String.prefix String.append] in *. destruct (ascii_dec "o" c3); [|reflexivity].
  destruct b as [|c4 b]; [reflexivity|].
  cbn [String.prefix String.append] in *. destruct (ascii_dec "t" c4); [|reflexivity].
  destruct b; discriminate H.
Qed.

(** A base path without "-slot", followed by "-slot...": the first
    "-slot" is the one that was appended. *)
Lemma index_marker_app (b rest : string) :
  String.index 0 "-slot" b = None ->
  String.index 0 "-slot" (b ++ "-slot" ++ rest) = Some (String.length b).
Proof.
  induction b as [|c b IH]; intros H.
  - change (String.index 0 "-slot" ("" ++ "-slot" ++ rest)) with
      (if String.prefix "-slot" ("-slot" ++ rest) then Some 0
       else match String.index 0 "-slot" ("slot" ++ rest) with
            | Some n => Some (S n) | None => None end).
    replace (String.prefix "-slot" ("-slot" ++ rest)) with true; [reflexivity|].
    symmetry. apply String.prefix_correct. destruct rest; reflexivity.
  - change (String.index 0 "-slot" (String c b)) with
      (if String.prefix "-slot" (String c b) then Some 0
       else match String.index 0 "-slot" b with Some n => Some (S n) | None => None end) in H.
    destruct (String.prefix "-slot" (String c b)) eqn:E; [discriminate H|].
    destruct (String.index 0 "-slot" b) eqn:E2; [discriminate H|].
    change (String.index 0 "-slot" (String c b ++ "-slot" ++ rest)) with
      (if String.prefix "-slot" (String c b ++ "-slot" ++ rest) then Some 0
       else match String.index 0 "-slot" (b ++ "-slot" ++ rest) with
            | Some n => Some (S n) | None => None end).
    rewrite (prefix_marker_app c b rest E), (IH eq_refl). reflexivity.
Qed.

Lemma substring_head (b rest : string) :
  String.substring 0 (String.length b) (b ++ rest) = b.
Proof.
  induction b as [|c b IH]; simpl; [now destruct rest | now rewrite IH].
Qed.

(** X16.  The dynamic path of a labeled slot whose value holds '#'
    (base slot path, "-slot", id) is cut back to the base slot path
    when a slot is generated below it, provided the base slot path
    holds no "-slot" itself: the inner slot is addressed under the base
    path, the label being dropped. *)
Theorem slot_below_labeled_slot (base slotValue inner : string) (idProp : Val) :
  includes slotValue "#" = true ->
  String.index 0 "-slot" base = None ->
  dynamicTreePath base slotValue idProp = base ++ "-slot" ++ toStr idProp
  /\ slotTreePath (dynamicTreePath base slotValue idProp) inner = base ++ "/" ++ inner.
Proof.
  intros Hlabel Hbase.
  assert (Hdyn : dynamicTreePath base slotValue idProp = base ++ "-slot" ++ toStr idProp).
  { unfold dynamicTreePath. now rewrite Hlabel. }
  split; [exact Hdyn|]. rewrite Hdyn.
  rewrite (slotTreePath_marked _ inner (String.length base)
             (index_marker_app base (toStr idProp) Hbase)).
  now rewrite substring_head.
Qed.

End SlotNesting.

(* ================================================================== *)
(** * Extension points: outer extensions, merged keys, child elements *)
(* ================================================================== *)

Section OuterWrapping.
Import JS ExtensionPoint OuterExtensions.

Lemma around_fold (treePath : string) (rest : Obj)
      (beforeElements afterElements : option (list Element)) (around : list string) :
  forall acc,
    let result :=
      fold_left (fun acc' aroundId =>
                   ExtensionPointEl aroundId aroundId treePath rest
                                    beforeElements afterElements (Some acc'))
                around acc in
    wrappers result = (rev around ++ wrappers acc)%list
    /\ wrapped result = wrapped acc.
Proof.
  induction around as [|a around IH]; intros acc; cbv zeta; simpl.
  - split; reflexivity.
  - destruct (IH (ExtensionPointEl a a treePath rest beforeElements afterElements
                                   (Some acc))) as [Hw Hc].
    cbv zeta in Hw, Hc. rewrite Hw, Hc. simpl. rewrite <- app_assoc. split; reflexivity.
Qed.

(** X17.  With no before, after and around ids the element is returned
    as it is.  Otherwise the result is the element wrapped in one
    extension point per around id, the last id of the list outermost
    and the first innermost; what they wrap is one fragment holding the
    before points (in order), the element once, a spacer exactly when
    the tree path is a root path (no '/'), and the after points (in
    order, inside a lazy render when the lazy footer is on). *)
Theorem outer_extensions_nest (after around before : list string) (treePath : string)
        (props : Obj) (element : Element) (lazyFooter : bool) :
  let result := withOuterExtensions after around before treePath props element lazyFooter in
  (before = [] -> after = [] -> around = [] -> result = element)
  /\ ((before <> [] \/ after <> [] \/ around <> []) ->
      wrappers result = rev around
      /\ wrapped result
         = FragmentEl ("wrapped-" ++ treePath)
             ([LazyImagesEl (map (outerPoint treePath props) before); element]
              ++ (if includes treePath "/" then [] else [SpacerEl])
              ++ [if lazyFooter
                  then LazyRenderEl (LazyImagesEl (map (outerPoint treePath props) after))
                  else LazyImagesEl (map (outerPoint treePath props) after)])).
Proof.
  cbv zeta. split.
  - intros -> -> ->. reflexivity.
  - intros Hsome. unfold withOuterExtensions.
    assert (Hguard : Nat.eqb (List.length before) 0 && Nat.eqb (List.length after) 0
                     && Nat.eqb (List.length around) 0 = false).
    { destruct before, after, around; try reflexivity.
      destruct Hsome as [H | [H | H]]; now elim H. }
    rewrite Hguard. cbv zeta.
    match goal with
    | |- context [fold_left ?f around ?acc] =>
        destruct (around_fold treePath
                    (omit ["id"; "key"; "ref"; "__self"; "__source"; "treePath";
                           "beforeElements"; "afterElements"; "children"] props)
                    (Some (map (outerPoint treePath props) before))
                    (Some (map (outerPoint treePath props) after))
                    around acc) as [Hw Hc]
    end.
    cbv zeta in Hw, Hc. rewrite Hw, Hc. cbn [wrappers wrapped]. rewrite app_nil_r.
    split; [reflexivity|].
    unfold includes, indexOf.
    destruct (String.index 0 "/" treePath) as [n|]; [|reflexivity].
    replace (Z.of_nat n =? -1)%Z with false by (symmetry; apply Z.eqb_neq; lia).
    reflexivity.
Qed.

End OuterWrapping.

Section MergedKeys.
Import JS Ramda ExtensionPoint.

Variable getSettings : string -> Val.

Lemma bound_mergeDeepRight (k : string) (l r : Obj) :
  lookup k (mergeDeepRight l r) <> None <-> lookup k l <> None \/ lookup k r <> None.
Proof.
  rewrite lookup_mergeDeepRight.
  destruct (lookup k l) as [[]|], (lookup k r) as [[]|]; split;
    intros H; try discriminate; try (now left); try (now right);
    try (destruct H as [H | H]; now elim H).
Qed.

Lemma bound_fold (k : string) (layers : list Obj) :
  forall acc,
    lookup k (fold_left mergeDeepRight layers acc) <> None
    <-> lookup k acc <> None \/ exists layer, In layer layers /\ lookup k layer <> None.
Proof.
  induction layers as [|l layers IH]; intros acc; simpl.
  - split; [now left | intros [H | (layer & [] & _)]; exact H].
  - rewrite IH, bound_mergeDeepRight. split.
    + intros [[H | H] | (layer & Hin & H)].
      * now left.
      * right. exists l. split; [now left | exact H].
      * right. exists layer. split; [now right | exact H].
    + intros [H | (layer & [<- | Hin] & H)].
      * left. now left.
      * left. now right.
      * right. now exists layer.
Qed.

(** X18.  The merged props bind exactly the keys that some source
    binds: "params" and "query" always, "appSettings" when the settings
    value is truthy, and every key of the parent props, of the declared
    props, of [blockProps] and of the content.  No key is lost in the
    merge and none is made up. *)
Theorem mergedProps_keys
        (comp : option string) (parentProps extensionProps : Obj)
        (blockProps : option Obj) (content params query : Val) (k : string) :
  lookup k (mergedProps getSettings comp parentProps extensionProps
                        blockProps content params query) <> None
  <-> (k = "appSettings" /\ truthy (appSettingsOf getSettings comp) = true)
      \/ lookup k parentProps <> None
      \/ lookup k extensionProps <> None
      \/ lookup k (match blockProps with Some o => o | None => [] end) <> None
      \/ lookup k (ownProps content) <> None
      \/ k = "params" \/ k = "query".
Proof.
  unfold mergedProps, mergeLayers, reduce, propLayers. rewrite bound_fold.
  assert (Hsettings :
    lookup k (if truthy (appSettingsOf getSettings comp)
              then [("appSettings", appSettingsOf getSettings comp)] else []) <> None
    <-> k = "appSettings" /\ truthy (appSettingsOf getSettings comp) = true).
  { destruct (truthy (appSettingsOf getSettings comp)); simpl.
    - destruct (String.eqb_spec k "appSettings"); split; intros H;
        try (now split); try discriminate; try (now elim H); tauto.
    - split; [intros H; now elim H | intros [_ H]; discriminate]. }
  assert (Hrouting :
    lookup k [("params", params); ("query", query)] <> None
    <-> k = "params" \/ k = "query").
  { simpl. destruct (String.eqb_spec k "params"), (String.eqb_spec k "query");
      split; intros H; try discriminate; try tauto; now elim H. }
  split.
  - intros [H | (layer & Hin & H)]; [now elim H|].
    simpl in Hin.
    destruct Hin as [<- | [<- | [<- | [<- | [<- | [<- | []]]]]]];
      [ left; now apply Hsettings | tauto | tauto | tauto | tauto
      | apply Hrouting in H; tauto ].
  - intros H. right.
    destruct H as [H | [H | [H | [H | [H | H]]]]].
    + eexists. split; [left; reflexivity | now apply Hsettings].
    + exists parentProps. split; [simpl; tauto | exact H].
    + exists extensionProps. split; [simpl; tauto | exact H].
    + eexists. split; [do 3 right; left; reflexivity | exact H].
    + eexists. split; [do 4 right; left; reflexivity | exact H].
    + eexists. split; [do 5 right; left; reflexivity | now apply Hrouting].
Qed.

(** X19.  The routing values come last.  A [params] (or [query]) that is
    not a plain object is what the merged props hold under that key,
    whatever the other sources bound there: also an undefined one, which
    wipes a "params" set by the content or by any prop.  A plain object
    is merged over the plain object the other sources produced. *)
Theorem routing_values_win
        (comp : option string) (parentProps extensionProps : Obj)
        (blockProps : option Obj) (content params query : Val) :
  let merged := mergedProps getSettings comp parentProps extensionProps
                            blockProps content params query in
  let below := mergeLayers
                 [ if truthy (appSettingsOf getSettings comp)
                   then [("appSettings", appSettingsOf getSettings comp)] else [];
                   parentProps; extensionProps;
                   match blockProps with Some o => o | None => [] end;
                   ownProps content ] in
  (isObject params = false -> lookup "params" merged = Some params)
  /\ (isObject query = false -> lookup "query" merged = Some query)
  /\ (forall p, params = VObj p ->
                lookup "params" merged
                = Some (VObj match lookup "params" below with
                             | Some (VObj b) => mergeDeepRight b p
                             | _ => p
                             end))
  /\ (forall p, query = VObj p ->
                lookup "query" merged
                = Some (VObj match lookup "query" below with
                             | Some (VObj b) => mergeDeepRight b p
                             | _ => p
                             end)).
Proof.
  cbv zeta.
  set (first5 := [ if truthy (appSettingsOf getSettings comp)
                   then [("appSettings", appSettingsOf getSettings comp)] else [];
                   parentProps; extensionProps;
                   match blockProps with Some o => o | None => [] end;
                   ownProps content ]).
  assert (Hp : lookup "params"
                 (mergedProps getSettings comp parentProps extensionProps
                              blockProps content params query)
               = Some match lookup "params" (mergeLayers first5), params with
                      | Some (VObj a), VObj b => VObj (mergeDeepRight a b)
                      | _, _ => params
                      end).
  { exact (lookup_mergeLayers_split "params" first5 []
             [("params", params); ("query", query)] params eq_refl (fun h F => match F with end)). }
  assert (Hq : lookup "query"
                 (mergedProps getSettings comp parentProps extensionProps
                              blockProps content params query)
               = Some match lookup "query" (mergeLayers first5), query with
                      | Some (VObj a), VObj b => VObj (mergeDeepRight a b)
                      | _, _ => query
                      end).
  { exact (lookup_mergeLayers_split "query" first5 []
             [("params", params); ("query", query)] query eq_refl (fun h F => match F with end)). }
  split; [|split; [|split]].
  - intros Hno. rewrite Hp.
    destruct params; try discriminate Hno;
      destruct (lookup "params" (mergeLayers first5)) as [[]|]; reflexivity.
  - intros Hno. rewrite Hq.
    destruct query; try discriminate Hno;
      destruct (lookup "query" (mergeLayers first5)) as [[]|]; reflexivity.
  - intros p ->. rewrite Hp.
    destruct (lookup "params" (mergeLayers first5)) as [[]|]; reflexivity.
  - intros p ->. rewrite Hq.
    destruct (lookup "query" (mergeLayers first5)) as [[]|]; reflexivity.
Qed.

End MergedKeys.

Section ChildElements.
Import JS ExtensionPoint.

Lemma nth_error_mapi {A B : Type} (f : A -> nat -> B) (xs : list A) :
  forall (start i : nat),
    nth_error (mapi f start xs) i
    = match nth_error xs i with
      | Some x => Some (f x (start + i))
      | None => None
      end.
Proof.
  induction xs as [|x xs IH]; intros start i; simpl.
  - now destruct i.
  - destruct i as [|i]; simpl.
    + now rewrite Nat.add_0_r.
    + rewrite IH. now rewrite Nat.add_succ_r.
Qed.

Lemma length_mapi {A B : Type} (f : A -> nat -> B) (xs : list A) :
  forall start, List.length (mapi f start xs) = List.length xs.
Proof. induction xs as [|x xs IH]; intros start; simpl; [reflexivity | now rewrite IH]. Qed.

(** X20.  The children of a tree path are as many as its child blocks,
    each with the id of its block; the i-th gets the key
    "around-{treePath}-{i}", so the keys are pairwise different, and
    as [blockProps] the props declared by the extension at the child's
    own tree path (none when that path has no extension). *)
Theorem child_elements_keyed
        (exts : Extensions) (treePath : string) (ext : Extension) (bs : list Block) :
  exts treePath = Present ext ->
  blocks ext = Some bs ->
  exists kids,
    getChildExtensions exts treePath = Some kids
    /\ List.length kids = List.length (filter isChildBlock bs)
    /\ (forall i kid,
           nth_error kids i = Some kid ->
           child_key kid = "around-" ++ treePath ++ "-" ++ showNat i
           /\ child_treePath kid = treePath
           /\ child_blockProps kid
              = propsOrEmpty (exts (mountTreePath (child_id kid) treePath))
           /\ exists b, nth_error (filter isChildBlock bs) i = Some b
                        /\ child_id kid = extensionPointId b)
    /\ NoDup (map child_key kids).
Proof.
  intros Hext Hbs. unfold getChildExtensions. rewrite Hext, Hbs.
  eexists. split; [reflexivity|].
  split; [apply length_mapi|].
  assert (Hnth : forall i kid,
    nth_error (mapi (fun child j =>
                       mkChild ("around-" ++ treePath ++ "-" ++ showNat j)
                               (extensionPointId child)
                               (propsOrEmpty (exts (mountTreePath (extensionPointId child)
                                                                  treePath)))
                               treePath) 0 (filter isChildBlock bs)) i = Some kid ->
    child_key kid = "around-" ++ treePath ++ "-" ++ showNat i
    /\ child_treePath kid = treePath
    /\ child_blockProps kid = propsOrEmpty (exts (mountTreePath (child_id kid) treePath))
    /\ exists b, nth_error (filter isChildBlock bs) i = Some b
                 /\ child_id kid = extensionPointId b).
  { intros i kid. rewrite nth_error_mapi.
    destruct (nth_error (filter isChildBlock bs) i) as [b|]; [|discriminate].
    intros [= <-]. simpl. repeat split. now exists b. }
  split; [exact Hnth|].
  apply NoDup_nth_error. intros i j Hi Hij.
  rewrite length_map in Hi. rewrite !nth_error_map in Hij.
  destruct (nth_error _ i) as [ki|] eqn:Ei;
    [|apply nth_error_None in Ei; lia].
  destruct (nth_error (mapi _ 0 (filter isChildBlock bs)) j) as [kj|] eqn:Ej;
    [|discriminate Hij].
  simpl in Hij. injection Hij as Hij.
  destruct (Hnth i ki Ei) as (Hki & _). destruct (Hnth j kj Ej) as (Hkj & _).
  rewrite Hki, Hkj in Hij.
  do 3 apply string_app_inv_head in Hij. now apply showNat_inj.
Qed.

End ChildElements.

(* ================================================================== *)
(** * The error page and the layout container *)
(* ================================================================== *)

Section ErrorPageClicks.
Import ErrorPage.

Lemma clicks_from (n : nat) :
  forall splunk, splunk <= 2 ->
                 clicks n splunk = ((splunk + n) mod 3, (splunk + n) / 3).
Proof.
  induction n as [|n IH]; intros splunk Hs.
  - cbn [clicks]. rewrite Nat.add_0_r.
    rewrite Nat.mod_small, Nat.div_small by lia. reflexivity.
  - cbn [clicks]. unfold handleImageClick.
    destruct (Nat.ltb_spec splunk 2) as [Hlt | Hge].
    + rewrite IH by lia. replace (splunk + 1 + n) with (splunk + S n) by lia.
      reflexivity.
    + assert (splunk = 2) by lia. subst splunk. rewrite IH by lia.
      replace (2 + S n) with (n + 1 * 3) by lia.
      rewrite Nat.Div0.mod_add, Nat.div_add by lia. simpl. f_equal. lia.
Qed.

(** X21.  Every third click on the image opens the Splunk search and
    resets the counter: after n clicks on a fresh page the search has
    been opened n / 3 times and the counter stands at n mod 3; the
    counter never leaves 0, 1, 2. *)
Theorem every_third_click_opens (n : nat) :
  clicks n 0 = (n mod 3, n / 3)
  /\ fst (clicks n 0) <= 2
  /\ (forall splunk, splunk <= 2 -> fst (handleImageClick splunk) <= 2)
  /\ (forall splunk, snd (handleImageClick splunk) = true <-> 2 <= splunk).
Proof.
  split; [exact (clicks_from n 0 (Nat.le_0_l 2))|].
  split.
  - rewrite (clicks_from n 0 (Nat.le_0_l 2)). cbn [fst Nat.add].
    assert (n mod 3 < 3) by (apply Nat.mod_upper_bound; lia). lia.
  - split; intros splunk; unfold handleImageClick;
      destruct (Nat.ltb_spec splunk 2); simpl; try lia;
      split; intros; try discriminate; try reflexivity; lia.
Qed.

End ErrorPageClicks.

Section LayoutFlattening.
Import JS ExtensionPoint LayoutContainer.

Lemma Element_nested_ind (P : Element -> Prop) :
  (forall s, P (EStr s)) ->
  (forall items, Forall P items -> P (EArr items)) ->
  forall e, P e.
Proof.
  intros Hstr Harr.
  fix rec 1. intros [s | items]; [apply Hstr|].
  apply Harr. induction items as [|x items IH]; constructor; [apply rec | exact IH].
Qed.

Lemma leaves_app (a b : list Element) :
  leaves (EArr (a ++ b)) = (leaves (EArr a) ++ leaves (EArr b))%list.
Proof.
  induction a as [|x a IH]; [reflexivity|].
  cbn [leaves app] in *. rewrite IH, app_assoc. reflexivity.
Qed.

(** The items of a box, when each nested container renders the strings
    of its element: the strings of the first [bound] items. *)
Lemma each_leaves (isMobile isRow : bool) (props : Obj) (foldIndex lazyPos : Z)
      (bound : nat) (l : list Element) :
  Forall (fun e => forall r p,
            pointIds (Container None e r isMobile false p) = leaves e) l ->
  forall i,
    (fix all (l0 : list (string * Node)) : list string :=
       match l0 with
       | [] => []
       | (_, item) :: rest => (pointIds item ++ all rest)%list
       end)
      ((fix each (i0 : nat) (l0 : list Element) {struct l0} : list (string * Node) :=
          match l0 with
          | [] => []
          | element :: rest =>
              if Nat.ltb i0 bound
              then
                (elementToString element,
                 if (foldIndex >? -1)%Z && (Z.of_nat i0 >? foldIndex)%Z
                 then LazyRenderNode
                        (if (lazyPos >? -1)%Z && (Z.of_nat i0 >? lazyPos)%Z
                         then LazyImagesNode
                                (Container None element (negb isRow) isMobile false props)
                         else Container None element (negb isRow) isMobile false props)
                 else if (lazyPos >? -1)%Z && (Z.of_nat i0 >? lazyPos)%Z
                      then LazyImagesNode
                             (Container None element (negb isRow) isMobile false props)
                      else Container None element (negb isRow) isMobile false props)
                :: each (S i0) rest
              else []
          end) i l)
    = leaves (EArr (firstn (bound - i) l)).
Proof.
  induction 1 as [|x l Hx Hl IH]; intros i.
  - now rewrite firstn_nil.
  - destruct (Nat.ltb_spec i bound) as [Hlt | Hge].
    + replace (bound - i) with (S (bound - S i)) by lia.
      rewrite (IH (S i)). cbn [firstn leaves]. f_equal.
      destruct ((foldIndex >? -1)%Z && (Z.of_nat i >? foldIndex)%Z),
        ((lazyPos >? -1)%Z && (Z.of_nat i >? lazyPos)%Z); cbn [pointIds]; apply Hx.
    + replace (bound - i) with 0 by lia. reflexivity.
Qed.

Lemma container_full (isMobile : bool) (e : Element) :
  forall isRow props,
    pointIds (Container None e isRow isMobile false props) = leaves e.
Proof.
  induction e as [s | items IH] using Element_nested_ind; intros isRow props.
  - cbn [Container leaves]. destruct (String.eqb s "__children__"); reflexivity.
  - cbn [Container pointIds].
    rewrite (each_leaves isMobile isRow props _ _ (List.length items) items IH 0).
    now rewrite Nat.sub_0_r, firstn_all.
Qed.

(** X22.  The ids a container gives to the extension points it renders
    (each ahead of the rest props spread over the point) are, in order,
    the strings of its element tree (nested arrays flattened, fold
    markers included, the children marker left out and rendered as the
    children instead).  Only the top array can be cut short: in preview
    with [aboveTheFold] given, to the items [slice(0, aboveTheFold)]
    keeps. *)
Theorem container_renders_leaves
        (aboveTheFold : option Z) (elements : Element)
        (isRow isMobile preview : bool) (props : Obj) :
  (preview = false \/ aboveTheFold = None ->
   pointIds (Container aboveTheFold elements isRow isMobile preview props)
   = leaves elements)
  /\ (forall items n,
         elements = EArr items -> preview = true -> aboveTheFold = Some n ->
         pointIds (Container aboveTheFold elements isRow isMobile preview props)
         = leaves (EArr (firstn (sliceEnd (List.length items) n) items))).
Proof.
  assert (Hnested : forall items,
             Forall (fun e => forall r p,
                       pointIds (Container None e r isMobile false p) = leaves e) items).
  { intros items. apply Forall_forall. intros e _ r p. apply container_full. }
  split.
  - intros Hcase. destruct elements as [s | items].
    + cbn [Container leaves]. destruct (String.eqb s "__children__"); reflexivity.
    + cbn [Container pointIds].
      rewrite (each_leaves isMobile isRow props _ _ _ items (Hnested items) 0).
      rewrite Nat.sub_0_r.
      replace (if preview
               then match aboveTheFold with
                    | Some n => sliceEnd (List.length items) n
                    | None => List.length items
                    end
               else List.length items) with (List.length items)
        by (destruct Hcase as [-> | ->]; [reflexivity | now destruct preview]).
      now rewrite firstn_all.
  - intros items n -> -> ->. cbn [Container pointIds].
    rewrite (each_leaves isMobile isRow props _ _ _ items (Hnested items) 0).
    now rewrite Nat.sub_0_r.
Qed.



End LayoutFlattening.

(* ================================================================== *)
(** * The prefetch hook *)
(* ================================================================== *)

Section PrefetchAttempts.
Import JS Prefetch.

(** An attempt leaves everything as it was, or marks the hook as tried
    and enqueues nothing or one task. *)
Lemma attempt_cases (a : Attempt) (h : Hook) (w : Shared) :
  attemptPrefetch a h w = (h, w)
  \/ (hasTried h = false
      /\ hasTried (fst (attemptPrefetch a h w)) = true
      /\ (queue (snd (attemptPrefetch a h w)) = queue w
          \/ exists task, queue (snd (attemptPrefetch a h w)) = (queue w ++ [task])%list)).
Proof.
  unfold attemptPrefetch.
  destruct (hasTried h) eqn:Ht; [now left|].
  destruct (negb (active a)); [now left|].
  destruct (negb (canPrefetch h)); [now left|]. cbn [orb].
  destruct (notRelative (href a)); [now left|].
  right. split; [reflexivity|].
  destruct (isFetching (pathsState w (navigationPath a))); [simpl; auto|].
  destruct (pathValid _ && routeValid _); [simpl; auto|].
  simpl. split; [reflexivity|]. right. now eexists.
Qed.

Lemma tried_is_done (attempts : list (Attempt * Shared)) :
  forall h, hasTried h = true -> enqueuedBy h attempts = 0.
Proof.
  induction attempts as [|[a w] attempts IH]; intros h Ht; [reflexivity|].
  cbn [enqueuedBy]. unfold attemptPrefetch at 1. rewrite Ht. cbn [orb].
  rewrite (IH h Ht). lia.
Qed.

(** X23.  One link prefetches at most once.  Over any number of
    attempts, whatever the shared state and the caches are at each of
    them, a hook instance adds at most one task to the queue, and none
    once it has tried.  An attempt made while prefetch is inactive,
    before the hook may prefetch, or for a non-empty href that does not
    start with '/' changes nothing and does not count as a try. *)
Theorem link_prefetches_once (h : Hook) (attempts : list (Attempt * Shared)) :
  enqueuedBy h attempts <= 1
  /\ (hasTried h = true -> enqueuedBy h attempts = 0)
  /\ (forall a w,
         active a = false \/ canPrefetch h = false \/ notRelative (href a) = true ->
         attemptPrefetch a h w = (h, w)).
Proof.
  split; [|split; [apply tried_is_done|]].
  - revert h. induction attempts as [|[a w] attempts IH]; intros h; [simpl; lia|].
    cbn [enqueuedBy].
    destruct (attempt_cases a h w) as [Hsame | (_ & Htried & Hqueue)].
    + rewrite Hsame. specialize (IH h). lia.
    + destruct (attemptPrefetch a h w) as [h' w'] eqn:E. cbn [fst snd] in *.
      rewrite (tried_is_done attempts h' Htried).
      destruct Hqueue as [-> | [task ->]]; [lia|].
      rewrite length_app. simpl. lia.
  - intros a w Hguard. unfold attemptPrefetch.
    destruct (hasTried h); [reflexivity|].
    destruct Hguard as [-> | [-> | Hhref]]; cbn [negb orb];
      rewrite ?orb_true_r; try reflexivity.
    destruct (negb (active a) || negb (canPrefetch h)); [reflexivity|].
    now rewrite Hhref.
Qed.

(** X24.  Two links to the same path whose path data is not cached
    make one request.  The first attempt marks the path as being
    fetched and enqueues its task (with priority 1 for the page
    store.product and 0 otherwise); an attempt of another link for that
    path on the state the first left enqueues nothing and counts as its
    try. *)
Theorem same_path_is_fetched_once (a1 a2 : Attempt) (h1 h2 : Hook) (w : Shared) :
  hasTried h1 = false -> canPrefetch h1 = true -> active a1 = true ->
  notRelative (href a1) = false ->
  hasTried h2 = false -> canPrefetch h2 = true -> active a2 = true ->
  notRelative (href a2) = false ->
  navigationPath a2 = navigationPath a1 ->
  isFetching (pathsState w (navigationPath a1)) = false ->
  pathValid (getCacheValidData (navigationPath a1) (pathsState w) (caches a1)) = false ->
  let first := attemptPrefetch a1 h1 w in
  let second := attemptPrefetch a2 h2 (snd first) in
  queue (snd first)
  = (queue w
     ++ [mkTask (navigationPath a1) (linkPage a1)
                (getCacheValidData (navigationPath a1) (pathsState w) (caches a1))
                (if match linkPage a1 with
                    | Some p => String.eqb p "store.product"
                    | None => false
                    end then 1 else 0)])%list
  /\ isFetching (pathsState (snd first) (navigationPath a1)) = true
  /\ hasTried (fst first) = true
  /\ snd second = snd first
  /\ hasTried (fst second) = true.
Proof.
  intros Ht1 Hc1 Ha1 Hr1 Ht2 Hc2 Ha2 Hr2 Hsame Hnot Hinvalid. cbv zeta.
  assert (Hfirst : attemptPrefetch a1 h1 w
                   = (mkHook true true,
                      mkShared (setPath (pathsState w) (navigationPath a1)
                                        (mkPath (Some true) None))
                               (queue w
                                ++ [mkTask (navigationPath a1) (linkPage a1)
                                      (getCacheValidData (navigationPath a1)
                                         (pathsState w) (caches a1))
                                      (getPriorityForPage (linkPage a1))]))).
  { unfold attemptPrefetch. rewrite Ht1, Hc1, Ha1, Hr1, Hnot, Hinvalid. reflexivity. }
  rewrite Hfirst. cbn [fst snd queue pathsState].
  assert (Hmark : isFetching (setPath (pathsState w) (navigationPath a1)
                                      (mkPath (Some true) None) (navigationPath a1)) = true).
  { unfold setPath. now rewrite String.eqb_refl. }
  split; [|split; [exact Hmark | split; [reflexivity|]]].
  - unfold getPriorityForPage. destruct (linkPage a1) as [p|]; reflexivity.
  - unfold attemptPrefetch. rewrite Ht2, Hc2, Ha2, Hr2, Hsame. cbn [negb orb pathsState].
    rewrite Hmark. split; reflexivity.
Qed.

End PrefetchAttempts.

(* ================================================================== *)
(** * The URI switch link *)
(* ================================================================== *)

Section UriSwitch.
Import JS UriSwitchLink.

Lemma lookup_spread_one (k key : string) (v : Val) (o : Obj) :
  lookup k (spread o [(key, v)])
  = if String.eqb k key then Some v else lookup k o.
Proof.
  rewrite lookup_spread. simpl. destruct (String.eqb k key); reflexivity.
Qed.

Lemma no_operation_is_mutation (query : list DefinitionNode) :
  Forall (fun d => d = OtherDefinition) query ->
  assetsFromQuery query = "mutation".
Proof.
  induction 1 as [|d ds -> _ IH]; [reflexivity | exact IH].
Qed.

(** X25.  Whenever the link sets a context: the request method is GET
    exactly when the scope of the cache hint is "public" and the first
    operation of the document is a "query" (both compared in lower
    case), and POST otherwise, so also for a document without an
    operation; every fetch option the caller had set is kept except
    [method]; every key of the context is kept except [fetchOptions]
    and [uri], which holds a string. *)
Theorem switch_link_method
        (baseURI : string) (canUseDOM : bool) (workspace : Val) (cacheHints : Obj)
        (extensions : Val) (query : list DefinitionNode) (context context' : Obj) :
  switchContext baseURI canUseDOM workspace cacheHints extensions query context
  = Some context' ->
  exists scopeText fetchOptions',
    UriSwitchLink.prop "scope" (hintsFor cacheHints (hashFromExtensions extensions))
    = VStr scopeText
    /\ lookup "fetchOptions" context' = Some (VObj fetchOptions')
    /\ lookup "method" fetchOptions'
       = Some (VStr (if String.eqb (toLowerCase scopeText) "public"
                        && String.eqb (toLowerCase (assetsFromQuery query)) "query"
                     then "GET" else "POST"))
    /\ (forall k, k <> "method" ->
                  lookup k fetchOptions'
                  = lookup k (ownProps (get "fetchOptions" context)))
    /\ (forall k, k <> "fetchOptions" -> k <> "uri" ->
                  lookup k context' = lookup k context)
    /\ (exists uri, lookup "uri" context' = Some (VStr uri))
    /\ (Forall (fun d => d = OtherDefinition) query ->
        lookup "method" fetchOptions' = Some (VStr "POST")).
Proof.
  unfold switchContext.
  destruct (UriSwitchLink.prop "scope" (hintsFor cacheHints (hashFromExtensions extensions)))
    as [| | | |scopeText| |] eqn:Hscope;
    try (destruct (get "runtime" context); discriminate).
  intros Hsome.
  assert (Hctx : exists fo uri,
             context' = spread context [("fetchOptions", VObj (spread
                           (ownProps (get "fetchOptions" context))
                           [("method",
                             VStr (if String.eqb (toLowerCase scopeText) "public"
                                      && String.eqb (toLowerCase (assetsFromQuery query))
                                                    "query"
                                   then "GET" else "POST"))]));
                                        ("uri", VStr uri)]
             /\ fo = get "fetchOptions" context).
  { destruct (get "runtime" context); try discriminate Hsome;
      injection Hsome as <-; do 2 eexists; (split; [|reflexivity]);
      destruct (get "fetchOptions" context); reflexivity. }
  destruct Hctx as (fo & uri & -> & _).
  exists scopeText. eexists.
  split; [reflexivity|]. split; [rewrite lookup_spread; reflexivity|].
  split; [rewrite lookup_spread_one; reflexivity|].
  split.
  { intros k Hk. rewrite lookup_spread_one.
    apply String.eqb_neq in Hk. now rewrite Hk. }
  split.
  { intros k Hf Hu. rewrite lookup_spread. simpl.
    apply String.eqb_neq in Hf. apply String.eqb_neq in Hu. now rewrite Hf, Hu. }
  split.
  { exists uri. rewrite lookup_spread. reflexivity. }
  intros Hnone. rewrite lookup_spread_one. cbn [String.eqb].
  rewrite (no_operation_is_mutation query Hnone).
  now rewrite andb_false_r.
Qed.

(** X26.  An operation for whose persisted-query hash (an absent hash
    included) [cacheHints[hash]] is falsy, the names inherited from
    [Object.prototype] counted in, is sent to the public scope, version
    1, with the long max age: when the context holds a runtime object,
    the link does not throw and the URI is
    {protocol}//{baseURI}/_v/graphql/public/v1?workspace=...&maxAge=LONG&appsEtag=...,
    the protocol being https: with a DOM and http: without.  A hash
    that names an inherited property which [cacheHints] does not shadow
    finds that property instead, not the defaults, and the callback
    throws. *)
Theorem switch_link_defaults
        (baseURI : string) (canUseDOM : bool) (workspace : Val) (cacheHints : Obj)
        (extensions : Val) (query : list DefinitionNode) (context runtime : Obj) :
  get "runtime" context = VObj runtime ->
  (truthy (member cacheHints (toStr (hashFromExtensions extensions))) = false ->
   exists context',
     switchContext baseURI canUseDOM workspace cacheHints extensions query context
     = Some context'
     /\ lookup "uri" context'
        = Some (VStr ((if canUseDOM then "https:" else "http:") ++ "//" ++ baseURI
                      ++ "/_v/graphql/public/v1?workspace=" ++ toStr workspace
                      ++ "&maxAge=LONG&appsEtag=" ++ toStr (get "appsEtag" runtime))))
  /\ (lookup (toStr (hashFromExtensions extensions)) cacheHints = None ->
      In (toStr (hashFromExtensions extensions)) objectPrototypeNames ->
      switchContext baseURI canUseDOM workspace cacheHints extensions query context
      = None).
Proof.
  intros Hruntime. split.
  - intros Hhint. unfold switchContext, hintsFor.
    rewrite Hhint, Hruntime.
    cbn [UriSwitchLink.prop defaultAssets get lookup String.eqb
         Ascii.eqb Bool.eqb toStr showZ].
    eexists. split; [reflexivity|].
    rewrite lookup_spread. cbn [lookup String.eqb Ascii.eqb Bool.eqb].
    reflexivity.
  - intros Hown Hinherited. unfold switchContext, hintsFor, member.
    rewrite Hown, Hruntime.
    replace (existsb (String.eqb (toStr (hashFromExtensions extensions)))
                     objectPrototypeNames) with true.
    + reflexivity.
    + symmetry. apply existsb_exists.
      exists (toStr (hashFromExtensions extensions)).
      split; [exact Hinherited | apply String.eqb_refl].
Qed.

End UriSwitch.

(* ================================================================== *)
(** * Scenarios *)
(* ================================================================== *)

Section StyleScenarios.
Import JS Uncritical.

(** Two links in manual mode: both load and nothing is promoted. *)
Lemma manual_mode_never_activates_witness :
  let s0 := createLinks (fun _ => true)
              [Some (mkRef "base.css" None); Some (mkRef "wide.css" None)] 0
              (initial (mkDom [] true)) in
  let events := [OnLoad (linkId 0); OnLoad (linkId 1)] in
  isManual (Some "manual") = true
  /\ stylesHydrated s0 = false
  /\ dom (run (Some "manual") s0 events) = dom s0
  /\ stylesHydrated (run (Some "manual") s0 events) = false.
Proof.
  intros s0 events.
  split; [reflexivity | split; [reflexivity | split]].
  - exact (proj1 (manual_mode_never_activates (Some "manual") s0 events eq_refl eq_refl)).
  - exact (proj1 (proj2
             (manual_mode_never_activates (Some "manual") s0 events eq_refl eq_refl))).
Defined.

(** Two links, the first loads and the second fails: activation runs
    with the second link still a preload.  Its load event arriving
    afterwards promotes it. *)
Lemma late_style_is_promoted_witness :
  let s0 := createLinks (fun _ => true)
              [Some (mkRef "base.css" None); Some (mkRef "wide.css" None)] 0
              (initial (mkDom [] true)) in
  let s := run None s0 [OnLoad (linkId 0); OnError (linkId 1)] in
  stylesHydrated s = true
  /\ relOf (linkId 1) (links (dom s)) = Some "preload"
  /\ relOf (linkId 1) (links (dom (handle None s (OnLoad (linkId 1))))) = Some "stylesheet"
  /\ dom (handle None s (OnError (linkId 1))) = dom s.
Proof.
  intros s0 s.
  assert (Hnew : ~ In (Some (linkId 1)) (loadedStyles s)).
  { cbv. intros [H | [H | []]]; discriminate H. }
  split; [reflexivity | split; [reflexivity | split]].
  - exact (proj1 (late_style_is_promoted None s (linkId 1) eq_refl Hnew eq_refl eq_refl)).
  - exact (proj2 (proj2 (proj2 (proj2
             (late_style_is_promoted None s (linkId 1) eq_refl Hnew eq_refl eq_refl))))).
Defined.

(** Three links, one load and two failures: two distinct ids are
    recorded, one short of the three registered. *)
Lemma too_few_loads_never_activate_witness :
  let refs := [Some (mkRef "a.css" None); Some (mkRef "b.css" None);
               Some (mkRef "c.css" None)] in
  let s0 := createLinks (fun _ => true) refs 0 (initial (mkDom [] true)) in
  let events := [OnLoad (linkId 0); OnError (linkId 1); OnError (linkId 2)] in
  totalStylesCount s0 = 3
  /\ stylesHydrated (run None s0 events) = false
  /\ dom (run None s0 events) = dom s0.
Proof.
  intros refs s0 events.
  split; [reflexivity | split].
  - exact (proj1 (too_few_loads_never_activate None (fun _ => true) refs (mkDom [] true)
                    events eq_refl (le_n 3))).
  - exact (proj2 (proj2
             (too_few_loads_never_activate None (fun _ => true) refs (mkDom [] true)
                events eq_refl (le_n 3)))).
Defined.

(** Base and override refs on a screen device, one ref missing and one
    for print only: the links 0 and 3 are appended. *)
Lemma registration_appends_links_witness :
  let matches := fun m => String.eqb m "screen" in
  let refs := mkRefs (Some [Some (mkRef "base.css" None); None])
                     (Some [Some (mkRef "print.css" (Some "print"));
                            Some (mkRef "wide.css" (Some "screen"))]) in
  let s' := resolveUncriticalPromise matches (Some refs) (initial (mkDom [] true)) in
  links (dom s') = [(linkId 0, "preload"); (linkId 3, "preload")]
  /\ totalStylesCount s' = 2.
Proof.
  intros matches refs s'.
  split.
  - exact (proj1 (registration_appends_links matches refs (initial (mkDom [] true))
                    eq_refl)).
  - exact (proj1 (proj2 (proj2 (proj2
             (registration_appends_links matches refs (initial (mkDom [] true))
                eq_refl))))).
Defined.


(** Two loaded styles: two steps promote both links. *)
Lemma stepping_promotes_all_witness :
  let ids := [linkId 0; linkId 1] in
  let s := mkState (map Some ids) 2 false
                   (mkDom [(linkId 0, "preload"); (linkId 1, "preload")] true) [] in
  fst (stepsUncritical 2 0 s) = 2
  /\ relOf (linkId 1) (links (dom (snd (stepsUncritical 2 0 s)))) = Some "stylesheet".
Proof.
  intros ids s.
  assert (Hids : Forall (fun i => nonEmpty i = true) ids).
  { repeat constructor. }
  split.
  - exact (f_equal fst (proj1 (stepping_promotes_all ids s eq_refl eq_refl Hids))).
  - exact (proj1 (proj2 (stepping_promotes_all ids s eq_refl eq_refl Hids))
             (linkId 1) (or_intror (or_introl eq_refl)) eq_refl).
Defined.

End StyleScenarios.

Section GateScenarios.
Import JS PreventHydration.

(** A server-rendered subtree mounted with [shouldHydrate] false and
    then asked to hydrate: frozen until its assets are there. *)
Lemma gate_thaws_after_assets_witness :
  let tp := "store.home/shelf" in
  let g := run true true tp (mount true true tp (Some false)) [NewProps (Some true)] in
  isLoaded g = false
  /\ loadPending g = true
  /\ render true g = Frozen
  /\ render true (step true true tp g AssetsLoaded) = Live.
Proof.
  intros tp g.
  assert (Hinit : initialShouldHydrate g <> Some true) by (cbv; discriminate).
  split; [reflexivity | split; [reflexivity | split]].
  - exact (proj1 (gate_thaws_after_assets tp g None eq_refl eq_refl Hinit)).
  - exact (proj2 (proj2 (proj1 (proj2 (proj2 (proj2 (proj2
             (gate_thaws_after_assets tp g None eq_refl eq_refl Hinit))))) eq_refl))
             eq_refl).
Defined.

(** A gate mounted without a tree path in the browser. *)
Lemma empty_tree_path_never_loads_witness :
  let g := run true true "" (mount true true "" (Some false))
               [NewProps (Some true); AssetsLoaded] in
  nonEmpty "" = false
  /\ loadPending g = false
  /\ isLoaded g = false.
Proof.
  intros g.
  split; [reflexivity | split].
  - exact (proj1 (empty_tree_path_never_loads "" true true (Some false)
                    [NewProps (Some true); AssetsLoaded] eq_refl)).
  - exact (proj1 (proj2 (empty_tree_path_never_loads "" true true (Some false)
                           [NewProps (Some true); AssetsLoaded] eq_refl))).
Defined.

End GateScenarios.

Section SlotScenarios.
Import JS ExtensionPoint Slots Scenario.

(** The banner slot with id 7 after its content fetch has settled
    empty: the next render of the slot component loads the entry stored
    at the dynamic path. *)
Lemma materialized_slot_is_reused_witness :
  let exts' := assign registryBanner "store.home/banner#slot7" (Present bannerBase) in
  DynamicSlot parseContent "store.home/banner#slot7" "store.home/banner"
              registryBanner [("id", VStr "7")] (mkQuery (Some [mkContent ""]) false false)
  = Returned exts' (Some [("id", VStr "7")])
  /\ SlotComponent "store.home" "banner" exts' [("id", VStr "7")]
     = loaderFor (Present bannerBase) [("id", VStr "7")] "store.home/banner"
                 (getChildExtensions exts' "store.home/banner").
Proof.
  intros exts'.
  split; [reflexivity|].
  destruct (proj1 (materialized_slot_is_reused parseContent "store.home" "banner"
                     registryBanner exts' [("id", VStr "7")] [("id", VStr "7")]
                     [("id", VStr "7")] (mkQuery (Some [mkContent ""]) false false)
                     eq_refl eq_refl) bannerBase eq_refl)
    as (entry & Hentry & _ & _ & _ & _ & Hrender).
  assert (Hsame : entry = bannerBase).
  { cbv in Hentry. now injection Hentry as <-. }
  rewrite Hsame in Hrender. exact Hrender.
Defined.

(** A slot rendered below the labeled banner slot materialized with
    id 7 resolves against the banner's base path. *)
Lemma slot_below_labeled_slot_witness :
  includes "banner#promo" "#" = true
  /\ dynamicTreePath "store.home/banner#promo" "banner#promo" (VStr "7")
     = "store.home/banner#promo-slot7"
  /\ slotTreePath "store.home/banner#promo-slot7" "shelf"
     = "store.home/banner#promo/shelf".
Proof.
  split; [reflexivity | split].
  - exact (proj1 (slot_below_labeled_slot "store.home/banner#promo" "banner#promo"
                    "shelf" (VStr "7") eq_refl eq_refl)).
  - exact (proj2 (slot_below_labeled_slot "store.home/banner#promo" "banner#promo"
                    "shelf" (VStr "7") eq_refl eq_refl)).
Defined.

(** The one child of the entry at 'a'. *)
Lemma child_elements_keyed_witness :
  exists kids,
    getChildExtensions registryAB "a" = Some kids
    /\ List.length kids = 1
    /\ NoDup (map child_key kids).
Proof.
  destruct (child_elements_keyed registryAB "a"
              (mkExtension (Some "X") None None (Some [mkBlock "b" None None]) None None)
              [mkBlock "b" None None] eq_refl eq_refl)
    as (kids & Hkids & Hlen & _ & Hkeys).
  exists kids. split; [exact Hkids | split; [exact Hlen | exact Hkeys]].
Defined.

End SlotScenarios.

Section PrefetchScenarios.
Import JS Prefetch.

(** Two links to the same product page, nothing cached: the first
    enqueues its request with priority 1, the second enqueues none. *)
Lemma same_path_is_fetched_once_witness :
  let a := mkAttempt true "/shoes/p" (Some "store.product") "/shoes/p"
                     (mkCaches (fun _ _ => false) (fun _ => false)) in
  let fresh := mkHook false true in
  let first := attemptPrefetch a fresh (mkShared (fun _ => None) []) in
  queue (snd first)
  = [mkTask "/shoes/p" (Some "store.product") (mkValid false false) 1]
  /\ snd (attemptPrefetch a fresh (snd first)) = snd first.
Proof.
  intros a fresh first.
  split.
  - exact (proj1 (same_path_is_fetched_once a a fresh fresh (mkShared (fun _ => None) [])
                    eq_refl eq_refl eq_refl eq_refl eq_refl eq_refl eq_refl eq_refl
                    eq_refl eq_refl eq_refl)).
  - exact (proj1 (proj2 (proj2 (proj2
             (same_path_is_fetched_once a a fresh fresh (mkShared (fun _ => None) [])
                eq_refl eq_refl eq_refl eq_refl eq_refl eq_refl eq_refl eq_refl
                eq_refl eq_refl eq_refl))))).
Defined.

End PrefetchScenarios.

Section UriSwitchScenarios.
Import JS UriSwitchLink.

(** A persisted query hinted as PUBLIC, sent by a caller that had set
    credentials and the method PUT. *)
Lemma switch_link_method_witness :
  let hints := [("abc", VObj [("maxAge", VStr "SHORT"); ("scope", VStr "PUBLIC");
                              ("version", VNum 2)])] in
  let extensions := VObj [("persistedQuery", VObj [("sha256Hash", VStr "abc")])] in
  let context := [("runtime", VObj [("appsEtag", VStr "e1")]);
                  ("fetchOptions", VObj [("credentials", VStr "include");
                                         ("method", VStr "PUT")]);
                  ("headers", VObj [])] in
  exists context' fetchOptions',
    switchContext "shop.example.com" true (VStr "master") hints extensions
                  [OtherDefinition; OperationDefinition "query"] context
    = Some context'
    /\ lookup "fetchOptions" context' = Some (VObj fetchOptions')
    /\ lookup "method" fetchOptions' = Some (VStr "GET")
    /\ lookup "credentials" fetchOptions' = Some (VStr "include")
    /\ lookup "headers" context' = Some (VObj []).
Proof.
  intros hints extensions context.
  destruct (switchContext "shop.example.com" true (VStr "master") hints extensions
                          [OtherDefinition; OperationDefinition "query"] context)
    as [context'|] eqn:Hsets; [|discriminate Hsets].
  destruct (switch_link_method "shop.example.com" true (VStr "master") hints extensions
              [OtherDefinition; OperationDefinition "query"] context context' Hsets)
    as (scopeText & fetchOptions' & Hscope & Hoptions & Hmethod & Hkept & Hcontext & _).
  assert (HscopeText : scopeText = "PUBLIC").
  { cbv in Hscope. now injection Hscope as <-. }
  rewrite HscopeText in Hmethod.
  exists context', fetchOptions'.
  split; [reflexivity | split; [exact Hoptions | split; [exact Hmethod | split]]].
  - refine (Hkept "credentials" _). discriminate.
  - refine (Hcontext "headers" _ _); discriminate.
Defined.

(** A query without extensions, rendered on the server, and a
    persisted query whose hash is the word constructor. *)
Lemma switch_link_defaults_witness :
  (exists context',
      switchContext "shop.example.com" false (VStr "master") [] VUndefined
                    [OperationDefinition "query"]
                    [("runtime", VObj [("appsEtag", VStr "e1")])]
      = Some context'
      /\ lookup "uri" context'
         = Some (VStr "http://shop.example.com/_v/graphql/public/v1?workspace=master&maxAge=LONG&appsEtag=e1"))
  /\ switchContext "shop.example.com" false (VStr "master") []
                   (VObj [("persistedQuery", VObj [("sha256Hash", VStr "constructor")])])
                   [OperationDefinition "query"]
                   [("runtime", VObj [("appsEtag", VStr "e1")])]
     = None.
Proof.
  split.
  - exact (proj1 (switch_link_defaults "shop.example.com" false (VStr "master") []
                    VUndefined [OperationDefinition "query"]
                    [("runtime", VObj [("appsEtag", VStr "e1")])]
                    [("appsEtag", VStr "e1")] eq_refl) eq_refl).
  - exact (proj2 (switch_link_defaults "shop.example.com" false (VStr "master") []
                    (VObj [("persistedQuery", VObj [("sha256Hash", VStr "constructor")])])
                    [OperationDefinition "query"]
                    [("runtime", VObj [("appsEtag", VStr "e1")])]
                    [("appsEtag", VStr "e1")] eq_refl) eq_refl (or_introl eq_refl)).
Defined.

End UriSwitchScenarios.

(* ================================================================== *)
(** * The prefetch task *)
(* ================================================================== *)

Section PrefetchTask.
Import JS Prefetch.

Lemma setPath_same (ps : string -> option PathState) (path : string) (state : PathState) :
  setPath ps path state path = Some state.
Proof. unfold setPath. now rewrite String.eqb_refl. Qed.

Lemma setPath_other (ps : string -> option PathState) (path p : string)
      (state : PathState) :
  p <> path -> setPath ps path state p = ps p.
Proof. intros Hp. unfold setPath. apply String.eqb_neq in Hp. now rewrite Hp. Qed.

(** X28.  A task for a path whose data was not cached, run while
    prefetch is active and with the page request fulfilled, leaves the
    path as not being fetched and records the page found for it: the
    page of the link, or else the page of the navigation data, but
    only when navigation data came back; without data the recorded
    page is null even when the link named a page.  The page cache gets
    one entry, under the page found, exactly when a page was found;
    no other path is touched. *)
Theorem task_settles_path (t : Task) (navigationData : option NavigationData)
        (st : Store) :
  pathValid (task_validCache t) = false ->
  let st' := prefetchRequests true t (FetchFulfilled navigationData) st in
  let found := match navigationData with
               | Some d => match task_page t with
                           | Some p => Some p
                           | None => navigation_page d
                           end
               | None => None
               end in
  paths st' (task_path t) = Some (mkPath (Some false) found)
  /\ isFetching (paths st' (task_path t)) = false
  /\ (forall p, p <> task_path t -> paths st' p = paths st p)
  /\ cacheSets st'
     = (cacheSets st ++ match found with
                        | Some p => [(p, task_path t)]
                        | None => []
                        end)%list.
Proof.
  intros Hinvalid. cbv zeta.
  unfold prefetchRequests, maybeUpdatePathCache. rewrite Hinvalid. cbn [negb].
  destruct navigationData as [d|], (task_page t) as [p|];
    [| destruct (navigation_page d) as [p|] | |];
    cbn [paths cacheSets]; rewrite ?setPath_same, ?app_nil_r;
    (split; [reflexivity | split; [reflexivity | split; [| reflexivity]]]);
    intros p' Hp'; now rewrite !setPath_other.
Qed.

(** X29.  Nothing clears the fetching mark when the page request
    fails.  After a link has enqueued the task for a path whose data
    was not cached, a run of the task whose page request rejects
    leaves the store as it found it, the path still marked as being
    fetched; from then on no attempt of any link for that path
    enqueues anything. *)
Theorem rejected_fetch_blocks_path
        (a later : Attempt) (h h' : Hook) (w : Shared)
        (sets : list (string * string)) (isPrefetchActive : bool) (q : list Task) :
  hasTried h = false -> canPrefetch h = true -> active a = true ->
  notRelative (href a) = false ->
  isFetching (pathsState w (navigationPath a)) = false ->
  pathValid (getCacheValidData (navigationPath a) (pathsState w) (caches a)) = false ->
  navigationPath later = navigationPath a ->
  exists t,
    queue (snd (attemptPrefetch a h w)) = (queue w ++ [t])%list
    /\ let st := mkStore (pathsState (snd (attemptPrefetch a h w))) sets in
       prefetchRequests isPrefetchActive t FetchRejected st = st
       /\ isFetching (paths (prefetchRequests isPrefetchActive t FetchRejected st)
                            (navigationPath a)) = true
       /\ queue (snd (attemptPrefetch later h'
                        (mkShared (paths (prefetchRequests isPrefetchActive t
                                                           FetchRejected st)) q)))
          = q.
Proof.
  intros Ht Hc Ha Hr Hnot Hinvalid Hsame.
  assert (Hfirst : attemptPrefetch a h w
                   = (mkHook true true,
                      mkShared (setPath (pathsState w) (navigationPath a)
                                        (mkPath (Some true) None))
                               (queue w
                                ++ [mkTask (navigationPath a) (linkPage a)
                                      (getCacheValidData (navigationPath a)
                                         (pathsState w) (caches a))
                                      (getPriorityForPage (linkPage a))]))).
  { unfold attemptPrefetch. rewrite Ht, Hc, Ha, Hr, Hnot, Hinvalid. reflexivity. }
  rewrite Hfirst. cbn [fst snd queue pathsState]. eexists. split; [reflexivity|].
  cbv zeta.
  assert (Hrun : forall st,
             prefetchRequests isPrefetchActive
               (mkTask (navigationPath a) (linkPage a)
                       (getCacheValidData (navigationPath a) (pathsState w) (caches a))
                       (getPriorityForPage (linkPage a)))
               FetchRejected st = st).
  { intros st. unfold prefetchRequests, maybeUpdatePathCache.
    cbn [task_validCache]. rewrite Hinvalid. now destruct isPrefetchActive. }
  rewrite Hrun. cbn [paths].
  assert (Hmark : isFetching (setPath (pathsState w) (navigationPath a)
                                      (mkPath (Some true) None) (navigationPath a)) = true).
  { now rewrite setPath_same. }
  split; [reflexivity | split; [exact Hmark|]].
  unfold attemptPrefetch. cbn [pathsState queue]. rewrite Hsame, Hmark.
  destruct (hasTried h' || negb (active later) || negb (canPrefetch h'));
    [reflexivity|].
  destruct (notRelative (href later)); reflexivity.
Qed.

End PrefetchTask.

Section PrefetchTaskScenarios.
Import JS Prefetch.

(** The task of a link without a page, the request finding the
    product page, and the same task when no data comes back. *)
Lemma task_settles_path_witness :
  let t := mkTask "/shoes/p" None (mkValid false false) 0 in
  let st := mkStore (fun _ => None) [] in
  let found := prefetchRequests true t
                 (FetchFulfilled (Some (mkNavigation (Some "store.product")))) st in
  paths found "/shoes/p" = Some (mkPath (Some false) (Some "store.product"))
  /\ cacheSets found = [("store.product", "/shoes/p")]
  /\ paths (prefetchRequests true t (FetchFulfilled None) st) "/shoes/p"
     = Some (mkPath (Some false) None).
Proof.
  intros t st found.
  split; [| split].
  - exact (proj1 (task_settles_path t (Some (mkNavigation (Some "store.product"))) st
                    eq_refl)).
  - exact (proj2 (proj2 (proj2
             (task_settles_path t (Some (mkNavigation (Some "store.product"))) st
                eq_refl)))).
  - exact (proj1 (task_settles_path t None st eq_refl)).
Defined.

(** A link enqueues the task for a product path, the page request
    fails, and a second link to the path comes into view. *)
Lemma rejected_fetch_blocks_path_witness :
  let a := mkAttempt true "/shoes/p" (Some "store.product") "/shoes/p"
                     (mkCaches (fun _ _ => false) (fun _ => false)) in
  let fresh := mkHook false true in
  let w := mkShared (fun _ => None) [] in
  exists t,
    queue (snd (attemptPrefetch a fresh w)) = [t]
    /\ queue (snd (attemptPrefetch a fresh
                     (mkShared (paths (prefetchRequests true t FetchRejected
                                         (mkStore (pathsState (snd (attemptPrefetch a fresh w)))
                                                  [])))
                               [])))
       = [].
Proof.
  intros a fresh w.
  destruct (rejected_fetch_blocks_path a a fresh fresh w [] true []
              eq_refl eq_refl eq_refl eq_refl eq_refl eq_refl eq_refl)
    as (t & Hqueue & _ & _ & Hblocked).
  exists t. split; [exact Hqueue | exact Hblocked].
Defined.

End PrefetchTaskScenarios.
